(** * PicoH: the three-tier memory hierarchy of [mian.py]

    A shallow embedding of the MicroPython program of the repository
    ([mian.py], [lib/EEPROM.py], [lib/Sensor.py], [lib/ds18x20.py]) and the
    theorems that settle the claims made about it.

    The program runs on a Raspberry Pi Pico.  Its Python globals, the cells of
    the AT24C32 EEPROM behind the I2C bus and a log of lock and access events
    form the state; the sensors, the clock and the floating-point library
    routines the program calls but does not define are the [platform]. *)

From Stdlib Require Import ZArith List Bool String Lia.
From Stdlib Require Import Floats.SpecFloat.
From stdpp Require Import base option list strings gmap.

Local Open Scope Z_scope.

(** ** Python floats

    MicroPython on the RP2040 stores a [float] as an IEEE-754 binary32 number;
    [spec_float] with precision 24 and maximal exponent 128 is that format. *)

Module PyFloat.

Abbreviation float := spec_float.

Definition prec : Z := 24.
Definition emax : Z := 128.

(** [float(z)] for a Python integer. *)
Definition of_int (z : Z) : float := binary_normalize prec emax z 0 false.

Definition add : float -> float -> float := SFadd prec emax.
Definition sub : float -> float -> float := SFsub prec emax.
Definition mul : float -> float -> float := SFmul prec emax.
Definition div : float -> float -> float := SFdiv prec emax.
Definition neg : float -> float := SFopp.

(** [x < y] and [x <= y]; both are [False] as soon as a NaN is involved. *)
Definition ltb : float -> float -> bool := SFltb.
Definition leb : float -> float -> bool := SFleb.

(** [math.isnan]. *)
Definition isnan (x : float) : bool :=
  match x with S754_nan => true | _ => false end.

Definition is_zero (x : float) : bool :=
  match x with S754_zero _ => true | _ => false end.

(** The literal [0.0]. *)
Definition zero : float := S754_zero false.

(** A decimal literal [n / 10^k], rounded to the nearest binary32 number. *)
Definition decimal (n : Z) (k : Z) : float := div (of_int n) (of_int (10 ^ k)).

(** The 32 bits of a binary32 number: sign, biased exponent, fraction. *)
Definition sign_bit (s : bool) : Z := if s then 2 ^ 31 else 0.

Definition bits_of_b32 (x : float) : Z :=
  match x with
  | S754_zero s => sign_bit s
  | S754_infinity s => sign_bit s + 255 * 2 ^ 23
  | S754_nan => 255 * 2 ^ 23 + 2 ^ 22
  | S754_finite s m e =>
      sign_bit s +
      (if 2 ^ 23 <=? Z.pos m
       then (e + 150) * 2 ^ 23 + (Z.pos m - 2 ^ 23)
       else Z.pos m)
  end.

Definition b32_of_bits (b : Z) : float :=
  let s := Z.testbit b 31 in
  let e := Z.land (Z.shiftr b 23) 255 in
  let m := Z.land b (2 ^ 23 - 1) in
  if e =? 0 then
    match m with
    | Z.pos p => S754_finite s p (-149)
    | _ => S754_zero s
    end
  else if e =? 255 then
    (if m =? 0 then S754_infinity s else S754_nan)
  else
    match m + 2 ^ 23 with
    | Z.pos p => S754_finite s p (e - 150)
    | _ => S754_nan
    end.

(** Little-endian bytes of a 32-bit word (the Pico is little-endian). *)
Definition le_bytes (w : Z) : list Z :=
  [Z.land w 255; Z.land (Z.shiftr w 8) 255;
   Z.land (Z.shiftr w 16) 255; Z.land (Z.shiftr w 24) 255].

Definition of_le_bytes (raw : list Z) : Z :=
  fold_right (fun b acc => b + 256 * acc) 0 raw.

End PyFloat.

Import PyFloat.

(** ** Python exceptions and values *)

Inductive exn : Type :=
| KeyError
| IndexError
| TypeError
| ValueError
| NameError
| ZeroDivisionError
| OSError.

Global Instance exn_eq_dec : EqDecision exn.
Proof. solve_decision. Defined.

(** [struct.pack('f', data)]: the four little-endian bytes of the binary32
    number; [None] is no number and raises [TypeError]. *)
Definition struct_pack_f (data : option float) : exn + list Z :=
  match data with
  | None => inl TypeError
  | Some x => inr (le_bytes (bits_of_b32 x))
  end.

(** [struct.unpack('f', raw)[0]]. *)
Definition struct_unpack_f (raw : list Z) : float :=
  b32_of_bits (of_le_bytes raw).

(** [l[i]] on a Python list: a negative index counts from the end. *)
Definition py_list_index {A} (l : list A) (i : Z) : exn + A :=
  let n := Z.of_nat (length l) in
  let j := if i <? 0 then i + n else i in
  if (0 <=? j) && (j <? n) then
    match l !! Z.to_nat j with
    | Some x => inr x
    | None => inl IndexError
    end
  else inl IndexError.

(** [x / y] on Python numbers converted to float. *)
Definition py_truediv (x y : float) : exn + float :=
  if is_zero y then inl ZeroDivisionError else inr (div x y).

(** ** Dictionaries that are iterated

    [cache] is iterated by [min(cache.items(), ...)], so it is kept as an
    association list in insertion order.  [dict_set] replaces the entry of
    a key that is present and appends otherwise; [dict_del] removes the entry
    of the key. *)

Section Dict.
Context {V : Type}.

Fixpoint dict_get (k : Z) (d : list (Z * V)) : option V :=
  match d with
  | [] => None
  | (k', v) :: r => if decide (k' = k) then Some v else dict_get k r
  end.

Fixpoint dict_set (k : Z) (v : V) (d : list (Z * V)) : list (Z * V) :=
  match d with
  | [] => [(k, v)]
  | (k', v') :: r =>
      if decide (k' = k) then (k, v) :: r else (k', v') :: dict_set k v r
  end.

Fixpoint dict_del (k : Z) (d : list (Z * V)) : list (Z * V) :=
  match d with
  | [] => []
  | (k', v') :: r =>
      if decide (k' = k) then dict_del k r else (k', v') :: dict_del k r
  end.

(** [min(items, key=f)]: the first item whose key is smallest. *)
Fixpoint py_min_from (f : Z * V -> Z) (best : Z * V) (items : list (Z * V)) : Z * V :=
  match items with
  | [] => best
  | x :: r => py_min_from f (if f x <? f best then x else best) r
  end.

Definition py_min (f : Z * V -> Z) (items : list (Z * V)) : exn + (Z * V) :=
  match items with
  | [] => inl ValueError
  | x :: r => inr (py_min_from f x r)
  end.

End Dict.

(** ** The platform

    What the program calls but does not define: the millisecond clock
    ([utime]), the one-wire temperature sensor, the two ADC channels, the
    outcome of the I2C transfers and the two [math] routines used by
    [calculate_ppm].  Every hardware interaction that gives the program an
    answer has an index (the [io] counter of the state); the platform says
    what the hardware answers at that index.  A transfer that programs a
    cell of the EEPROM gives no answer and leaves the counter alone; whether
    it raises is asked with the counter as it stands and the address of the
    cell. *)

Record platform : Type := {
  (** [utime.ticks_ms()] *)
  ticks_ms_at : nat -> Z;
  (** [utime.ticks_diff(a, b)] *)
  ticks_diff : Z -> Z -> Z;
  (** [ds_roms = ds_sensor.scan()], computed once at start-up *)
  ds_roms : list Z;
  (** the nine scratchpad bytes read by [DS18X20.read_scratch] *)
  scratchpad_at : nat -> list Z;
  (** [mq2_adc.read_u16()] and [mq7_adc.read_u16()] *)
  mq2_u16_at : nat -> Z;
  mq7_u16_at : nat -> Z;
  (** whether the I2C read transfer raises (the [except] of [read_last_value]) *)
  i2c_read_fails_at : nat -> bool;
  (** whether the I2C write transfer that programs the cell at an address
      raises ([i2c.writeto] in [eeprom_write_bytes], which has no handler) *)
  i2c_write_fails_at : nat -> Z -> bool;
  (** [math.pow] and [round(x, ndigits)] *)
  math_pow : float -> float -> exn + float;
  py_round : float -> Z -> float
}.

(** ** State *)

(** A Python value that is a float or [None]. *)
Abbreviation pyval := (option float).

(** [{'value': ..., 'last_used': ...}] *)
Record cache_entry : Type := CacheEntry { value : pyval; last_used : Z }.

(** [{"timestamp": ..., "value": ...}] *)
Record ttl_record : Type := TtlRecord { timestamp : Z; ttl_value : pyval }.

Inductive lock : Type := cache_lock | eeprom_lock.

Inductive resource : Type := Cache | Store.

(** What a flow does to the shared structures, in order. *)
Inductive event : Type :=
| Acquire (l : lock)
| Release (l : lock)
| Touch (r : resource).

Global Instance lock_eq_dec : EqDecision lock.
Proof. solve_decision. Defined.

Global Instance resource_eq_dec : EqDecision resource.
Proof. solve_decision. Defined.

Record state : Type := State {
  (** [cache = {}] *)
  cache : list (Z * cache_entry);
  (** [write_pointers] *)
  write_pointers : gmap Z Z;
  (** [eeprom_ttl] *)
  eeprom_ttl : gmap Z ttl_record;
  total_access : Z;
  cache_hits : Z;
  eeprom_hits : Z;
  (** the cells of the AT24C32; a cell never programmed reads [0xFF] *)
  cells : gmap Z Z;
  (** the address counter of the AT24C32 *)
  cell_pointer : Z;
  (** number of hardware interactions so far *)
  io : nat;
  (** lock and access events so far, oldest first *)
  trace : list event
}.

Definition set_cache (c : list (Z * cache_entry)) (s : state) : state :=
  State c (write_pointers s) (eeprom_ttl s) (total_access s) (cache_hits s)
        (eeprom_hits s) (cells s) (cell_pointer s) (io s) (trace s).

Definition set_write_pointers (w : gmap Z Z) (s : state) : state :=
  State (cache s) w (eeprom_ttl s) (total_access s) (cache_hits s)
        (eeprom_hits s) (cells s) (cell_pointer s) (io s) (trace s).

Definition set_eeprom_ttl (t : gmap Z ttl_record) (s : state) : state :=
  State (cache s) (write_pointers s) t (total_access s) (cache_hits s)
        (eeprom_hits s) (cells s) (cell_pointer s) (io s) (trace s).

Definition set_total_access (n : Z) (s : state) : state :=
  State (cache s) (write_pointers s) (eeprom_ttl s) n (cache_hits s)
        (eeprom_hits s) (cells s) (cell_pointer s) (io s) (trace s).

Definition set_cache_hits (n : Z) (s : state) : state :=
  State (cache s) (write_pointers s) (eeprom_ttl s) (total_access s) n
        (eeprom_hits s) (cells s) (cell_pointer s) (io s) (trace s).

Definition set_eeprom_hits (n : Z) (s : state) : state :=
  State (cache s) (write_pointers s) (eeprom_ttl s) (total_access s)
        (cache_hits s) n (cells s) (cell_pointer s) (io s) (trace s).

Definition set_cells (m : gmap Z Z) (p : Z) (s : state) : state :=
  State (cache s) (write_pointers s) (eeprom_ttl s) (total_access s)
        (cache_hits s) (eeprom_hits s) m p (io s) (trace s).

Definition set_io (n : nat) (s : state) : state :=
  State (cache s) (write_pointers s) (eeprom_ttl s) (total_access s)
        (cache_hits s) (eeprom_hits s) (cells s) (cell_pointer s) n (trace s).

Definition set_trace (t : list event) (s : state) : state :=
  State (cache s) (write_pointers s) (eeprom_ttl s) (total_access s)
        (cache_hits s) (eeprom_hits s) (cells s) (cell_pointer s) (io s) t.

(** ** Computations: state and exceptions *)

Definition M (A : Type) : Type := state -> (exn + A) * state.

Definition ret {A} (a : A) : M A := fun s => (inr a, s).

Definition raise {A} (e : exn) : M A := fun s => (inl e, s).

Definition bind {A B} (m : M A) (k : A -> M B) : M B :=
  fun s =>
    match m s with
    | (inl e, s') => (inl e, s')
    | (inr a, s') => k a s'
    end.

(** A pure expression that may raise. *)
Definition lift {A} (r : exn + A) : M A :=
  match r with inl e => raise e | inr a => ret a end.

Declare Scope py_scope.
Delimit Scope py_scope with py.
Notation "x <- m ;; k" := (bind m (fun x => k))
  (at level 100, m at next level, k at level 200, right associativity) : py_scope.
Notation "m ;; k" := (bind m (fun _ => k))
  (at level 100, k at level 200, right associativity) : py_scope.
Open Scope py_scope.

Definition emit (e : event) : M unit :=
  fun s => (inr tt, set_trace (trace s ++ [e]) s).

(** [with l: body]: the lock is released when [body] returns and when it
    raises. *)
Definition with_lock {A} (l : lock) (body : M A) : M A :=
  fun s =>
    let '(r, s') := (emit (Acquire l) ;; body) s in
    (r, snd (emit (Release l) s')).

(** The index of the next hardware interaction. *)
Definition next_io : M nat :=
  fun s => (inr (io s), set_io (S (io s)) s).

Definition get {A} (f : state -> A) : M A := fun s => (inr (f s), s).

Definition modify (f : state -> state) : M unit := fun s => (inr tt, f s).

(** [try: body except: handler] with a bare [except]. *)
Definition try_except {A} (body handler : M A) : M A :=
  fun s =>
    match body s with
    | (inl _, s') => handler s'
    | (inr a, s') => (inr a, s')
    end.

(** ** Constants of [mian.py] and [lib/EEPROM.py] *)

Definition ADDR_TEMP : Z := 0x10.
Definition ADDR_MQ2 : Z := 0x11.
Definition ADDR_MQ7 : Z := 0x12.
Definition ADDR_LIST : list Z := [ADDR_TEMP; ADDR_MQ2; ADDR_MQ7].

Definition NAME_MAP : gmap Z string :=
  <[ADDR_TEMP := "TEMP"%string]>
    (<[ADDR_MQ2 := "MQII"%string]> (<[ADDR_MQ7 := "MQIV"%string]> ∅)).

Definition EEPROM_SLOTS : gmap Z (list Z) :=
  <[ADDR_TEMP := [84; 85; 86; 87]]>
    (<[ADDR_MQ2 := [0; 1; 2; 3]]> (<[ADDR_MQ7 := [42; 43; 44; 45]]> ∅)).

Definition CACHE_SIZE : Z := 2.
Definition TTL_MS : Z := 600.

Definition EEPROM_ADDR : Z := 0x50.
Definition PAGE_SIZE : Z := 32.

Definition Vc : float := decimal 33 1.
Definition Rl : float := of_int 1000.
Definition R0_mq2 : float := of_int 22500.
Definition RO_mq7 : float := of_int 15000.

(** [d[k]] on a dictionary of constants. *)
Definition const_getitem {A} (d : gmap Z A) (k : Z) : M A :=
  match d !! k with
  | Some x => ret x
  | None => raise KeyError
  end.

(** ** Accesses to the shared structures

    Every operation on [cache] logs [Touch Cache]; every operation on
    [write_pointers], [eeprom_ttl] and the EEPROM logs [Touch Store]. *)

Definition cache_len : M Z :=
  emit (Touch Cache) ;; get (fun s => Z.of_nat (length (cache s))).

Definition cache_items : M (list (Z * cache_entry)) :=
  emit (Touch Cache) ;; get cache.

Definition cache_get (addr : Z) : M (option cache_entry) :=
  emit (Touch Cache) ;; get (fun s => dict_get addr (cache s)).

Definition cache_contains (addr : Z) : M bool :=
  emit (Touch Cache) ;;
  get (fun s => match dict_get addr (cache s) with Some _ => true | None => false end).

Definition cache_getitem (addr : Z) : M cache_entry :=
  e <- cache_get addr ;;
  match e with
  | Some x => ret x
  | None => raise KeyError
  end.

Definition cache_setitem (addr : Z) (e : cache_entry) : M unit :=
  emit (Touch Cache) ;; modify (fun s => set_cache (dict_set addr e (cache s)) s).

Definition cache_delitem (addr : Z) : M unit :=
  e <- cache_get addr ;;
  match e with
  | Some _ => modify (fun s => set_cache (dict_del addr (cache s)) s)
  | None => raise KeyError
  end.

(** [cache[addr]['last_used'] = t] *)
Definition cache_set_last_used (addr : Z) (t : Z) : M unit :=
  e <- cache_getitem addr ;;
  modify (fun s => set_cache (dict_set addr (CacheEntry (value e) t) (cache s)) s).

Definition write_pointers_getitem (addr : Z) : M Z :=
  emit (Touch Store) ;;
  w <- get write_pointers ;;
  match w !! addr with
  | Some p => ret p
  | None => raise KeyError
  end.

Definition write_pointers_setitem (addr : Z) (p : Z) : M unit :=
  emit (Touch Store) ;;
  modify (fun s => set_write_pointers (<[addr := p]> (write_pointers s)) s).

Definition eeprom_ttl_contains (addr : Z) : M bool :=
  emit (Touch Store) ;;
  get (fun s => match eeprom_ttl s !! addr with Some _ => true | None => false end).

Definition eeprom_ttl_getitem (addr : Z) : M ttl_record :=
  emit (Touch Store) ;;
  t <- get eeprom_ttl ;;
  match t !! addr with
  | Some r => ret r
  | None => raise KeyError
  end.

Definition eeprom_ttl_setitem (addr : Z) (r : ttl_record) : M unit :=
  emit (Touch Store) ;;
  modify (fun s => set_eeprom_ttl (<[addr := r]> (eeprom_ttl s)) s).

(** ** The AT24C32 behind [i2c]

    Modelled from the device's data sheet, which the repository relies on:
    a three-byte write transfer [high, low, data] programs the cell at
    address [high * 256 + low]; a two-byte transfer sets the address counter;
    a read transfer returns the cells from the address counter on.  A
    transfer that programs a cell raises [OSError] when the platform says
    so, and then programs nothing.  A two-byte transfer only opens the read
    that follows it in [read_last_value], inside the same [try]: its failure
    is that of the read, which raises when the platform says so. *)

Definition cell (m : gmap Z Z) (a : Z) : Z := default 255 (m !! a).

Fixpoint read_cells (m : gmap Z Z) (a : Z) (n : nat) : list Z :=
  match n with
  | O => []
  | S n' => cell m a :: read_cells m (a + 1) n'
  end.

(** ** The program *)

Section Program.
Variable P : platform.

Definition ticks_ms : M Z :=
  n <- next_io ;; ret (ticks_ms_at P n).

(** [utime.sleep_ms], [time.sleep_ms], [utime.sleep]: time is what the
    platform's clock says, so sleeping changes nothing here. *)
Definition sleep_ms (ms : Z) : M unit := ret tt.

Definition i2c_writeto (dev : Z) (payload : list Z) : M unit :=
  emit (Touch Store) ;;
  if decide (dev = EEPROM_ADDR) then
    match payload with
    | [high; low; data] =>
        k <- get io ;;
        if i2c_write_fails_at P k (high * 256 + low) then raise OSError
        else
          modify (fun s => set_cells (<[high * 256 + low := data]> (cells s))
                                     (high * 256 + low + 1) s)
    | [high; low] =>
        modify (fun s => set_cells (cells s) (high * 256 + low) s)
    | _ => ret tt
    end
  else ret tt.

Definition i2c_readfrom (dev : Z) (n : nat) : M (list Z) :=
  emit (Touch Store) ;;
  k <- next_io ;;
  if i2c_read_fails_at P k then raise OSError
  else
    m <- get cells ;;
    p <- get cell_pointer ;;
    modify (fun s => set_cells (cells s) (p + Z.of_nat n) s) ;;
    ret (read_cells m p n).

(** *** [lib/EEPROM.py] *)

Fixpoint eeprom_write_bytes_from (addr : Z) (i : Z) (data : list Z) : M unit :=
  match data with
  | [] => ret tt
  | b :: rest =>
      let a := addr + i in
      let high := Z.land (Z.shiftr a 8) 0xFF in
      let low := Z.land a 0xFF in
      i2c_writeto EEPROM_ADDR [high; low; b] ;;
      sleep_ms 5 ;;
      eeprom_write_bytes_from addr (i + 1) rest
  end.

Definition eeprom_write_bytes (addr : Z) (data : list Z) : M unit :=
  eeprom_write_bytes_from addr 0 data.

Definition write_to_eeprom (page_num offset : Z) (data : pyval) : M (Z * Z) :=
  let base_addr := page_num * PAGE_SIZE + offset in
  packed <- lift (struct_pack_f data) ;;
  eeprom_write_bytes base_addr packed ;;
  let offset := offset + 4 in
  if PAGE_SIZE <=? offset then ret (page_num + 1, 0)
  else ret (page_num, offset).

Definition read_last_value (sensor_type : string) (offset : Z) : M pyval :=
  let where_ :=
    if String.eqb sensor_type "MQII" then Some (0 * PAGE_SIZE + offset * 4)
    else if String.eqb sensor_type "MQIV" then Some (42 * PAGE_SIZE + offset * 4)
    else if String.eqb sensor_type "TEMP" then Some (84 * PAGE_SIZE + offset * 4)
    else None in
  match where_ with
  | None => ret None
  | Some addr =>
      try_except
        (let high := Z.land (Z.shiftr addr 8) 0xFF in
         let low := Z.land addr 0xFF in
         i2c_writeto EEPROM_ADDR [high; low] ;;
         raw <- i2c_readfrom EEPROM_ADDR 4 ;;
         if bool_decide (raw ≠ [255; 255; 255; 255])
            && bool_decide (raw ≠ [0; 0; 0; 0])
         then ret (Some (struct_unpack_f raw))
         else ret None)
        (ret None)
  end.

(** *** [lib/ds18x20.py] *)

Definition convert_temp : M unit := ret tt.

Definition read_scratch (rom : Z) : M (list Z) :=
  k <- next_io ;; ret (scratchpad_at P k).

Definition read_temp (rom : Z) : M float :=
  buf <- read_scratch rom ;;
  let b0 := nth 0 buf 0 in
  let b1 := nth 1 buf 0 in
  let temp := if b1 =? 0 then b0 else Z.lor (Z.shiftl b1 8) b0 in
  let temp :=
    if Z.land temp 0x8000 =? 0 then temp
    else - (Z.lxor temp 0xffff + 1) in
  lift (py_truediv (of_int temp) (of_int 16)).

(** *** [lib/Sensor.py] *)

Definition read_voltage_mq2 : M float :=
  k <- next_io ;;
  let raw := mq2_u16_at P k in
  lift (py_truediv (mul (of_int raw) Vc) (of_int 65535)).

Definition read_voltage_mq7 : M float :=
  k <- next_io ;;
  let raw := mq7_u16_at P k in
  lift (py_truediv (mul (of_int raw) Vc) (of_int 65535)).

(** [Rs], [ratio] and [ppm] of one branch of [calculate_ppm]. *)
Definition ppm_curve (Vrl R0 scale exponent : float) : M (float * float) :=
  Rs <- lift (py_truediv (mul (sub (of_int 5) Vrl) Rl) Vrl) ;;
  ratio <- lift (py_truediv Rs R0) ;;
  q <- lift (py_truediv ratio scale) ;;
  ppm <- lift (math_pow P q exponent) ;;
  ret (ratio, ppm).

Definition calculate_ppm (Vrl : float) (type : string) : M pyval :=
  if leb Vrl (of_int 0) then ret None
  else
    let Vrl := mul (of_int 2) Vrl in
    bound <-
      (if String.eqb type "MQ2" then
         r <- ppm_curve Vrl R0_mq2 (decimal 115428 4) (neg (decimal 1526 3)) ;;
         ret (Some r)
       else if String.eqb type "MQ7" then
         r <- ppm_curve Vrl RO_mq7 (decimal 2207 2) (neg (decimal 1498 3)) ;;
         ret (Some r)
       else ret None) ;;
    match bound with
    | None => raise NameError
    | Some (ratio, ppm) =>
        if leb ratio (of_int 0) then ret None
        else ret (Some (py_round P ppm 2))
    end.

(** *** [mian.py] *)

Definition read_temperature : M pyval :=
  convert_temp ;;
  sleep_ms 50 ;;
  rom <- lift (py_list_index (ds_roms P) 0) ;;
  t <- read_temp rom ;;
  if ltb (of_int 0) t then
    rom' <- lift (py_list_index (ds_roms P) 0) ;;
    t' <- read_temp rom' ;;
    ret (Some t')
  else ret None.

Definition read_sensor (addr : Z) : M pyval :=
  if decide (addr = ADDR_TEMP) then read_temperature
  else if decide (addr = ADDR_MQ2) then
    v <- read_voltage_mq2 ;; calculate_ppm v "MQ2"
  else if decide (addr = ADDR_MQ7) then
    v <- read_voltage_mq7 ;; calculate_ppm v "MQ7"
  else ret None.

Fixpoint enumerate_from {A} (i : Z) (l : list A) : list (Z * A) :=
  match l with
  | [] => []
  | x :: r => (i, x) :: enumerate_from (i + 1) r
  end.

(** The [for i, page in enumerate(EEPROM_SLOTS[addr])] loop of
    [eeprom_write]; the result says whether it left through [break]. *)
Fixpoint eeprom_write_scan (addr : Z) (val : pyval) (current_time : Z)
    (slots : list (Z * Z)) : M bool :=
  match slots with
  | [] => ret false
  | (i, page) :: rest =>
      present <- eeprom_ttl_contains addr ;;
      expired <-
        (if present then
           r <- eeprom_ttl_getitem addr ;;
           ret (TTL_MS <? ticks_diff P current_time (timestamp r))
         else ret false) ;;
      if expired then
        write_to_eeprom page i val ;;
        write_pointers_setitem addr ((i + 1) mod 4) ;;
        ret true
      else eeprom_write_scan addr val current_time rest
  end.

Definition eeprom_write (addr : Z) (val : pyval) : M unit :=
  with_lock eeprom_lock
    (current_time <- ticks_ms ;;
     slots <- const_getitem EEPROM_SLOTS addr ;;
     broke <- eeprom_write_scan addr val current_time (enumerate_from 0 slots) ;;
     (if broke then ret tt
      else
        ptr <- write_pointers_getitem addr ;;
        slots' <- const_getitem EEPROM_SLOTS addr ;;
        page <- lift (py_list_index slots' ptr) ;;
        write_to_eeprom page ptr val ;;
        write_pointers_setitem addr ((ptr + 1) mod 4)) ;;
     eeprom_ttl_setitem addr (TtlRecord current_time val)).

Definition update_cache (addr : Z) (val : pyval) : M unit :=
  n <- cache_len ;;
  (if CACHE_SIZE <=? n then
     items <- cache_items ;;
     oldest <- lift (py_min (fun x => last_used (snd x)) items) ;;
     cache_delitem (fst oldest)
   else ret tt) ;;
  now <- ticks_ms ;;
  cache_setitem addr (CacheEntry val now).

Definition check_ttl (addr : Z) : M unit :=
  entry <- cache_get addr ;;
  match entry with
  | None => ret tt
  | Some e =>
      now <- ticks_ms ;;
      if TTL_MS <? ticks_diff P now (last_used e) then cache_delitem addr
      else ret tt
  end.

Definition eeprom_read (addr : Z) : M pyval :=
  if bool_decide (is_Some (NAME_MAP !! addr)) then
    with_lock eeprom_lock
      (present <- eeprom_ttl_contains addr ;;
       fresh <-
         (if present then
            entry <- eeprom_ttl_getitem addr ;;
            now <- ticks_ms ;;
            if ticks_diff P now (timestamp entry) <? TTL_MS
            then ret (Some (ttl_value entry))
            else ret None
          else ret None) ;;
       match fresh with
       | Some v => ret v
       | None =>
           w <- write_pointers_getitem addr ;;
           let ptr := (w - 1) mod 4 in
           name <- const_getitem NAME_MAP addr ;;
           read_last_value name ptr
       end)
  else ret None.

(** [val is not None and not (isinstance(val, float) and math.isnan(val))] *)
Definition usable (val : pyval) : bool :=
  match val with
  | None => false
  | Some x => negb (isnan x)
  end.

(** The three tiers of [request_data]; a tier that returns from the function
    yields [Some] of the returned triple. *)
Definition request_cache_tier (addr : Z) : M (option (pyval * string * Z)) :=
  with_lock cache_lock
    (present <- cache_contains addr ;;
     if present then
       now <- ticks_ms ;;
       cache_set_last_used addr now ;;
       modify (fun s => set_cache_hits (cache_hits s + 1) s) ;;
       e <- cache_getitem addr ;;
       e' <- cache_getitem addr ;;
       ret (Some (value e, "Cache"%string, last_used e'))
     else ret None).

Definition request_store_tier (addr : Z) : M (option (pyval * string * Z)) :=
  val <- eeprom_read addr ;;
  if usable val then
    with_lock cache_lock (update_cache addr val) ;;
    modify (fun s => set_eeprom_hits (eeprom_hits s + 1) s) ;;
    r <- eeprom_ttl_getitem addr ;;
    ret (Some (val, "EEPROM"%string, timestamp r))
  else ret None.

Definition request_sensor_tier (addr : Z) : M (pyval * string * Z) :=
  val <- read_sensor addr ;;
  timestamp <- ticks_ms ;;
  eeprom_write addr val ;;
  with_lock cache_lock (update_cache addr val) ;;
  ret (val, "Sensor"%string, timestamp).

(** What [request_data] does before it turns to the sensor. *)
Definition request_lookup (addr : Z) : M (option (pyval * string * Z)) :=
  modify (fun s => set_total_access (total_access s + 1) s) ;;
  check_ttl addr ;;
  hit <- request_cache_tier addr ;;
  match hit with
  | Some r => ret (Some r)
  | None => request_store_tier addr
  end.

Definition request_data (addr : Z) : M (pyval * string * Z) :=
  found <- request_lookup addr ;;
  match found with
  | Some r => ret r
  | None => request_sensor_tier addr
  end.

(** The body of the [for addr in ADDR_LIST] loop of [sensor_loop]. *)
Definition sensor_loop_step (addr : Z) : M unit :=
  val <- read_sensor addr ;;
  match val with
  | Some _ => eeprom_write addr val ;; update_cache addr val
  | None => ret tt
  end.

Fixpoint for_each {A} (l : list A) (body : A -> M unit) : M unit :=
  match l with
  | [] => ret tt
  | x :: r => body x ;; for_each r body
  end.

(** [sensor_loop] never returns; [sensor_loop n] is its first [n] rounds. *)
Fixpoint sensor_loop (rounds : nat) : M unit :=
  match rounds with
  | O => ret tt
  | S n =>
      for_each ADDR_LIST sensor_loop_step ;;
      sleep_ms 800 ;;
      sensor_loop n
  end.

End Program.

(** [a / b * 100] on Python integers. *)
Definition percent (a b : Z) : exn + float :=
  match py_truediv (of_int a) (of_int b) with
  | inl e => inl e
  | inr q => inr (mul q (of_int 100))
  end.

(** The three rates the main loop computes after a request. *)
Definition hit_rate (s : state) : exn + float :=
  percent (cache_hits s + eeprom_hits s) (total_access s).

Definition cache_hits_rate (s : state) : exn + float :=
  percent (cache_hits s) (total_access s).

Definition eeprom_hits_rate (s : state) : exn + float :=
  percent (eeprom_hits s) (total_access s).

(** The globals as the module leaves them before the first request, over an
    EEPROM that holds [m]. *)
Definition boot (m : gmap Z Z) : state :=
  State [] (<[ADDR_TEMP := 0]> (<[ADDR_MQ2 := 0]> (<[ADDR_MQ7 := 0]> ∅))) ∅
        0 0 0 m 0 0 [].

(** ** A platform to run the program on

    [utime.ticks_diff] as MicroPython defines it (the ticks period of the
    RP2040 port is [2^30]), a clock and a temperature sensor given by the
    caller, ADC readings of [5], reliable I2C transfers, and stand-ins for
    [math.pow] and [round] that return their first argument. *)

Definition mp_ticks_diff (a b : Z) : Z :=
  (a - b + 2 ^ 29) mod 2 ^ 30 - 2 ^ 29.

Definition bench (clock : nat -> Z) (scratch : nat -> list Z) : platform :=
  {| ticks_ms_at := clock;
     ticks_diff := mp_ticks_diff;
     ds_roms := [0x28];
     scratchpad_at := scratch;
     mq2_u16_at := fun _ => 5;
     mq7_u16_at := fun _ => 5;
     i2c_read_fails_at := fun _ => false;
     i2c_write_fails_at := fun _ _ => false;
     math_pow := fun x _ => inr x;
     py_round := fun x _ => x |}.

(** A clock that advances [step] milliseconds per hardware interaction. *)
Definition steady (step : Z) (n : nat) : Z := step * Z.of_nat n.

(** Scratchpads of a sensor at 25.0 degrees and at 0.0 degrees. *)
Definition warm (n : nat) : list Z := [0x90; 0x01; 0; 0; 0; 0; 0; 0; 0].
Definition freezing (n : nat) : list Z := [0; 0; 0; 0; 0; 0; 0; 0; 0].

(** ** Notions the statements use *)

(** The cells after the bytes [data] are programmed from address [a] on. *)
Fixpoint program_cells (a : Z) (data : list Z) (m : gmap Z Z) : gmap Z Z :=
  match data with
  | [] => m
  | b :: rest => program_cells (a + 1) rest (<[a := b]> m)
  end.

(** Where [eeprom_write] puts slot [i] of a channel whose pages are [pages]:
    [write_to_eeprom(pages[i], i, value)] starts at [pages[i] * PAGE_SIZE + i]. *)
Definition write_address (pages : list Z) (i : Z) : option Z :=
  match pages !! Z.to_nat i with
  | Some page => Some (page * PAGE_SIZE + i)
  | None => None
  end.

(** Where [read_last_value(name, offset=i)] reads for a channel whose first
    page is [page0]. *)
Definition read_address (page0 : Z) (i : Z) : Z := page0 * PAGE_SIZE + i * 4.

(** States that a run of [update_cache] calls reaches from an empty cache. *)
Inductive put_reachable (P : platform) : state -> Prop :=
| put_reachable_empty (s : state) :
    cache s = [] -> put_reachable P s
| put_reachable_put (s : state) (addr : Z) (val : pyval) :
    put_reachable P s -> put_reachable P (snd (update_cache P addr val s)).

(** The lock that guards a structure. *)
Definition lock_of (r : resource) : lock :=
  match r with
  | Cache => cache_lock
  | Store => eeprom_lock
  end.

(** [disciplined held t]: every access of [t] happens while the flow holds
    the lock of the structure it touches; [held] are the locks held at the
    start. *)
Fixpoint disciplined (held : list lock) (t : list event) : bool :=
  match t with
  | [] => true
  | Acquire l :: r => disciplined (l :: held) r
  | Release l :: r => disciplined (filter (fun l' => l' ≠ l) held) r
  | Touch x :: r => bool_decide (lock_of x ∈ held) && disciplined held r
  end.

(** A scripted run: foreground requests and background refreshes, one after
    the other.  A request that raises ends with its exception and the script
    goes on. *)
Inductive op : Type :=
| Request (addr : Z)
| Refresh (addr : Z).

Abbreviation outcome := (exn + pyval * string * Z)%type.

Fixpoint run_script (P : platform) (ops : list op) (s : state) : list outcome * state :=
  match ops with
  | [] => ([], s)
  | Request addr :: rest =>
      let '(o, s1) := request_data P addr s in
      let '(os, s2) := run_script P rest s1 in
      (o :: os, s2)
  | Refresh addr :: rest =>
      run_script P rest (snd (sensor_loop_step P addr s))
  end.

(** Whether a request returned from the given tier. *)
Definition served_by (level : string) (o : outcome) : bool :=
  match o with
  | inr (_, l, _) => String.eqb l level
  | inl _ => false
  end.

Definition hits (level : string) (os : list outcome) : Z :=
  Z.of_nat (length (filter (fun o => served_by level o = true) os)).

(** What the store and the counters of a state are. *)
Definition store_of (s : state) : gmap Z Z * gmap Z ttl_record * gmap Z Z :=
  (write_pointers s, eeprom_ttl s, cells s).

Definition counters_of (s : state) : Z * Z * Z :=
  (total_access s, cache_hits s, eeprom_hits s).

(** Everything of a state but the cells of the EEPROM, its address counter
    and the log. *)
Definition besides_cells (s : state)
  : list (Z * cache_entry) * gmap Z Z * gmap Z ttl_record * (Z * Z * Z) * nat :=
  (cache s, write_pointers s, eeprom_ttl s, counters_of s, io s).

(** The cache, the store and the counters. *)
Definition data_of (s : state) :=
  (cache s, store_of s, counters_of s).

(** Whether a ShadowRecord of the channel exists and is older than [TTL_MS]
    at the time [now]: the condition of the loop of [eeprom_write]. *)
Definition shadow_expired (P : platform) (addr : Z) (now : Z) (s : state) : bool :=
  match eeprom_ttl s !! addr with
  | Some r => TTL_MS <? ticks_diff P now (timestamp r)
  | None => false
  end.

(** [m] leaves the observation [f] of the state as it was, however it ends. *)
Definition preserves {A B} (f : state -> A) (m : M B) : Prop :=
  forall s, f (snd (m s)) = f s.

(** The cache once [update_cache] has made room. *)
Definition make_room (c : list (Z * cache_entry)) : list (Z * cache_entry) :=
  match c with
  | [] => c
  | x :: r =>
      if CACHE_SIZE <=? Z.of_nat (length c)
      then dict_del (fst (py_min_from (fun x => last_used (snd x)) x r)) c
      else c
  end.

(** What one request does to the counters, read off its outcome. *)
Definition counted (s : state) (o : outcome) (s' : state) : Prop :=
  total_access s' = total_access s + 1 /\
  cache_hits s' = cache_hits s + Z.b2z (served_by "Cache" o) /\
  (o <> inl KeyError ->
   eeprom_hits s' = eeprom_hits s + Z.b2z (served_by "EEPROM" o)).

(** ** Concrete situations *)

(** The platform of the examples: 10 ms per hardware interaction, a sensor
    at 25 degrees. *)
Definition lab : platform := bench (steady 10) warm.

(** The same with a sensor at 0 degrees. *)
Definition cold : platform := bench (steady 10) freezing.

(** The state the first request for the temperature leaves. *)
Definition after_first_request : state :=
  snd (request_data lab ADDR_TEMP (boot ∅)).


(** An EEPROM that still holds the float 1.0 at the address 12, and one that
    holds it at the address 4. *)
Definition used_eeprom : gmap Z Z :=
  <[12 := 0]> (<[13 := 0]> (<[14 := 0x80]> (<[15 := 0x3F]> ∅))).

Definition used_eeprom' : gmap Z Z :=
  <[4 := 0]> (<[5 := 0]> (<[6 := 0x80]> (<[7 := 0x3F]> ∅))).

(** A clock that reads 0 and 10 ms and then jumps to 5 s, and the platform
    with that clock. *)
Definition jump (n : nat) : Z := if (n <? 2)%nat then 10 * Z.of_nat n else 5000.

Definition later : platform := bench jump warm.

(** The state after [eeprom_write] has stored [v1] and then [v2] for the gas
    channel MQ2, 10 ms apart, over an EEPROM that holds [m]. *)
Definition two_writes (m : gmap Z Z) (v1 v2 : float) : state :=
  snd (eeprom_write later ADDR_MQ2 (Some v2)
         (snd (eeprom_write later ADDR_MQ2 (Some v1) (boot m)))).

(** A script: two requests for the temperature around a refresh of MQ2, then
    a request for MQ2. *)
Definition demo_script : list op :=
  [Request ADDR_TEMP; Refresh ADDR_MQ2; Request ADDR_TEMP; Request ADDR_MQ2].

(** A platform whose clock advances a second per hardware interaction. *)
Definition slow : platform := bench (steady 1000) warm.

(** A full cache: the gas channel MQ2 last used at 1 ms, the temperature
    channel last used at 2 ms. *)
Definition full_cache : state :=
  set_cache [(ADDR_MQ2, CacheEntry (Some (of_int 1)) 1);
             (ADDR_TEMP, CacheEntry (Some (of_int 2)) 2)] (boot ∅).

(** ** Further notions *)

(** What [read_last_value] makes of the four bytes it gets. *)
Definition decode_slot (raw : list Z) : pyval :=
  if bool_decide (raw ≠ [255; 255; 255; 255]) && bool_decide (raw ≠ [0; 0; 0; 0])
  then Some (struct_unpack_f raw) else None.

(** Two bytes as a signed 16-bit little-endian number. *)
Definition int16_le (b0 b1 : Z) : Z :=
  let u := b1 * 256 + b0 in
  if u <? 2 ^ 15 then u else u - 2 ^ 16.

(** The temperature a scratchpad holds: its first two bytes count sixteenths
    of a degree. *)
Definition celsius (buf : list Z) : float :=
  div (of_int (int16_le (nth 0 buf 0) (nth 1 buf 0))) (of_int 16).

(** The first two elements of a buffer are bytes. *)
Definition two_bytes (buf : list Z) : Prop :=
  0 <= nth 0 buf 0 < 256 /\ 0 <= nth 1 buf 0 < 256.

(** A float that is not above zero, read off its representation. *)
Definition not_positive (x : float) : bool :=
  match x with
  | S754_zero _ | S754_nan => true
  | S754_infinity sx | S754_finite sx _ _ => sx
  end.

(** A sensor that is at 25 degrees when first read and at -1 degree from
    then on, and the platform with that sensor. *)
Definition cooling (n : nat) : list Z :=
  if (n <? 1)%nat then [0x90; 0x01; 0; 0; 0; 0; 0; 0; 0]
  else [0xF0; 0xFF; 0; 0; 0; 0; 0; 0; 0].

Definition frost : platform := bench (steady 10) cooling.

(** [m] keeps the property [I] of the state, however it ends. *)
Definition keeps {B} (I : state -> Prop) (m : M B) : Prop :=
  forall s, I s -> I (snd (m s)).

(** [cache] holds no more than [CACHE_SIZE] entries. *)
Definition within_capacity (s : state) : Prop :=
  Z.of_nat (length (cache s)) <= CACHE_SIZE.

(** The write pointer of every configured channel is a slot index. *)
Definition pointers_in_range (s : state) : Prop :=
  forall addr, is_Some (EEPROM_SLOTS !! addr) ->
    exists p, write_pointers s !! addr = Some p /\ 0 <= p < 4.

(** The hit counters are not negative and do not exceed the number of
    requests. *)
Definition counters_consistent (s : state) : Prop :=
  0 <= cache_hits s /\ 0 <= eeprom_hits s /\
  cache_hits s + eeprom_hits s <= total_access s.

(** No entry of [cache] holds [None]. *)
Definition holds_values (s : state) : Prop :=
  forall k e, dict_get k (cache s) = Some e -> value e <> None.

(** A request that returned [None] as its value. *)
Definition returned_none (o : outcome) : bool :=
  match o with
  | inr (None, _, _) => true
  | _ => false
  end.

(** [m] appends to the log, however it ends, and every event it appends
    satisfies [ok]. *)
Definition appends {B} (ok : event -> Prop) (m : M B) : Prop :=
  forall s, exists t, trace (snd (m s)) = trace s ++ t /\ Forall ok t.

(** *** [save_data] of [lib/EEPROM.py]

    [save_data] reads and assigns six globals of its module, the page and
    the offset at which the next value of each sensor type goes.  They are
    passed in and returned. *)

Record cursors : Type := Cursors {
  mq2_page : Z; mq2_offset : Z;
  mq7_page : Z; mq7_offset : Z;
  therm_page : Z; therm_offset : Z
}.

(** The globals as the module sets them when it is imported. *)
Definition initial_cursors : cursors := Cursors 0 0 42 0 84 0.

Definition save_data (P : platform) (value : pyval) (sensor_type : string)
    (c : cursors) : M cursors :=
  if String.eqb sensor_type "MQ2" then
    r <- write_to_eeprom P (mq2_page c) (mq2_offset c) value ;;
    ret (Cursors (fst r) (snd r) (mq7_page c) (mq7_offset c)
                 (therm_page c) (therm_offset c))
  else if String.eqb sensor_type "MQ7" then
    r <- write_to_eeprom P (mq7_page c) (mq7_offset c) value ;;
    ret (Cursors (mq2_page c) (mq2_offset c) (fst r) (snd r)
                 (therm_page c) (therm_offset c))
  else if String.eqb sensor_type "ds18x20" then
    r <- write_to_eeprom P (therm_page c) (therm_offset c) value ;;
    ret (Cursors (mq2_page c) (mq2_offset c) (mq7_page c) (mq7_offset c)
                 (fst r) (snd r))
  else ret c.

(** [save_data] called once for each value of a list, in order. *)
Fixpoint save_all (P : platform) (values : list float) (sensor_type : string)
    (c : cursors) : M cursors :=
  match values with
  | [] => ret c
  | v :: rest =>
      c' <- save_data P (Some v) sensor_type c ;;
      save_all P rest sensor_type c'
  end.

(** The page and the offset that [save_data] uses for a sensor type. *)
Definition cursor_of (sensor_type : string) (c : cursors) : Z * Z :=
  if String.eqb sensor_type "MQ2" then (mq2_page c, mq2_offset c)
  else if String.eqb sensor_type "MQ7" then (mq7_page c, mq7_offset c)
  else if String.eqb sensor_type "ds18x20" then (therm_page c, therm_offset c)
  else (0, 0).

(** The address a cursor stands for. *)
Definition cursor_address (pc : Z * Z) : Z := fst pc * PAGE_SIZE + snd pc.

(** A cursor as [write_to_eeprom] leaves it: the offset is a multiple of 4
    within the page. *)
Definition aligned (pc : Z * Z) : Prop :=
  0 <= fst pc /\ 0 <= snd pc < PAGE_SIZE /\ snd pc mod 4 = 0.

(** The names by which [save_data] and [read_last_value] know a sensor, and
    the first page of its region. *)
Definition sensor_region (sensor_type name : string) (page0 : Z) : Prop :=
  sensor_type = "MQ2"%string /\ name = "MQII"%string /\ page0 = 0 \/
  sensor_type = "MQ7"%string /\ name = "MQIV"%string /\ page0 = 42 \/
  sensor_type = "ds18x20"%string /\ name = "TEMP"%string /\ page0 = 84.

(** The first of [len] write transfers to the cells from address [a] on that
    raises, made while the counter of hardware answers is [n]: the number of
    bytes programmed before [OSError] comes, if it comes. *)
Definition first_failure (P : platform) (n : nat) (a : Z) (len : nat) : option nat :=
  List.find (fun j => i2c_write_fails_at P n (a + Z.of_nat j)) (seq 0 len).

(** The bytes of [data] that [eeprom_write_bytes] programs from address [a]
    on: all of them, or those before the transfer that raises. *)
Definition programmed (P : platform) (n : nat) (a : Z) (data : list Z) : list Z :=
  match first_failure P n a (length data) with
  | Some k => take k data
  | None => data
  end.

(** No write transfer raises while the counter of hardware answers is [n]. *)
Definition writes_succeed_at (P : platform) (n : nat) : Prop :=
  forall a, i2c_write_fails_at P n a = false.

(** No write transfer ever raises. *)
Definition writes_succeed (P : platform) : Prop :=
  forall n, writes_succeed_at P n.

(** The cursor [write_to_eeprom] returns. *)
Definition next_cursor (page offset : Z) : Z * Z :=
  if PAGE_SIZE <=? offset + 4 then (page + 1, 0) else (page, offset + 4).

(** The platform [clean_air] with an EEPROM whose cell 2 cannot be programmed:
    the write transfer to it raises. *)
Definition worn : platform :=
  {| ticks_ms_at := steady 10;
     ticks_diff := mp_ticks_diff;
     ds_roms := [0x28];
     scratchpad_at := warm;
     mq2_u16_at := fun _ => 5;
     mq7_u16_at := fun _ => 5;
     i2c_read_fails_at := fun _ => false;
     i2c_write_fails_at := fun _ a => a =? 2;
     math_pow := fun x _ => inr x;
     py_round := fun _ _ => zero |}.

(** The cells after the values of a list are programmed one after the other
    from address [a] on, four bytes each. *)
Fixpoint program_values (a : Z) (values : list float) (m : gmap Z Z) : gmap Z Z :=
  match values with
  | [] => m
  | v :: rest =>
      program_values (a + 4) rest (program_cells a (le_bytes (bits_of_b32 v)) m)
  end.

(** A platform whose clock strictly increases from one hardware interaction
    to the next. *)
Definition clock_increases (P : platform) : Prop :=
  forall n m : nat, (n < m)%nat -> ticks_ms_at P n < ticks_ms_at P m.

(** A platform on which every sensor of [ADDR_LIST] gives a value whenever
    it is read. *)
Definition sensors_readable (P : platform) : Prop :=
  forall addr s, addr ∈ ADDR_LIST ->
    exists x s1, read_sensor P addr s = (inr (Some x), s1).

(** Every entry of the cache was last used before the time [now]. *)
Definition used_before (now : Z) (c : list (Z * cache_entry)) : Prop :=
  Forall (fun kv => last_used (snd kv) < now) c.

(** * Theorems *)

(** ** Floats *)

Example of_int_one : of_int 1 = S754_finite false 8388608 (-23).
Proof. reflexivity. Qed.

Example bits_one : bits_of_b32 (of_int 1) = 0x3F800000.
Proof. reflexivity. Qed.

Example bits_roundtrip_sample :
  struct_unpack_f (le_bytes (bits_of_b32 (decimal 2575 2))) = decimal 2575 2.
Proof. vm_compute. reflexivity. Qed.

Lemma pack_zero : struct_pack_f (Some zero) = inr [0; 0; 0; 0].
Proof. reflexivity. Qed.

(** ** Dictionaries *)

Section DictFacts.
Context {V : Type}.
Implicit Types (d : list (Z * V)) (k : Z) (v : V).

Lemma dict_get_set k k' v d :
  dict_get k (dict_set k' v d) = if decide (k = k') then Some v else dict_get k d.
Proof.
  induction d as [|[k0 v0] d IH]; simpl.
  - repeat case_decide; congruence.
  - repeat (case_decide; simpl); try congruence.
Qed.

Lemma dict_get_del k k' d :
  dict_get k (dict_del k' d) = if decide (k = k') then None else dict_get k d.
Proof.
  induction d as [|[k0 v0] d IH]; simpl.
  - by case_decide.
  - repeat (case_decide; simpl); try congruence.
Qed.

Lemma length_dict_set k v d : (length (dict_set k v d) <= S (length d))%nat.
Proof.
  induction d as [|[k0 v0] d IH]; simpl; [lia|].
  case_decide; simpl; lia.
Qed.

Lemma length_dict_del_le k d : (length (dict_del k d) <= length d)%nat.
Proof.
  induction d as [|[k0 v0] d IH]; simpl; [lia|].
  case_decide; simpl; lia.
Qed.

Lemma length_dict_del k d :
  is_Some (dict_get k d) -> (length (dict_del k d) < length d)%nat.
Proof.
  induction d as [|[k0 v0] d IH]; simpl.
  - intros [? ?]; discriminate.
  - case_decide; simpl.
    + intros _. pose proof (length_dict_del_le k d). lia.
    + intros H'. specialize (IH H'). lia.
Qed.

Lemma dict_get_elem k v d : dict_get k d = Some v -> (k, v) ∈ d.
Proof.
  induction d as [|[k0 v0] d IH]; simpl; [discriminate|].
  case_decide.
  - intros [= ->]. subst. apply elem_of_cons. by left.
  - intros. apply elem_of_cons. right. auto.
Qed.

Lemma elem_dict_get k v d : (k, v) ∈ d -> is_Some (dict_get k d).
Proof.
  induction d as [|[k0 v0] d IH]; simpl.
  - intros H. by apply elem_of_nil in H.
  - intros H. case_decide; [eauto|].
    apply elem_of_cons in H as [[= -> ->]|H]; [congruence|auto].
Qed.

Lemma py_min_from_elem (f : Z * V -> Z) best items :
  py_min_from f best items ∈ best :: items.
Proof.
  revert best. induction items as [|x r IH]; intros best; simpl.
  - apply elem_of_cons. by left.
  - specialize (IH (if f x <? f best then x else best)).
    apply elem_of_cons in IH as [IH|IH].
    + rewrite IH. destruct (f x <? f best); set_solver.
    + set_solver.
Qed.

Lemma py_min_from_least (f : Z * V -> Z) best items x :
  x ∈ best :: items -> f (py_min_from f best items) <= f x.
Proof.
  revert best x. induction items as [|y r IH]; intros best x Hx; simpl.
  - apply elem_of_cons in Hx as [->|Hx]; [lia|]. by apply elem_of_nil in Hx.
  - assert (Hb : f (py_min_from f (if f y <? f best then y else best) r)
                 <= f (if f y <? f best then y else best)).
    { apply IH. apply elem_of_cons. by left. }
    apply elem_of_cons in Hx as [->|Hx].
    + destruct (Z.ltb_spec (f y) (f best)); lia.
    + apply elem_of_cons in Hx as [->|Hx].
      * destruct (Z.ltb_spec (f y) (f best)); lia.
      * apply IH. apply elem_of_cons. by right.
Qed.

End DictFacts.

(** ** What a computation leaves alone *)

Section Frame.
Context {A : Type} (f : state -> A).

Lemma preserves_ret {B} (b : B) : preserves f (ret b).
Proof. by intros s. Qed.

Lemma preserves_raise {B} (e : exn) : preserves f (@raise B e).
Proof. by intros s. Qed.

Lemma preserves_lift {B} (r : exn + B) : preserves f (lift r).
Proof. by destruct r; intros s. Qed.

Lemma preserves_get {B} (g : state -> B) : preserves f (get g).
Proof. by intros s. Qed.

Lemma preserves_modify (g : state -> state) :
  (forall s, f (g s) = f s) -> preserves f (modify g).
Proof. intros H s. apply H. Qed.

Lemma preserves_emit (e : event) :
  (forall t s, f (set_trace t s) = f s) -> preserves f (emit e).
Proof. intros H s. apply H. Qed.

Lemma preserves_next_io :
  (forall n s, f (set_io n s) = f s) -> preserves f next_io.
Proof. intros H s. apply H. Qed.

Lemma preserves_bind {B C} (m : M B) (k : B -> M C) :
  preserves f m -> (forall b, preserves f (k b)) -> preserves f (bind m k).
Proof.
  intros Hm Hk s. unfold bind. specialize (Hm s).
  destruct (m s) as [[e|b] s1]; simpl in *; [done|].
  rewrite Hk. done.
Qed.

Lemma preserves_with_lock {B} (l : lock) (body : M B) :
  (forall t s, f (set_trace t s) = f s) ->
  preserves f body -> preserves f (with_lock l body).
Proof.
  intros Ht Hb s. unfold with_lock.
  pose proof (preserves_bind (emit (Acquire l)) (fun _ => body)
                (preserves_emit _ Ht) (fun _ => Hb) s) as H.
  destruct ((emit (Acquire l) ;; body) s) as [r s1]. simpl in *.
  rewrite Ht. done.
Qed.

Lemma preserves_try_except {B} (body handler : M B) :
  preserves f body -> preserves f handler -> preserves f (try_except body handler).
Proof.
  intros Hb Hh s. unfold try_except. specialize (Hb s).
  destruct (body s) as [[e|b] s1]; simpl in *; [|done].
  rewrite Hh. done.
Qed.

End Frame.

Create HintDb frame.

Ltac frame_step :=
  lazymatch goal with
  | |- preserves _ (ret _) => apply preserves_ret
  | |- preserves _ (raise _) => apply preserves_raise
  | |- preserves _ (lift _) => apply preserves_lift
  | |- preserves _ (get _) => apply preserves_get
  | |- preserves _ (emit _) => apply preserves_emit; reflexivity
  | |- preserves _ next_io => apply preserves_next_io; reflexivity
  | |- preserves _ (modify _) => apply preserves_modify; reflexivity
  | |- preserves _ (with_lock _ _) => apply preserves_with_lock; [reflexivity|]
  | |- preserves _ (try_except _ _) => apply preserves_try_except
  | |- preserves _ (bind _ _) => apply preserves_bind; [|intros]
  | |- preserves _ (if ?b then _ else _) => destruct b
  | |- preserves _ (match ?x with _ => _ end) => destruct x
  | |- preserves _ (let x := _ in _) => cbv zeta
  | |- preserves _ _ => solve [auto with frame]
  end.

Ltac frame := repeat frame_step.

Section CacheFrame.
Variable P : platform.

Lemma update_cache_store addr val : preserves store_of (update_cache P addr val).
Proof.
  unfold update_cache, cache_len, cache_items, cache_delitem, cache_get,
    cache_setitem, ticks_ms. frame.
Qed.

Lemma update_cache_counters addr val : preserves counters_of (update_cache P addr val).
Proof.
  unfold update_cache, cache_len, cache_items, cache_delitem, cache_get,
    cache_setitem, ticks_ms. frame.
Qed.

End CacheFrame.

(** ** Running computations *)

Ltac st_simpl :=
  cbn [cache write_pointers eeprom_ttl total_access cache_hits eeprom_hits
       cells cell_pointer io trace
       set_cache set_write_pointers set_eeprom_ttl set_total_access
       set_cache_hits set_eeprom_hits set_cells set_io set_trace
       store_of counters_of besides_cells data_of fst snd] in *.

Ltac run_unfold :=
  unfold bind, ret, raise, lift, get, modify, emit, next_io, with_lock,
    try_except in *.

Lemma bind_ok {A B} (m : M A) (k : A -> M B) s a s1 :
  m s = (inr a, s1) -> bind m k s = k a s1.
Proof. intros H. unfold bind. by rewrite H. Qed.

Lemma bind_err {A B} (m : M A) (k : A -> M B) s e s1 :
  m s = (inl e, s1) -> bind m k s = (inl e, s1).
Proof. intros H. unfold bind. by rewrite H. Qed.

Ltac bind_now := erewrite bind_ok by reflexivity; cbn beta; st_simpl.

Lemma with_lock_run {A} (l : lock) (body : M A) s r s1 :
  body (set_trace (trace s ++ [Acquire l]) s) = (r, s1) ->
  with_lock l body s = (r, set_trace (trace s1 ++ [Release l]) s1).
Proof.
  intros H. unfold with_lock, bind, emit. st_simpl. rewrite H.
  by destruct r.
Qed.

(** [preserves] read on a run whose result is known. *)
Lemma preserved {A B} (f : state -> A) (m : M B) s r s' :
  preserves f m -> m s = (r, s') -> f s' = f s.
Proof. intros H E. specialize (H s). by rewrite E in H. Qed.

Lemma data_of_inv (s s' : state) :
  data_of s' = data_of s ->
  cache s' = cache s /\ store_of s' = store_of s /\ counters_of s' = counters_of s.
Proof. unfold data_of, store_of, counters_of. intros [=]. repeat split; congruence. Qed.

Lemma store_of_inv (s s' : state) :
  store_of s' = store_of s ->
  write_pointers s' = write_pointers s /\ eeprom_ttl s' = eeprom_ttl s /\
  cells s' = cells s.
Proof. unfold store_of. intros [=]. repeat split; congruence. Qed.

Lemma counters_of_inv (s : state) (a b c : Z) :
  counters_of s = (a, b, c) ->
  total_access s = a /\ cache_hits s = b /\ eeprom_hits s = c.
Proof. unfold counters_of. intros [=]. repeat split; congruence. Qed.

Section CacheRun.
Variable P : platform.

Lemma oldest_present (x : Z * cache_entry) r :
  is_Some (dict_get (fst (py_min_from (fun x => last_used (snd x)) x r)) (x :: r)).
Proof.
  pose proof (py_min_from_elem (fun x => last_used (snd x)) x r) as H.
  destruct (py_min_from _ x r) as [k e]. eapply elem_dict_get, H.
Qed.

Lemma update_cache_run addr val s :
  exists s',
    update_cache P addr val s = (inr tt, s') /\
    cache s' = dict_set addr (CacheEntry val (ticks_ms_at P (io s))) (make_room (cache s)) /\
    io s' = S (io s).
Proof.
  unfold update_cache, cache_len, cache_items, cache_delitem, cache_get,
    cache_setitem, ticks_ms, make_room.
  run_unfold. st_simpl.
  destruct (cache s) as [|x r] eqn:Hc.
  - cbn. eexists; split; [reflexivity|]. st_simpl. by rewrite Hc.
  - destruct (CACHE_SIZE <=? Z.of_nat (length (x :: r))) eqn:Hfull.
    + unfold py_min.
      destruct (oldest_present x r) as [e He].
      st_simpl. rewrite Hc. run_unfold. st_simpl. rewrite Hc, He.
      eexists; split; [reflexivity|]. st_simpl. by rewrite Hc.
    + eexists; split; [reflexivity|]. st_simpl. by rewrite Hc.
Qed.

Lemma length_make_room c :
  Z.of_nat (length c) <= CACHE_SIZE ->
  Z.of_nat (length (make_room c)) < CACHE_SIZE.
Proof.
  unfold make_room, CACHE_SIZE. intros Hle.
  destruct c as [|x r]; [simpl; lia|].
  destruct (Z.leb_spec 2 (Z.of_nat (length (x :: r)))); [|lia].
  pose proof (length_dict_del _ _ (oldest_present x r)). lia.
Qed.

End CacheRun.

(** ** The cache *)

(** C5.  From an empty cache, however many times [update_cache] runs and
    whatever it is given, [cache] never holds more than [CACHE_SIZE]
    entries. *)
Theorem cache_capacity (P : platform) (s : state) :
  put_reachable P s -> Z.of_nat (length (cache s)) <= CACHE_SIZE.
Proof.
  induction 1 as [s Hs|s addr val _ IH].
  - rewrite Hs. unfold CACHE_SIZE. simpl. lia.
  - destruct (update_cache_run P addr val s) as (s' & Hrun & Hc & _).
    rewrite Hrun. cbn [snd]. rewrite Hc.
    pose proof (length_dict_set addr (CacheEntry val (ticks_ms_at P (io s)))
                  (make_room (cache s))).
    pose proof (length_make_room _ IH). lia.
Qed.

Lemma cache_capacity_witness :
  put_reachable lab
    (snd (update_cache lab ADDR_MQ7 (Some zero)
       (snd (update_cache lab ADDR_MQ2 (Some zero)
          (snd (update_cache lab ADDR_TEMP (Some zero) (boot ∅))))))) /\
  Z.of_nat (length (cache
    (snd (update_cache lab ADDR_MQ7 (Some zero)
       (snd (update_cache lab ADDR_MQ2 (Some zero)
          (snd (update_cache lab ADDR_TEMP (Some zero) (boot ∅))))))))) <= CACHE_SIZE.
Proof.
  assert (H : put_reachable lab
    (snd (update_cache lab ADDR_MQ7 (Some zero)
       (snd (update_cache lab ADDR_MQ2 (Some zero)
          (snd (update_cache lab ADDR_TEMP (Some zero) (boot ∅)))))))).
  { do 3 apply put_reachable_put. apply put_reachable_empty. reflexivity. }
  split; [exact H|].
  apply (cache_capacity lab _ H).
Defined.

(** C6, as the code has it.  [update_cache] evicts exactly when the cache
    already holds [CACHE_SIZE] entries or more, whether or not the channel is
    among them: the evicted channel is one whose [last_used] is smallest, and
    every channel other than it and the given one keeps its entry.  Below
    [CACHE_SIZE] entries nothing is evicted.  In every case the given channel
    ends with the given value and [last_used] equal to the clock reading. *)
Theorem update_cache_policy (P : platform) (addr : Z) (val : pyval) (s : state) :
  exists s',
    update_cache P addr val s = (inr tt, s') /\
    dict_get addr (cache s') = Some (CacheEntry val (ticks_ms_at P (io s))) /\
    (Z.of_nat (length (cache s)) < CACHE_SIZE ->
     forall k, k <> addr -> dict_get k (cache s') = dict_get k (cache s)) /\
    (CACHE_SIZE <= Z.of_nat (length (cache s)) ->
     exists old e,
       (old, e) ∈ cache s /\
       (forall k e', (k, e') ∈ cache s -> last_used e <= last_used e') /\
       (old <> addr -> dict_get old (cache s') = None) /\
       (forall k, k <> addr -> k <> old ->
                  dict_get k (cache s') = dict_get k (cache s))).
Proof.
  destruct (update_cache_run P addr val s) as (s' & Hrun & Hc & _).
  exists s'. split; [exact Hrun|]. rewrite Hc. clear Hrun Hc.
  split; [|split].
  - rewrite dict_get_set. by case_decide.
  - intros Hlt k Hk. rewrite dict_get_set. case_decide; [done|].
    unfold make_room. destruct (cache s) as [|x r]; [done|].
    destruct (Z.leb_spec CACHE_SIZE (Z.of_nat (length (x :: r)))); [lia|done].
  - intros Hfull. unfold make_room.
    destruct (cache s) as [|x r] eqn:Hcs.
    { unfold CACHE_SIZE in Hfull. simpl in Hfull. lia. }
    destruct (Z.leb_spec CACHE_SIZE (Z.of_nat (length (x :: r)))); [|lia].
    set (key := fun x : Z * cache_entry => last_used (snd x)).
    pose proof (py_min_from_elem key x r) as Hin.
    pose proof (py_min_from_least key x r) as Hleast.
    destruct (py_min_from key x r) as [old e] eqn:Hmin.
    exists old, e. split; [exact Hin|]. split; [|split].
    + intros k e' Hk. apply (Hleast (k, e') Hk).
    + intros Hne. rewrite dict_get_set. case_decide; [done|].
      cbn [fst]. rewrite dict_get_del. by case_decide.
    + intros k Hk Hk'. rewrite dict_get_set. case_decide; [done|].
      cbn [fst]. rewrite dict_get_del. by case_decide.
Qed.

(** C6 as stated fails: with the cache full, a put for the temperature
    channel, which is present, removes the entry of the gas channel MQ2. *)
Lemma update_cache_present_evicts :
  dict_get ADDR_TEMP (cache full_cache) = Some (CacheEntry (Some (of_int 2)) 2) /\
  dict_get ADDR_MQ2 (cache full_cache) = Some (CacheEntry (Some (of_int 1)) 1) /\
  Z.of_nat (length (cache full_cache)) = CACHE_SIZE /\
  dict_get ADDR_MQ2
    (cache (snd (update_cache lab ADDR_TEMP (Some (of_int 3)) full_cache))) = None.
Proof. vm_compute. repeat split. Qed.

(** ** The EEPROM *)

Lemma address_bytes (a : Z) :
  0 <= a < 65536 ->
  Z.land (Z.shiftr a 8) 0xFF * 256 + Z.land a 0xFF = a.
Proof.
  intros Ha.
  change 0xFF with (Z.ones 8).
  rewrite !Z.land_ones, Z.shiftr_div_pow2 by lia.
  change (2 ^ 8) with 256.
  rewrite (Z.mod_small (a / 256) 256).
  - pose proof (Z.div_mod a 256). lia.
  - split; [apply Z.div_pos; lia|]. apply Z.div_lt_upper_bound; lia.
Qed.

Lemma first_failure_S (P : platform) (n : nat) (a : Z) (len : nat) :
  first_failure P n a (S len)
  = if i2c_write_fails_at P n a then Some 0%nat
    else option_map S (first_failure P n (a + 1) len).
Proof.
  unfold first_failure. cbn [seq List.find]. rewrite Z.add_0_r.
  destruct (i2c_write_fails_at P n a); [done|].
  rewrite <- seq_shift.
  generalize (seq 0 len). intros l. induction l as [|j l IH]; [done|].
  cbn [map List.find]. replace (a + Z.of_nat (S j)) with (a + 1 + Z.of_nat j) by lia.
  destruct (i2c_write_fails_at P n (a + 1 + Z.of_nat j)); [done|]. exact IH.
Qed.

Lemma first_failure_None (P : platform) (n : nat) (a : Z) (len : nat) :
  writes_succeed_at P n -> first_failure P n a len = None.
Proof.
  intros Hok. unfold first_failure.
  induction (seq 0 len) as [|j l IH]; [done|].
  cbn [List.find]. by rewrite Hok.
Qed.

Lemma first_failure_lt (P : platform) (n : nat) (a : Z) (len k : nat) :
  first_failure P n a len = Some k ->
  (k < len)%nat /\ i2c_write_fails_at P n (a + Z.of_nat k) = true.
Proof.
  unfold first_failure. intros Hfind. apply find_some in Hfind as [Hin Hk].
  apply in_seq in Hin. split; [lia|done].
Qed.

Section EepromRun.
Variable P : platform.

Lemma eeprom_write_bytes_from_frame addr i data :
  preserves besides_cells (eeprom_write_bytes_from P addr i data).
Proof.
  revert i. induction data as [|b rest IH]; intros i; simpl.
  - frame.
  - unfold i2c_writeto, sleep_ms. frame.
Qed.

#[local] Hint Resolve eeprom_write_bytes_from_frame : frame.

Lemma write_to_eeprom_frame page i val :
  preserves besides_cells (write_to_eeprom P page i val).
Proof. unfold write_to_eeprom, eeprom_write_bytes. frame. Qed.

(** What [eeprom_write_bytes] does, with the transfers that raise. *)
Lemma eeprom_write_bytes_from_outcome addr i data s :
  0 <= addr + i -> addr + i + Z.of_nat (length data) <= 65536 ->
  exists s',
    eeprom_write_bytes_from P addr i data s
      = (match first_failure P (io s) (addr + i) (length data) with
         | Some _ => inl OSError
         | None => inr tt
         end, s') /\
    cells s' = program_cells (addr + i) (programmed P (io s) (addr + i) data) (cells s).
Proof.
  revert i s. induction data as [|b rest IH]; intros i s Hlo Hhi.
  - exists s. done.
  - cbn [eeprom_write_bytes_from]. cbn [length] in Hhi.
    unfold programmed. cbn [length]. rewrite first_failure_S.
    unfold i2c_writeto at 1, sleep_ms. run_unfold.
    rewrite decide_True by done. st_simpl.
    rewrite address_bytes by lia.
    destruct (i2c_write_fails_at P (io s) (addr + i)).
    + eexists. split; [reflexivity|]. done.
    + st_simpl.
      destruct (IH (i + 1)
                  (set_cells (<[addr + i := b]> (cells s)) (addr + i + 1)
                     (set_trace (trace s ++ [Touch Store]) s)))
        as (s' & Hrun & Hcells); [lia..|].
      st_simpl. unfold programmed in Hcells.
      rewrite (Z.add_assoc addr i 1) in Hrun, Hcells.
      exists s'. split.
      * rewrite Hrun.
        by destruct (first_failure P (io s) (addr + i + 1) (length rest)).
      * rewrite Hcells.
        by destruct (first_failure P (io s) (addr + i + 1) (length rest)).
Qed.

Lemma write_to_eeprom_outcome page i x s :
  0 <= page * PAGE_SIZE + i -> page * PAGE_SIZE + i + 4 <= 65536 ->
  exists s',
    write_to_eeprom P page i (Some x) s
      = (match first_failure P (io s) (page * PAGE_SIZE + i) 4 with
         | Some _ => inl OSError
         | None => inr (next_cursor page i)
         end, s') /\
    cells s' = program_cells (page * PAGE_SIZE + i)
                 (programmed P (io s) (page * PAGE_SIZE + i) (le_bytes (bits_of_b32 x)))
                 (cells s).
Proof.
  intros Hlo Hhi. unfold write_to_eeprom, eeprom_write_bytes.
  destruct (eeprom_write_bytes_from_outcome (page * PAGE_SIZE + i) 0
              (le_bytes (bits_of_b32 x)) s) as (s' & Hrun & Hcells).
  { lia. } { cbn [length le_bytes]. lia. }
  rewrite Z.add_0_r in Hrun, Hcells. cbn [length le_bytes] in Hrun.
  exists s'. split; [|exact Hcells].
  cbn [struct_pack_f lift]. rewrite (bind_ok _ _ s _ s) by done.
  destruct (first_failure P (io s) (page * PAGE_SIZE + i) 4).
  - by rewrite (bind_err _ _ _ _ _ Hrun).
  - rewrite (bind_ok _ _ _ _ _ Hrun). unfold next_cursor.
    by destruct (PAGE_SIZE <=? i + 4).
Qed.

Lemma write_to_eeprom_None page i s :
  write_to_eeprom P page i None s = (inl TypeError, s).
Proof. reflexivity. Qed.

End EepromRun.

Lemma EEPROM_SLOTS_pages addr pages :
  EEPROM_SLOTS !! addr = Some pages ->
  length pages = 4%nat /\ Forall (fun p => 0 <= p < 128) pages.
Proof.
  unfold EEPROM_SLOTS. rewrite !lookup_insert, lookup_empty.
  repeat case_decide; intros [= <-]; (split; [done|repeat constructor; lia]).
Qed.

Lemma NAME_MAP_SLOTS addr :
  is_Some (NAME_MAP !! addr) <-> is_Some (EEPROM_SLOTS !! addr).
Proof.
  unfold NAME_MAP, EEPROM_SLOTS. rewrite !lookup_insert, !lookup_empty.
  repeat case_decide; split; intros [? ?]; eauto; discriminate.
Qed.

Section StoreRun.
Variable P : platform.

Lemma eeprom_write_scan_fresh addr val now slots s :
  shadow_expired P addr now s = false ->
  exists s',
    eeprom_write_scan P addr val now slots s = (inr false, s') /\
    besides_cells s' = besides_cells s /\ cells s' = cells s.
Proof.
  revert s. induction slots as [|[i page] rest IH]; intros s Hfresh.
  - exists s. done.
  - cbn [eeprom_write_scan].
    unfold eeprom_ttl_contains, eeprom_ttl_getitem. run_unfold. st_simpl.
    unfold shadow_expired in Hfresh.
    destruct (eeprom_ttl s !! addr) as [r|] eqn:Hr; st_simpl.
    + rewrite Hr, Hfresh.
      edestruct IH as (s' & Hrun & Hb & Hc); [|exists s'; split; [exact Hrun|]].
      * unfold shadow_expired. st_simpl. by rewrite Hr.
      * done.
    + edestruct IH as (s' & Hrun & Hb & Hc); [|exists s'; split; [exact Hrun|]].
      * unfold shadow_expired. st_simpl. by rewrite Hr.
      * done.
Qed.

Lemma eeprom_write_scan_expired addr val now i page rest s :
  shadow_expired P addr now s = true ->
  eeprom_write_scan P addr val now ((i, page) :: rest) s =
  (write_to_eeprom P page i val ;;
   write_pointers_setitem addr ((i + 1) mod 4) ;;
   ret true)
    (set_trace ((trace s ++ [Touch Store]) ++ [Touch Store]) s).
Proof.
  intros Hexp. cbn [eeprom_write_scan].
  unfold eeprom_ttl_contains, eeprom_ttl_getitem, shadow_expired in *.
  run_unfold. st_simpl.
  destruct (eeprom_ttl s !! addr) as [r|] eqn:Hr; [|discriminate].
  st_simpl. by rewrite Hr, Hexp.
Qed.

Lemma write_to_eeprom_front page i val :
  preserves (fun s => (cache s, counters_of s)) (write_to_eeprom P page i val).
Proof.
  intros s. pose proof (write_to_eeprom_frame P page i val s) as Hw.
  unfold besides_cells in Hw. cbn beta. congruence.
Qed.

Lemma eeprom_write_scan_front addr val now slots :
  preserves (fun s => (cache s, counters_of s))
    (eeprom_write_scan P addr val now slots).
Proof.
  pose proof write_to_eeprom_front.
  induction slots as [|[i page] rest IH]; cbn [eeprom_write_scan].
  - frame.
  - unfold eeprom_ttl_contains, eeprom_ttl_getitem, write_pointers_setitem.
    frame.
Qed.

Lemma eeprom_write_frame addr val :
  preserves (fun s => (cache s, counters_of s)) (eeprom_write P addr val).
Proof.
  pose proof write_to_eeprom_front. pose proof eeprom_write_scan_front.
  unfold eeprom_write, ticks_ms, const_getitem, write_pointers_getitem,
    write_pointers_setitem, eeprom_ttl_setitem.
  frame.
Qed.

End StoreRun.
Lemma write_pointers_getitem_run addr p s :
  write_pointers s !! addr = Some p ->
  write_pointers_getitem addr s = (inr p, set_trace (trace s ++ [Touch Store]) s).
Proof.
  intros H. unfold write_pointers_getitem. run_unfold. st_simpl. by rewrite H.
Qed.

Lemma const_getitem_run {A} (d : gmap Z A) k x s :
  d !! k = Some x -> const_getitem d k s = (inr x, s).
Proof. intros H. unfold const_getitem. by rewrite H. Qed.

Section StorePolicy.
Variable P : platform.

Lemma py_list_index_pages (pages : list Z) (ptr : Z) :
  length pages = 4%nat -> 0 <= ptr < 4 ->
  exists page, pages !! Z.to_nat ptr = Some page /\ py_list_index pages ptr = inr page.
Proof.
  intros Hlen Hptr. unfold py_list_index. rewrite Hlen.
  destruct (Z.ltb_spec ptr 0); [lia|].
  destruct (Z.leb_spec 0 ptr); [|lia].
  destruct (Z.ltb_spec ptr (Z.of_nat 4)); [|lia]. cbn [andb].
  destruct (pages !! Z.to_nat ptr) as [page|] eqn:Hp; [eauto|].
  apply lookup_ge_None in Hp. lia.
Qed.

(** What [eeprom_write] does with a number, with the transfers that raise:
    the slot it writes, the bytes it programs, and what becomes of the write
    pointer and the ShadowRecord. *)
Lemma eeprom_write_outcome (addr : Z) (x : float) (s : state) (pages : list Z) :
  EEPROM_SLOTS !! addr = Some pages ->
  (shadow_expired P addr (ticks_ms_at P (io s)) s = false ->
   exists p, write_pointers s !! addr = Some p /\ 0 <= p < 4) ->
  exists s' slot a,
    (if shadow_expired P addr (ticks_ms_at P (io s)) s
     then slot = 0
     else write_pointers s !! addr = Some slot) /\
    write_address pages slot = Some a /\
    cells s' = program_cells a
                 (programmed P (S (io s)) a (le_bytes (bits_of_b32 x))) (cells s) /\
    match first_failure P (S (io s)) a 4 with
    | None =>
        eeprom_write P addr (Some x) s = (inr tt, s') /\
        write_pointers s' =
          <[addr := if shadow_expired P addr (ticks_ms_at P (io s)) s
                    then 1 else (slot + 1) mod 4]> (write_pointers s) /\
        eeprom_ttl s' =
          <[addr := TtlRecord (ticks_ms_at P (io s)) (Some x)]> (eeprom_ttl s)
    | Some _ =>
        eeprom_write P addr (Some x) s = (inl OSError, s') /\
        write_pointers s' = write_pointers s /\
        eeprom_ttl s' = eeprom_ttl s
    end.
Proof.
  intros Hslots Hfifo.
  destruct (EEPROM_SLOTS_pages _ _ Hslots) as [Hlen Hpages].
  set (now := ticks_ms_at P (io s)) in *.
  set (s1 := set_io (S (io s)) (set_trace (trace s ++ [Acquire eeprom_lock]) s)).
  assert (Hexp1 : shadow_expired P addr now s1 = shadow_expired P addr now s) by done.
  destruct (shadow_expired P addr now s) eqn:Hexp.
  - (* the shadow is stale *)
    destruct pages as [|p0 rest]; [discriminate|].
    apply Forall_cons in Hpages as [Hp0 _].
    destruct (write_to_eeprom_outcome P p0 0 x
                (set_trace ((trace s1 ++ [Touch Store]) ++ [Touch Store]) s1))
      as (s2 & Hw & Hcells); [unfold PAGE_SIZE; lia..|].
    pose proof (preserved _ _ _ _ _ (write_to_eeprom_frame P p0 0 (Some x)) Hw) as Hb.
    assert (Hscan : forall r s3,
              (write_to_eeprom P p0 0 (Some x) ;;
               write_pointers_setitem addr ((0 + 1) mod 4) ;;
               ret true)
                (set_trace ((trace s1 ++ [Touch Store]) ++ [Touch Store]) s1) = (r, s3) ->
              eeprom_write_scan P addr (Some x) now (enumerate_from 0 (p0 :: rest)) s1
              = (r, s3)).
    { intros r s3 Hrun. cbn [enumerate_from].
      by rewrite eeprom_write_scan_expired by done. }
    unfold besides_cells in Hb. subst s1. st_simpl.
    assert (Hwp : write_pointers s2 = write_pointers s) by congruence.
    assert (Httl : eeprom_ttl s2 = eeprom_ttl s) by congruence.
    destruct (first_failure P (S (io s)) (p0 * PAGE_SIZE + 0) 4) eqn:Hff.
    + eexists _, 0, (p0 * PAGE_SIZE + 0). split; [done|]. split; [done|].
      rewrite Hff. split; [|split; [|split]].
      2:{ unfold eeprom_write. erewrite with_lock_run; [reflexivity|].
          bind_now. fold now.
          unfold const_getitem at 1. rewrite Hslots. bind_now.
          erewrite (bind_err (eeprom_write_scan _ _ _ _ _)); cycle 1.
          { apply Hscan. rewrite (bind_err _ _ _ _ _ Hw). reflexivity. }
          reflexivity. }
      * st_simpl. exact Hcells.
      * st_simpl. exact Hwp.
      * st_simpl. exact Httl.
    + eexists _, 0, (p0 * PAGE_SIZE + 0). split; [done|]. split; [done|].
      rewrite Hff. split; [|split; [|split]].
      2:{ unfold eeprom_write. erewrite with_lock_run; [reflexivity|].
          bind_now. fold now.
          unfold const_getitem at 1. rewrite Hslots. bind_now.
          erewrite (bind_ok (eeprom_write_scan _ _ _ _ _)); cycle 1.
          { apply Hscan. rewrite (bind_ok _ _ _ _ _ Hw). bind_now. reflexivity. }
          bind_now. reflexivity. }
      * st_simpl. exact Hcells.
      * st_simpl. by rewrite Hwp.
      * st_simpl. by rewrite Httl.
  - destruct (Hfifo eq_refl) as (ptr & Hptr & Hrange).
    destruct (py_list_index_pages pages ptr Hlen Hrange) as (page & Hpage & Hidx).
    assert (Hp : 0 <= page < 128).
    { eapply Forall_lookup_1 in Hpages; [|exact Hpage]. done. }
    destruct (eeprom_write_scan_fresh P addr (Some x) now (enumerate_from 0 pages) s1)
      as (s2 & Hscan & Hb2 & Hc2); [done|].
    set (s3 := set_trace (trace s2 ++ [Touch Store]) s2).
    destruct (write_to_eeprom_outcome P page ptr x s3)
      as (s4 & Hw & Hcells); [unfold PAGE_SIZE; lia..|].
    pose proof (preserved _ _ _ _ _ (write_to_eeprom_frame P page ptr (Some x)) Hw) as Hb.
    unfold besides_cells in Hb, Hb2. subst s3 s1. st_simpl.
    assert (Hio : io s2 = S (io s)) by congruence.
    assert (Hwp2 : write_pointers s2 = write_pointers s) by congruence.
    assert (Httl2 : eeprom_ttl s2 = eeprom_ttl s) by congruence.
    assert (Hwp : write_pointers s4 = write_pointers s) by congruence.
    assert (Httl : eeprom_ttl s4 = eeprom_ttl s) by congruence.
    rewrite Hio, Hc2 in Hcells. rewrite Hio in Hw.
    assert (Hstep : forall r s5,
              (write_to_eeprom P page ptr (Some x) ;;
               write_pointers_setitem addr ((ptr + 1) mod 4))
                (set_trace (trace s2 ++ [Touch Store]) s2) = (r, s5) ->
              (ptr0 <- write_pointers_getitem addr ;;
               slots' <- const_getitem EEPROM_SLOTS addr ;;
               page0 <- lift (py_list_index slots' ptr0) ;;
               write_to_eeprom P page0 ptr0 (Some x) ;;
               write_pointers_setitem addr ((ptr0 + 1) mod 4)) s2 = (r, s5)).
    { intros r s5 Hrun.
      erewrite bind_ok
        by (apply write_pointers_getitem_run; rewrite Hwp2; exact Hptr).
      erewrite bind_ok by (apply const_getitem_run; exact Hslots).
      cbn beta. rewrite Hidx. bind_now. exact Hrun. }
    destruct (first_failure P (S (io s)) (page * PAGE_SIZE + ptr) 4) eqn:Hff.
    + eexists _, ptr, (page * PAGE_SIZE + ptr). split; [done|].
      split; [by unfold write_address; rewrite Hpage|].
      rewrite Hff. split; [|split; [|split]].
      2:{ unfold eeprom_write. erewrite with_lock_run; [reflexivity|].
          bind_now. fold now.
          erewrite bind_ok by (apply const_getitem_run; exact Hslots).
          rewrite (bind_ok _ _ _ _ _ Hscan). cbn beta iota.
          erewrite (bind_err (bind _ _)); cycle 1.
          { apply Hstep. rewrite (bind_err _ _ _ _ _ Hw). reflexivity. }
          reflexivity. }
      * st_simpl. exact Hcells.
      * st_simpl. exact Hwp.
      * st_simpl. exact Httl.
    + eexists _, ptr, (page * PAGE_SIZE + ptr). split; [done|].
      split; [by unfold write_address; rewrite Hpage|].
      rewrite Hff. split; [|split; [|split]].
      2:{ unfold eeprom_write. erewrite with_lock_run; [reflexivity|].
          bind_now. fold now.
          erewrite bind_ok by (apply const_getitem_run; exact Hslots).
          rewrite (bind_ok _ _ _ _ _ Hscan). cbn beta iota.
          erewrite (bind_ok (bind _ _)); cycle 1.
          { apply Hstep. rewrite (bind_ok _ _ _ _ _ Hw). reflexivity. }
          reflexivity. }
      * st_simpl. exact Hcells.
      * st_simpl. by rewrite Hwp.
      * st_simpl. by rewrite Httl.
Qed.

(** When no transfer raises, and when [eeprom_write] returned. *)
Lemma eeprom_write_run (addr : Z) (x : float) (s : state) (pages : list Z) :
  EEPROM_SLOTS !! addr = Some pages ->
  (shadow_expired P addr (ticks_ms_at P (io s)) s = false ->
   exists p, write_pointers s !! addr = Some p /\ 0 <= p < 4) ->
  writes_succeed_at P (S (io s)) ->
  exists s' slot a,
    eeprom_write P addr (Some x) s = (inr tt, s') /\
    (if shadow_expired P addr (ticks_ms_at P (io s)) s
     then slot = 0
     else write_pointers s !! addr = Some slot) /\
    write_address pages slot = Some a /\
    cells s' = program_cells a (le_bytes (bits_of_b32 x)) (cells s) /\
    write_pointers s' =
      <[addr := if shadow_expired P addr (ticks_ms_at P (io s)) s
                then 1 else (slot + 1) mod 4]> (write_pointers s) /\
    eeprom_ttl s' =
      <[addr := TtlRecord (ticks_ms_at P (io s)) (Some x)]> (eeprom_ttl s).
Proof.
  intros Hslots Hfifo Hok.
  destruct (eeprom_write_outcome addr x s pages Hslots Hfifo)
    as (s' & slot & a & Hslot & Ha & Hcells & Hout).
  unfold programmed in Hcells. cbn [length le_bytes] in Hcells.
  rewrite (first_failure_None P _ _ _ Hok) in Hout, Hcells.
  destruct Hout as (Hrun & Hwp & Httl).
  exists s', slot, a. done.
Qed.

Lemma eeprom_write_returned (addr : Z) (x : float) (s s1 : state) (pages : list Z) :
  EEPROM_SLOTS !! addr = Some pages ->
  (shadow_expired P addr (ticks_ms_at P (io s)) s = false ->
   exists p, write_pointers s !! addr = Some p /\ 0 <= p < 4) ->
  eeprom_write P addr (Some x) s = (inr tt, s1) ->
  exists slot a,
    (if shadow_expired P addr (ticks_ms_at P (io s)) s
     then slot = 0
     else write_pointers s !! addr = Some slot) /\
    write_address pages slot = Some a /\
    cells s1 = program_cells a (le_bytes (bits_of_b32 x)) (cells s) /\
    write_pointers s1 =
      <[addr := if shadow_expired P addr (ticks_ms_at P (io s)) s
                then 1 else (slot + 1) mod 4]> (write_pointers s) /\
    eeprom_ttl s1 =
      <[addr := TtlRecord (ticks_ms_at P (io s)) (Some x)]> (eeprom_ttl s).
Proof.
  intros Hslots Hfifo Hret.
  destruct (eeprom_write_outcome addr x s pages Hslots Hfifo)
    as (s' & slot & a & Hslot & Ha & Hcells & Hout).
  unfold programmed in Hcells. cbn [length le_bytes] in Hcells.
  destruct (first_failure P (S (io s)) a 4).
  - destruct Hout as (Hrun & _). congruence.
  - destruct Hout as (Hrun & Hwp & Httl).
    assert (s' = s1) as -> by congruence.
    exists slot, a. done.
Qed.


End StorePolicy.




(** ** Taking runs apart *)

Lemma bind_inv {A B} (m : M A) (k : A -> M B) s b s' :
  bind m k s = (inr b, s') ->
  exists a s1, m s = (inr a, s1) /\ k a s1 = (inr b, s').
Proof.
  unfold bind. destruct (m s) as [[e|a] s1]; [discriminate|]. eauto.
Qed.

Lemma with_lock_inv {A} (l : lock) (body : M A) s r s' :
  with_lock l body s = (r, s') ->
  exists s1,
    body (set_trace (trace s ++ [Acquire l]) s) = (r, s1) /\
    s' = set_trace (trace s1 ++ [Release l]) s1.
Proof.
  destruct (body (set_trace (trace s ++ [Acquire l]) s)) as [r1 s1] eqn:Hb.
  rewrite (with_lock_run _ _ _ _ _ Hb). intros [= <- <-]. eauto.
Qed.

Section Frames.
Variable P : platform.

Lemma i2c_set_pointer_frame dev high low :
  preserves data_of (i2c_writeto P dev [high; low]).
Proof. unfold i2c_writeto. case_decide; frame. Qed.

Lemma read_last_value_frame name offset :
  preserves data_of (read_last_value P name offset).
Proof.
  pose proof i2c_set_pointer_frame.
  unfold read_last_value, i2c_readfrom. frame.
Qed.

Lemma eeprom_read_frame addr : preserves data_of (eeprom_read P addr).
Proof.
  pose proof read_last_value_frame.
  unfold eeprom_read, eeprom_ttl_contains, eeprom_ttl_getitem, ticks_ms,
    write_pointers_getitem, const_getitem.
  frame.
Qed.

Lemma read_sensor_frame addr : preserves data_of (read_sensor P addr).
Proof.
  unfold read_sensor, read_temperature, read_temp, read_scratch, convert_temp,
    sleep_ms, read_voltage_mq2, read_voltage_mq7, calculate_ppm, ppm_curve.
  frame.
Qed.

Lemma check_ttl_frame addr :
  preserves (fun s => (store_of s, counters_of s)) (check_ttl P addr).
Proof.
  unfold check_ttl, cache_get, cache_delitem, cache_get, ticks_ms. frame.
Qed.

Lemma ticks_ms_run s :
  ticks_ms P s = (inr (ticks_ms_at P (io s)), set_io (S (io s)) s).
Proof. reflexivity. Qed.

End Frames.

Lemma data_of_eq s s' :
  besides_cells s' = besides_cells s -> cells s' = cells s ->
  data_of s' = data_of s.
Proof.
  unfold besides_cells, data_of, store_of, counters_of.
  intros [= -> -> -> -> -> -> _] ->. done.
Qed.

Section StoreFailure.
Variable P : platform.

(** Nothing is written when [eeprom_write] is handed [None]: [struct.pack]
    raises before the first byte goes out, and a channel that is not
    configured raises even earlier. *)
Lemma eeprom_write_None addr s :
  exists e s',
    eeprom_write P addr None s = (inl e, s') /\ data_of s' = data_of s.
Proof.
  set (now := ticks_ms_at P (io s)).
  set (s1 := set_io (S (io s)) (set_trace (trace s ++ [Acquire eeprom_lock]) s)).
  assert (Hgo : forall e s2, 
    (current_time <- ticks_ms P ;;
     slots <- const_getitem EEPROM_SLOTS addr ;;
     broke <- eeprom_write_scan P addr None current_time (enumerate_from 0 slots) ;;
     (if broke then ret tt
      else
        ptr <- write_pointers_getitem addr ;;
        slots' <- const_getitem EEPROM_SLOTS addr ;;
        page <- lift (py_list_index slots' ptr) ;;
        write_to_eeprom P page ptr None ;;
        write_pointers_setitem addr ((ptr + 1) mod 4)) ;;
     eeprom_ttl_setitem addr (TtlRecord current_time None))
      (set_trace (trace s ++ [Acquire eeprom_lock]) s) = (inl e, s2) ->
    data_of s2 = data_of s ->
    exists e s', eeprom_write P addr None s = (inl e, s') /\ data_of s' = data_of s).
  { intros e s2 Hrun Hd. exists e. eexists. split.
    - unfold eeprom_write. erewrite with_lock_run; [reflexivity|exact Hrun].
    - st_simpl. exact Hd. }
  destruct (EEPROM_SLOTS !! addr) as [pages|] eqn:Hslots.
  - destruct (EEPROM_SLOTS_pages _ _ Hslots) as [Hlen _].
    destruct (shadow_expired P addr now s1) eqn:Hexp.
    + destruct pages as [|p0 rest]; [discriminate|].
      eapply Hgo.
      * bind_now. fold s1 now.
        erewrite bind_ok by (apply const_getitem_run; exact Hslots).
        cbn [enumerate_from].
        erewrite (bind_err (eeprom_write_scan _ _ _ _ _)); [reflexivity|].
        rewrite eeprom_write_scan_expired by done.
        erewrite bind_err; [reflexivity|]. apply write_to_eeprom_None.
      * done.
    + destruct (eeprom_write_scan_fresh P addr None now (enumerate_from 0 pages) s1 Hexp)
        as (s2 & Hscan & Hb2 & Hc2).
      assert (Hd2 : data_of s2 = data_of s).
      { rewrite (data_of_eq _ _ Hb2 Hc2). done. }
      destruct (write_pointers s2 !! addr) as [ptr|] eqn:Hptr.
      * destruct (py_list_index pages ptr) as [e|page] eqn:Hidx.
        -- eapply Hgo.
           ++ bind_now. fold s1 now.
              erewrite bind_ok by (apply const_getitem_run; exact Hslots).
              rewrite (bind_ok _ _ _ _ _ Hscan). cbn beta iota.
              erewrite (bind_err (bind _ _)); [reflexivity|].
              erewrite bind_ok by (apply write_pointers_getitem_run; exact Hptr).
              erewrite bind_ok by (apply const_getitem_run; exact Hslots).
              cbn beta. rewrite Hidx. reflexivity.
           ++ st_simpl. exact Hd2.
        -- eapply Hgo.
           ++ bind_now. fold s1 now.
              erewrite bind_ok by (apply const_getitem_run; exact Hslots).
              rewrite (bind_ok _ _ _ _ _ Hscan). cbn beta iota.
              erewrite (bind_err (bind _ _)); [reflexivity|].
              erewrite bind_ok by (apply write_pointers_getitem_run; exact Hptr).
              erewrite bind_ok by (apply const_getitem_run; exact Hslots).
              cbn beta. rewrite Hidx. bind_now.
              erewrite bind_err; [reflexivity|]. apply write_to_eeprom_None.
           ++ st_simpl. exact Hd2.
      * eapply Hgo.
        -- bind_now. fold s1 now.
           erewrite bind_ok by (apply const_getitem_run; exact Hslots).
           rewrite (bind_ok _ _ _ _ _ Hscan). cbn beta iota.
           erewrite (bind_err (bind _ _)); [reflexivity|].
           erewrite bind_err; [reflexivity|].
           unfold write_pointers_getitem. bind_now. bind_now. rewrite Hptr.
           reflexivity.
        -- st_simpl. exact Hd2.
  - eapply Hgo.
    + bind_now. fold s1 now. erewrite bind_err; [reflexivity|].
      unfold const_getitem. rewrite Hslots. reflexivity.
    + done.
Qed.

End StoreFailure.

Section Requests.
Variable P : platform.

Lemma eeprom_write_ok_inv addr val s s' :
  eeprom_write P addr val s = (inr tt, s') ->
  (exists x, val = Some x) /\
  is_Some (EEPROM_SLOTS !! addr) /\
  eeprom_ttl s' !! addr = Some (TtlRecord (ticks_ms_at P (io s)) val).
Proof.
  intros Hrun. split; [|split].
  - destruct val as [x|]; [eauto|].
    destruct (eeprom_write_None P addr s) as (e & s2 & Hn & _). congruence.
  - unfold eeprom_write in Hrun.
    apply with_lock_inv in Hrun as (s1 & Hrun & _).
    apply bind_inv in Hrun as (t & s2 & _ & Hrun).
    apply bind_inv in Hrun as (slots & s3 & Hs & _).
    unfold const_getitem in Hs. destruct (EEPROM_SLOTS !! addr); [eauto|discriminate].
  - unfold eeprom_write in Hrun.
    apply with_lock_inv in Hrun as (s1 & Hrun & ->).
    apply bind_inv in Hrun as (t & s2 & Ht & Hrun).
    rewrite ticks_ms_run in Ht. injection Ht as <- <-. st_simpl.
    apply bind_inv in Hrun as (slots & s3 & _ & Hrun).
    apply bind_inv in Hrun as (broke & s4 & _ & Hrun).
    apply bind_inv in Hrun as (u & s5 & _ & Hrun).
    unfold eeprom_ttl_setitem in Hrun. run_unfold. st_simpl.
    injection Hrun as <-. st_simpl. apply lookup_insert_eq.
Qed.

Lemma sensor_tier_inv addr s val lvl ts s' :
  request_sensor_tier P addr s = (inr (val, lvl, ts), s') ->
  lvl = "Sensor"%string /\
  (exists x, val = Some x) /\
  is_Some (EEPROM_SLOTS !! addr) /\
  (exists t, eeprom_ttl s' !! addr = Some (TtlRecord t val)) /\
  (exists t, dict_get addr (cache s') = Some (CacheEntry val t)).
Proof.
  unfold request_sensor_tier. intros Hrun.
  apply bind_inv in Hrun as (v & s1 & _ & Hrun).
  apply bind_inv in Hrun as (t & s2 & _ & Hrun).
  apply bind_inv in Hrun as ([] & s3 & Hw & Hrun).
  apply bind_inv in Hrun as ([] & s4 & Hu & Hrun).
  injection Hrun as <- <- <- <-.
  destruct (eeprom_write_ok_inv _ _ _ _ Hw) as (Hx & Hslots & Httl).
  apply with_lock_inv in Hu as (s5 & Hu & ->).
  destruct (update_cache_run P addr v (set_trace (trace s3 ++ [Acquire cache_lock]) s3))
    as (s6 & Hu' & Hc & _).
  rewrite Hu in Hu'. injection Hu' as <-.
  pose proof (preserved _ _ _ _ _ (update_cache_store P addr v) Hu) as Hst.
  unfold store_of in Hst. st_simpl. injection Hst as _ Ht _.
  repeat split; [done..| |].
  - eexists. rewrite Ht. exact Httl.
  - eexists. rewrite Hc. rewrite dict_get_set. by rewrite decide_True.
Qed.

Lemma sensor_tier_counters addr :
  preserves counters_of (request_sensor_tier P addr).
Proof.
  assert (H1 : forall a, preserves counters_of (read_sensor P a)).
  { intros a s. pose proof (read_sensor_frame P a s) as H.
    unfold data_of in H. congruence. }
  assert (H2 : forall a v, preserves counters_of (eeprom_write P a v)).
  { intros a v s. pose proof (eeprom_write_frame P a v s) as H.
    cbn beta in H. congruence. }
  pose proof (update_cache_counters P).
  unfold request_sensor_tier, ticks_ms. frame.
Qed.

End Requests.

(** C1.  When both tiers miss and [read_sensor] returns [None],
    [request_data] raises, and the cache, the write pointers, the
    ShadowRecords and the cells of the EEPROM are what they were when the
    sensor was asked. *)
Theorem request_unavailable (P : platform) (addr : Z) (s s0 s1 : state) :
  request_lookup P addr s = (inr None, s0) ->
  read_sensor P addr s0 = (inr None, s1) ->
  exists e s',
    request_data P addr s = (inl e, s') /\
    cache s' = cache s0 /\
    write_pointers s' = write_pointers s0 /\
    eeprom_ttl s' = eeprom_ttl s0 /\
    cells s' = cells s0.
Proof.
  intros Hlookup Hsensor.
  pose proof (preserved _ _ _ _ _ (read_sensor_frame P addr) Hsensor) as Hd1.
  destruct (eeprom_write_None P addr (set_io (S (io s1)) s1)) as (e & s2 & Hw & Hd2).
  exists e, s2. split.
  - unfold request_data. rewrite (bind_ok _ _ _ _ _ Hlookup).
    unfold request_sensor_tier. rewrite (bind_ok _ _ _ _ _ Hsensor).
    rewrite (bind_ok _ _ _ _ _ (ticks_ms_run P s1)).
    by rewrite (bind_err _ _ _ _ _ Hw).
  - unfold data_of, store_of in *. st_simpl.
    injection Hd1 as Hc1 Hw1 Ht1 Hm1 _ _ _.
    injection Hd2 as Hc2 Hw2 Ht2 Hm2 _ _ _.
    rewrite Hc2, Hw2, Ht2, Hm2. done.
Qed.

Lemma request_unavailable_witness :
  request_lookup cold ADDR_TEMP (boot ∅)
    = (inr None, snd (request_lookup cold ADDR_TEMP (boot ∅))) /\
  read_sensor cold ADDR_TEMP (snd (request_lookup cold ADDR_TEMP (boot ∅)))
    = (inr None,
       snd (read_sensor cold ADDR_TEMP (snd (request_lookup cold ADDR_TEMP (boot ∅))))) /\
  exists e s',
    request_data cold ADDR_TEMP (boot ∅) = (inl e, s') /\
    cache s' = cache (snd (request_lookup cold ADDR_TEMP (boot ∅))) /\
    write_pointers s' = write_pointers (snd (request_lookup cold ADDR_TEMP (boot ∅))) /\
    eeprom_ttl s' = eeprom_ttl (snd (request_lookup cold ADDR_TEMP (boot ∅))) /\
    cells s' = cells (snd (request_lookup cold ADDR_TEMP (boot ∅))).
Proof.
  assert (H1 : request_lookup cold ADDR_TEMP (boot ∅)
               = (inr None, snd (request_lookup cold ADDR_TEMP (boot ∅))))
    by (vm_compute; reflexivity).
  assert (H2 : read_sensor cold ADDR_TEMP (snd (request_lookup cold ADDR_TEMP (boot ∅)))
               = (inr None,
                  snd (read_sensor cold ADDR_TEMP
                         (snd (request_lookup cold ADDR_TEMP (boot ∅))))))
    by (vm_compute; reflexivity).
  split; [exact H1|]. split; [exact H2|].
  exact (request_unavailable cold ADDR_TEMP (boot ∅) _ _ H1 H2).
Defined.

Section Tiers.
Variable P : platform.

Lemma request_cache_tier_miss addr s :
  dict_get addr (cache s) = None ->
  exists s',
    request_cache_tier P addr s = (inr None, s') /\
    data_of s' = data_of s /\ io s' = io s.
Proof.
  intros Hmiss. eexists. split.
  - unfold request_cache_tier. erewrite with_lock_run; [reflexivity|].
    unfold cache_contains. run_unfold. st_simpl. rewrite Hmiss. reflexivity.
  - done.
Qed.

Lemma request_cache_tier_hit addr e s :
  dict_get addr (cache s) = Some e ->
  exists s',
    request_cache_tier P addr s
      = (inr (Some (value e, "Cache"%string, ticks_ms_at P (io s))), s') /\
    store_of s' = store_of s /\
    counters_of s' = (total_access s, cache_hits s + 1, eeprom_hits s).
Proof.
  intros Hhit. eexists. split.
  - unfold request_cache_tier. erewrite with_lock_run; [reflexivity|].
    unfold cache_contains, cache_set_last_used, cache_getitem, cache_get, ticks_ms.
    run_unfold.
    do 6 (st_simpl; rewrite ?Hhit, ?dict_get_set, ?decide_True by done).
    reflexivity.
  - done.
Qed.

Lemma eeprom_read_fresh addr r s :
  is_Some (NAME_MAP !! addr) ->
  eeprom_ttl s !! addr = Some r ->
  ticks_diff P (ticks_ms_at P (io s)) (timestamp r) < TTL_MS ->
  exists s', eeprom_read P addr s = (inr (ttl_value r), s').
Proof.
  intros Hname Hr Hfresh. eexists.
  unfold eeprom_read. rewrite bool_decide_eq_true_2 by done.
  erewrite with_lock_run; [reflexivity|].
  unfold eeprom_ttl_contains, eeprom_ttl_getitem, ticks_ms.
  apply Z.ltb_lt in Hfresh.
  run_unfold. do 4 (st_simpl; rewrite ?Hr, ?Hfresh).
  reflexivity.
Qed.

Lemma check_ttl_run addr s :
  exists s',
    check_ttl P addr s = (inr tt, s') /\
    store_of s' = store_of s /\
    counters_of s' = counters_of s /\
    cache s' =
      match dict_get addr (cache s) with
      | Some e =>
          if TTL_MS <? ticks_diff P (ticks_ms_at P (io s)) (last_used e)
          then dict_del addr (cache s) else cache s
      | None => cache s
      end /\
    io s' = match dict_get addr (cache s) with Some _ => S (io s) | None => io s end.
Proof.
  unfold check_ttl, cache_delitem, cache_get, ticks_ms. run_unfold. st_simpl.
  destruct (dict_get addr (cache s)) as [e|] eqn:He; st_simpl.
  - destruct (TTL_MS <? ticks_diff P (ticks_ms_at P (io s)) (last_used e)).
    + st_simpl. rewrite He. eexists. split; [reflexivity|]. done.
    + eexists. split; [reflexivity|]. done.
  - eexists. split; [reflexivity|]. done.
Qed.

End Tiers.

(** C4.  Right after [request_data] has returned a value from the sensor,
    that is while the ShadowRecord and the cache entry it left are not older
    than [TTL_MS] on the clock, [eeprom_read] returns that value and the
    next [request_data] returns it from the cache. *)
Theorem write_through (P : platform) (addr : Z) (s s' : state) (val : pyval) (ts : Z) :
  request_data P addr s = (inr (val, "Sensor"%string, ts), s') ->
  (forall r, eeprom_ttl s' !! addr = Some r ->
             ticks_diff P (ticks_ms_at P (io s')) (timestamp r) < TTL_MS) ->
  (forall e, dict_get addr (cache s') = Some e ->
             ticks_diff P (ticks_ms_at P (io s')) (last_used e) <= TTL_MS) ->
  fst (eeprom_read P addr s') = inr val /\
  exists now, fst (request_data P addr s') = inr (val, "Cache"%string, now).
Proof.
  intros Hrun Hstore Hcache.
  unfold request_data in Hrun.
  apply bind_inv in Hrun as (found & s0 & Hlookup & Hrun).
  destruct found as [[[v l] t]|].
  { (* a value found by the lookup does not come from the sensor *)
    injection Hrun as -> -> -> ->. exfalso.
    unfold request_lookup in Hlookup.
    apply bind_inv in Hlookup as ([] & s1 & _ & Hlookup).
    apply bind_inv in Hlookup as ([] & s2 & _ & Hlookup).
    apply bind_inv in Hlookup as (hit & s3 & Hhit & Hlookup).
    destruct hit as [r|].
    - injection Hlookup as -> ->.
      destruct (dict_get addr (cache s2)) as [e|] eqn:He.
      + destruct (request_cache_tier_hit P addr e s2 He) as (s4 & H4 & _).
        rewrite H4 in Hhit. discriminate.
      + destruct (request_cache_tier_miss P addr s2 He) as (s4 & H4 & _).
        rewrite H4 in Hhit. discriminate.
    - unfold request_store_tier in Hlookup.
      apply bind_inv in Hlookup as (v & s4 & _ & Hlookup).
      destruct (usable v); [|discriminate].
      apply bind_inv in Hlookup as ([] & s5 & _ & Hlookup).
      apply bind_inv in Hlookup as ([] & s6 & _ & Hlookup).
      apply bind_inv in Hlookup as (r & s7 & _ & Hlookup).
      discriminate. }
  destruct (sensor_tier_inv P _ _ _ _ _ _ Hrun)
    as (_ & _ & Hslots & (t & Httl) & (t' & Hentry)).
  split.
  - destruct (eeprom_read_fresh P addr _ s' (proj2 (NAME_MAP_SLOTS addr) Hslots) Httl
                (Hstore _ Httl)) as (s2 & H2).
    rewrite H2. done.
  - specialize (Hcache _ Hentry). cbn [last_used] in Hcache.
    set (sa := set_total_access (total_access s' + 1) s').
    destruct (check_ttl_run P addr sa) as (sb & Hb & _ & _ & Hcb & _).
    subst sa. st_simpl. rewrite Hentry in Hcb. cbn [last_used] in Hcb.
    destruct (Z.ltb_spec TTL_MS (ticks_diff P (ticks_ms_at P (io s')) t')); [lia|].
    rewrite <- Hcb in Hentry.
    destruct (request_cache_tier_hit P addr _ sb Hentry) as (sc & Hc & _).
    eexists. unfold request_data, request_lookup.
    erewrite (bind_ok (bind _ _)); cycle 1.
    { bind_now. rewrite (bind_ok _ _ _ _ _ Hb).
      rewrite (bind_ok _ _ _ _ _ Hc). reflexivity. }
    reflexivity.
Qed.

Lemma write_through_witness :
  request_data lab ADDR_TEMP (boot ∅)
    = (inr (Some (of_int 25), "Sensor"%string, 30), after_first_request) /\
  (forall r, eeprom_ttl after_first_request !! ADDR_TEMP = Some r ->
             ticks_diff lab (ticks_ms_at lab (io after_first_request)) (timestamp r)
             < TTL_MS) /\
  (forall e, dict_get ADDR_TEMP (cache after_first_request) = Some e ->
             ticks_diff lab (ticks_ms_at lab (io after_first_request)) (last_used e)
             <= TTL_MS) /\
  fst (eeprom_read lab ADDR_TEMP after_first_request) = inr (Some (of_int 25)) /\
  exists now,
    fst (request_data lab ADDR_TEMP after_first_request)
    = inr (Some (of_int 25), "Cache"%string, now).
Proof.
  assert (H1 : request_data lab ADDR_TEMP (boot ∅)
               = (inr (Some (of_int 25), "Sensor"%string, 30), after_first_request))
    by (vm_compute; reflexivity).
  assert (H2 : forall r, eeprom_ttl after_first_request !! ADDR_TEMP = Some r ->
               ticks_diff lab (ticks_ms_at lab (io after_first_request)) (timestamp r)
               < TTL_MS).
  { intros r Hr. vm_compute in Hr. injection Hr as <-. vm_compute. reflexivity. }
  assert (H3 : forall e, dict_get ADDR_TEMP (cache after_first_request) = Some e ->
               ticks_diff lab (ticks_ms_at lab (io after_first_request)) (last_used e)
               <= TTL_MS).
  { intros e He. vm_compute in He. injection He as <-. vm_compute. discriminate. }
  split; [exact H1|]. split; [exact H2|]. split; [exact H3|].
  exact (write_through lab ADDR_TEMP (boot ∅) after_first_request _ _ H1 H2 H3).
Defined.

Section ZeroReading.
Variable P : platform.

Lemma read_sensor_configured addr s z s1 :
  read_sensor P addr s = (inr (Some z), s1) -> is_Some (EEPROM_SLOTS !! addr).
Proof.
  unfold read_sensor. repeat case_decide; subst; try (intros _; by eexists).
  discriminate.
Qed.

Lemma read_temperature_not_positive rom t s s1 :
  py_list_index (ds_roms P) 0 = inr rom ->
  read_temp P rom s = (inr t, s1) ->
  ltb (of_int 0) t = false ->
  read_sensor P ADDR_TEMP s = (inr None, s1).
Proof.
  intros Hrom Ht Hpos. unfold read_sensor. rewrite decide_True by done.
  unfold read_temperature, convert_temp, sleep_ms.
  bind_now. bind_now. rewrite Hrom. bind_now.
  rewrite (bind_ok _ _ _ _ _ Ht). by rewrite Hpos.
Qed.


End ZeroReading.




(** On the temperature channel a sensor that keeps reading exactly 0.0
    degrees is reported as [None] by [read_sensor], and the request raises. *)
Lemma zero_temperature_unavailable :
  fst (read_temp cold 0x28 (boot ∅)) = inr zero /\
  fst (read_sensor cold ADDR_TEMP (boot ∅)) = inr None /\
  fst (request_data cold ADDR_TEMP (boot ∅)) = inl TypeError.
Proof. vm_compute. repeat split. Qed.

(** ** Counting *)

Section Counting.
Variable P : platform.

Lemma sensor_loop_step_counters addr :
  preserves counters_of (sensor_loop_step P addr).
Proof.
  assert (H1 : forall a, preserves counters_of (read_sensor P a)).
  { intros a s. pose proof (read_sensor_frame P a s) as H.
    unfold data_of in H. congruence. }
  assert (H2 : forall a v, preserves counters_of (eeprom_write P a v)).
  { intros a v s. pose proof (eeprom_write_frame P a v s) as H.
    cbn beta in H. congruence. }
  pose proof (update_cache_counters P).
  unfold sensor_loop_step. frame.
Qed.

Lemma request_data_counted addr s :
  counted s (fst (request_data P addr s)) (snd (request_data P addr s)).
Proof.
  set (sa := set_total_access (total_access s + 1) s).
  destruct (check_ttl_run P addr sa) as (sb & Hb & _ & Hnb & _).
  assert (Hlook : forall r sc,
            (hit <- request_cache_tier P addr ;;
             match hit with
             | Some r => ret (Some r)
             | None => request_store_tier P addr
             end) sb = (r, sc) ->
            request_lookup P addr s = (r, sc)).
  { intros r sc Hrun. unfold request_lookup. bind_now. fold sa.
    rewrite (bind_ok _ _ _ _ _ Hb). exact Hrun. }
  subst sa. unfold counters_of in Hnb. st_simpl.
  injection Hnb as Hn1 Hn2 Hn3.
  destruct (dict_get addr (cache sb)) as [e|] eqn:He.
  - (* served from the cache *)
    destruct (request_cache_tier_hit P addr e sb He) as (sc & Hc & _ & Hnc).
    unfold request_data.
    erewrite (bind_ok (request_lookup P addr)); cycle 1.
    { apply Hlook. rewrite (bind_ok _ _ _ _ _ Hc). reflexivity. }
    unfold counted, counters_of in *. cbn. injection Hnc as -> -> ->.
    repeat split; intros; lia.
  - destruct (request_cache_tier_miss P addr sb He) as (sc & Hc & Hdc & _).
    unfold data_of, counters_of in Hdc. injection Hdc as _ _ Hc1 Hc2 Hc3.
    destruct (eeprom_read P addr sc) as [[e|val] sd] eqn:Hread;
      pose proof (preserved _ _ _ _ _ (eeprom_read_frame P addr) Hread) as Hdd;
      unfold data_of, counters_of in Hdd; injection Hdd as _ _ Hd1 Hd2 Hd3.
    + (* the store raises *)
      unfold request_data.
      erewrite (bind_err (request_lookup P addr)); cycle 1.
      { apply Hlook. rewrite (bind_ok _ _ _ _ _ Hc).
        unfold request_store_tier. rewrite (bind_err _ _ _ _ _ Hread). reflexivity. }
      unfold counted. cbn. repeat split; intros; lia.
    + destruct (usable val) eqn:Huse.
      * (* served from the store *)
        destruct (update_cache_run P addr val
                    (set_trace (trace sd ++ [Acquire cache_lock]) sd))
          as (se & Hu & _).
        pose proof (preserved _ _ _ _ _ (update_cache_counters P addr val) Hu) as Hne.
        unfold counters_of in Hne. st_simpl. injection Hne as He1 He2 He3.
        set (sf := set_eeprom_hits (eeprom_hits se + 1)
                     (set_trace (trace se ++ [Release cache_lock]) se)).
        assert (Hstore : forall r sg,
                  (r0 <- eeprom_ttl_getitem addr ;;
                   ret (Some (val, "EEPROM"%string, timestamp r0))) sf = (r, sg) ->
                  request_lookup P addr s = (r, sg)).
        { intros r sg Hrun. apply Hlook. rewrite (bind_ok _ _ _ _ _ Hc).
          unfold request_store_tier. rewrite (bind_ok _ _ _ _ _ Hread).
          rewrite Huse.
          erewrite bind_ok by (apply with_lock_run; exact Hu).
          bind_now. exact Hrun. }
        unfold eeprom_ttl_getitem in Hstore. 
        destruct (eeprom_ttl sf !! addr) as [r|] eqn:Hr.
        -- unfold request_data.
           erewrite (bind_ok (request_lookup P addr)); cycle 1.
           { apply Hstore. run_unfold. st_simpl. rewrite Hr. reflexivity. }
           unfold counted. subst sf. cbn. repeat split; intros; lia.
        -- unfold request_data.
           erewrite (bind_err (request_lookup P addr)); cycle 1.
           { apply Hstore. run_unfold. st_simpl. rewrite Hr. reflexivity. }
           unfold counted. subst sf. cbn. repeat split; intros; [lia..|done].
      * (* the sensor is asked *)
        pose proof (sensor_tier_counters P addr sd) as Hns.
        unfold request_data.
        erewrite (bind_ok (request_lookup P addr)); cycle 1.
        { apply Hlook. rewrite (bind_ok _ _ _ _ _ Hc).
          unfold request_store_tier. rewrite (bind_ok _ _ _ _ _ Hread).
          rewrite Huse. reflexivity. }
        destruct (request_sensor_tier P addr sd) as [[e|[[v l] t]] sh] eqn:Hs;
          unfold counters_of in Hns; st_simpl; injection Hns as Hs1 Hs2 Hs3.
        -- unfold counted. cbn. repeat split; intros; lia.
        -- destruct (sensor_tier_inv P _ _ _ _ _ _ Hs) as (-> & _).
           unfold counted. cbn. repeat split; intros; lia.
Qed.

End Counting.

Lemma hits_cons level o os :
  hits level (o :: os) = Z.b2z (served_by level o) + hits level os.
Proof.
  unfold hits. rewrite filter_cons.
  destruct (served_by level o); case_decide; try done; cbn [length Z.b2z]; lia.
Qed.

Lemma run_script_counted (P : platform) (ops : list op) (s : state) :
  Forall (fun o => o <> inl KeyError) (fst (run_script P ops s)) ->
  total_access (snd (run_script P ops s))
    = total_access s + Z.of_nat (length (fst (run_script P ops s))) /\
  cache_hits (snd (run_script P ops s))
    = cache_hits s + hits "Cache" (fst (run_script P ops s)) /\
  eeprom_hits (snd (run_script P ops s))
    = eeprom_hits s + hits "EEPROM" (fst (run_script P ops s)).
Proof.
  revert s. induction ops as [|[addr|addr] rest IH]; intros s Hok.
  - cbn. unfold hits. cbn. lia.
  - cbn [run_script] in *.
    pose proof (request_data_counted P addr s) as (Ht & Hc & He).
    destruct (request_data P addr s) as [o s1]. cbn [fst snd] in *.
    specialize (IH s1).
    destruct (run_script P rest s1) as [os s2]. cbn [fst snd] in *.
    apply Forall_cons in Hok as [Ho Hos].
    destruct (IH Hos) as (IHt & IHc & IHe). specialize (He Ho).
    rewrite !hits_cons, IHt, IHc, IHe, Ht, Hc, He. cbn [length]. lia.
  - cbn [run_script] in *.
    pose proof (sensor_loop_step_counters P addr s) as Hn.
    unfold counters_of in Hn. injection Hn as Hn1 Hn2 Hn3.
    destruct (IH _ Hok) as (IHt & IHc & IHe).
    rewrite IHt, IHc, IHe, Hn1, Hn2, Hn3. done.
Qed.

(** C8, as the code has it.  Over a script of requests and refreshes in
    which no request raises [KeyError], the three counters grow by the
    number [N] of requests, by the number [H1] of requests served from the
    cache and by the number [H2] served from the EEPROM; a refresh changes
    none of them.  From counters at zero the rates are therefore the
    percentages [H1 / N * 100] and [(H1 + H2) / N * 100]. *)
Theorem hit_rate_accounting (P : platform) (ops : list op) (s s' : state)
    (outs : list outcome) :
  run_script P ops s = (outs, s') ->
  Forall (fun o => o <> inl KeyError) outs ->
  (total_access s' = total_access s + Z.of_nat (length outs) /\
   cache_hits s' = cache_hits s + hits "Cache" outs /\
   eeprom_hits s' = eeprom_hits s + hits "EEPROM" outs) /\
  (total_access s = 0 -> cache_hits s = 0 -> eeprom_hits s = 0 ->
   cache_hits_rate s' = percent (hits "Cache" outs) (Z.of_nat (length outs)) /\
   hit_rate s'
     = percent (hits "Cache" outs + hits "EEPROM" outs) (Z.of_nat (length outs))).
Proof.
  intros Hrun Hok.
  pose proof (run_script_counted P ops s) as H.
  rewrite Hrun in H. cbn [fst snd] in H.
  destruct (H Hok) as (Ht & Hc & He).
  split; [done|].
  intros Zt Zc Ze. unfold cache_hits_rate, hit_rate.
  rewrite Ht, Hc, He, Zt, Zc, Ze, !Z.add_0_l. done.
Qed.

Lemma hit_rate_accounting_witness :
  run_script lab demo_script (boot ∅)
    = (fst (run_script lab demo_script (boot ∅)),
       snd (run_script lab demo_script (boot ∅))) /\
  Forall (fun o => o <> inl KeyError) (fst (run_script lab demo_script (boot ∅))) /\
  total_access (snd (run_script lab demo_script (boot ∅)))
    = total_access (boot ∅)
      + Z.of_nat (length (fst (run_script lab demo_script (boot ∅)))) /\
  cache_hits (snd (run_script lab demo_script (boot ∅)))
    = cache_hits (boot ∅) + hits "Cache" (fst (run_script lab demo_script (boot ∅))) /\
  eeprom_hits (snd (run_script lab demo_script (boot ∅)))
    = eeprom_hits (boot ∅) + hits "EEPROM" (fst (run_script lab demo_script (boot ∅))).
Proof.
  assert (H1 : run_script lab demo_script (boot ∅)
               = (fst (run_script lab demo_script (boot ∅)),
                  snd (run_script lab demo_script (boot ∅))))
    by (vm_compute; reflexivity).
  assert (H2 : Forall (fun o => o <> inl KeyError)
                 (fst (run_script lab demo_script (boot ∅)))).
  { vm_compute. repeat constructor; discriminate. }
  split; [exact H1|]. split; [exact H2|].
  exact (proj1 (hit_rate_accounting lab demo_script (boot ∅) _ _ H1 H2)).
Defined.

(** C8 as stated fails twice.  After a request served by the sensor and one
    served by the cache the cache rate is 50, not 1/2: the rates are
    percentages.  And over an EEPROM that still holds a float where
    [read_last_value] looks, the first request for MQ2 counts an EEPROM hit
    and then raises [KeyError], so a hit is counted for a request that no
    tier served. *)
Lemma rates_not_ratios :
  (hits "Cache" (fst (run_script lab [Request ADDR_TEMP; Request ADDR_TEMP] (boot ∅))) = 1 /\
   cache_hits_rate (snd (run_script lab [Request ADDR_TEMP; Request ADDR_TEMP] (boot ∅)))
     = inr (of_int 50) /\
   cache_hits_rate (snd (run_script lab [Request ADDR_TEMP; Request ADDR_TEMP] (boot ∅)))
     <> py_truediv (of_int 1) (of_int 2)) /\
  (fst (run_script lab [Request ADDR_MQ2] (boot used_eeprom)) = [inl KeyError] /\
   hits "EEPROM" (fst (run_script lab [Request ADDR_MQ2] (boot used_eeprom))) = 0 /\
   eeprom_hits (snd (run_script lab [Request ADDR_MQ2] (boot used_eeprom))) = 1).
Proof. vm_compute. repeat split. discriminate. Qed.

(** ** Where the EEPROM is read *)

(** The address [eeprom_write] programs for slot [i] and the address
    [eeprom_read] reads for it agree for slot 0 only. *)
Lemma slot_addresses (addr : Z) (pages : list Z) (page0 i a : Z) :
  EEPROM_SLOTS !! addr = Some pages ->
  pages !! 0%nat = Some page0 ->
  0 <= i < 4 ->
  write_address pages i = Some a ->
  a = read_address page0 i + 29 * i.
Proof.
  unfold EEPROM_SLOTS. rewrite !lookup_insert, lookup_empty.
  intros Hp H0 Hi Ha.
  assert (Hcases : i = 0 \/ i = 1 \/ i = 2 \/ i = 3) by lia.
  unfold write_address, read_address, PAGE_SIZE in *.
  repeat case_decide; simplify_eq;
    destruct Hcases as [-> | [-> | [-> | ->]]];
    vm_compute in Ha; vm_compute in H0; simplify_eq; reflexivity.
Qed.

Lemma slot_addresses_witness :
  EEPROM_SLOTS !! ADDR_MQ2 = Some [0; 1; 2; 3] /\
  [0; 1; 2; 3] !! 0%nat = Some 0 /\
  0 <= 1 < 4 /\
  write_address [0; 1; 2; 3] 1 = Some 33 /\
  33 = read_address 0 1 + 29 * 1.
Proof.
  assert (H1 : EEPROM_SLOTS !! ADDR_MQ2 = Some [0; 1; 2; 3]) by reflexivity.
  assert (H2 : [0; 1; 2; 3] !! 0%nat = Some 0) by reflexivity.
  assert (H3 : 0 <= 1 < 4) by lia.
  assert (H4 : write_address [0; 1; 2; 3] 1 = Some 33) by reflexivity.
  repeat (split; [assumption|]).
  exact (slot_addresses ADDR_MQ2 [0; 1; 2; 3] 0 1 33 H1 H2 H3 H4).
Defined.

(** C2 fails on the code.  Two writes for MQ2 ten milliseconds apart: the
    second goes to slot 1 and programs the cells 33 to 36.  Once the
    ShadowRecord is stale, [eeprom_read] computes slot 1 as well but reads the
    four cells from address 4 on, which hold nothing, and returns [None]. *)
Lemma read_misses_last_write :
  write_pointers (two_writes ∅ (of_int 2) (of_int 3)) !! ADDR_MQ2 = Some 2 /\
  write_address [0; 1; 2; 3] 1 = Some 33 /\
  read_cells (cells (two_writes ∅ (of_int 2) (of_int 3))) 33 4
    = le_bytes (bits_of_b32 (of_int 3)) /\
  read_address 0 1 = 4 /\
  fst (eeprom_read later ADDR_MQ2 (two_writes ∅ (of_int 2) (of_int 3))) = inr None /\
  cell_pointer (snd (eeprom_read later ADDR_MQ2 (two_writes ∅ (of_int 2) (of_int 3))))
    = 4 + 4.
Proof. vm_compute. repeat split. Qed.

(** C10 fails on the code for the same reason.  Over an EEPROM that holds
    the float 1.0 at address 4, a write of 0.0 to slot 1 of MQ2 is read
    back, once the ShadowRecord is stale, as 1.0: neither absent nor 0.0. *)
Lemma zero_read_back_as_stale_value :
  eeprom_ttl (two_writes used_eeprom' (of_int 2) zero) !! ADDR_MQ2
    = Some (TtlRecord 10 (Some zero)) /\
  read_cells (cells (two_writes used_eeprom' (of_int 2) zero)) 33 4 = [0; 0; 0; 0] /\
  fst (eeprom_read later ADDR_MQ2 (two_writes used_eeprom' (of_int 2) zero))
    = inr (Some (of_int 1)).
Proof. vm_compute. repeat split. Qed.

(** ** Locks *)

(** C9 fails on the code.  [check_ttl] reads the cache before [request_data]
    takes [cache_lock]; [sensor_loop] calls [update_cache] without the lock
    that [request_data] takes around the same call; and the EEPROM-hit path
    of [request_data] reads [eeprom_ttl] after [eeprom_lock] is released.
    [eeprom_write] and [eeprom_read] themselves keep the discipline. *)
Lemma accesses_outside_locks :
  disciplined [] (trace (snd (check_ttl lab ADDR_TEMP (boot ∅)))) = false /\
  disciplined [] (trace (snd (request_data lab ADDR_TEMP (boot ∅)))) = false /\
  disciplined [] (trace (snd (sensor_loop_step lab ADDR_TEMP (boot ∅)))) = false /\
  disciplined [] (trace (snd (with_lock cache_lock
                                (update_cache lab ADDR_TEMP (Some zero)) (boot ∅)))) = true /\
  disciplined [] (trace (snd (eeprom_write lab ADDR_TEMP (Some zero) (boot ∅)))) = true /\
  disciplined [] (trace (snd (eeprom_read lab ADDR_TEMP (boot ∅)))) = true.
Proof. vm_compute. repeat split. Qed.

Section Cleared.
Variable P : platform.

Lemma read_last_value_zeros name page0 s :
  (name = "MQII"%string /\ page0 = 0 \/
   name = "MQIV"%string /\ page0 = 42 \/
   name = "TEMP"%string /\ page0 = 84) ->
  read_cells (cells s) (page0 * PAGE_SIZE) 4 = [0; 0; 0; 0] ->
  fst (read_last_value P name 0 s) = inr None.
Proof.
  intros Hname Hz.
  assert (Hrun : forall s1,
            cells s1 = cells s -> cell_pointer s1 = page0 * PAGE_SIZE ->
            fst (try_except
                   (raw <- i2c_readfrom P EEPROM_ADDR 4 ;;
                    if bool_decide (raw ≠ [255; 255; 255; 255])
                       && bool_decide (raw ≠ [0; 0; 0; 0])
                    then ret (Some (struct_unpack_f raw))
                    else ret None)
                   (ret None) s1) = inr None).
  { intros s1 Hc Hp. unfold i2c_readfrom. run_unfold. st_simpl.
    destruct (i2c_read_fails_at P (io s1)); [done|].
    st_simpl. rewrite Hc, Hp, Hz. done. }
  destruct Hname as [[-> ->]|[[-> ->]|[-> ->]]];
    unfold read_last_value, try_except; cbn [String.eqb Ascii.eqb Bool.eqb];
    (erewrite bind_ok by reflexivity); apply Hrun; reflexivity.
Qed.

Lemma program_cells_before a a' data m :
  a' < a -> program_cells a data m !! a' = m !! a'.
Proof.
  revert a m. induction data as [|b rest IH]; intros a m Hlt; [done|].
  cbn [program_cells]. rewrite IH by lia. apply lookup_insert_ne. lia.
Qed.

Lemma read_cells_program_cells a data m :
  read_cells (program_cells a data m) a (length data) = data.
Proof.
  revert a m. induction data as [|b rest IH]; intros a m; [done|].
  cbn [program_cells read_cells length]. rewrite IH. f_equal.
  unfold cell. rewrite program_cells_before by lia.
  by rewrite lookup_insert_eq.
Qed.

Lemma NAME_MAP_pages addr pages :
  EEPROM_SLOTS !! addr = Some pages ->
  exists name page0,
    NAME_MAP !! addr = Some name /\ pages !! 0%nat = Some page0 /\
    (name = "MQII"%string /\ page0 = 0 \/
     name = "MQIV"%string /\ page0 = 42 \/
     name = "TEMP"%string /\ page0 = 84).
Proof.
  unfold EEPROM_SLOTS, NAME_MAP. rewrite !lookup_insert, !lookup_empty.
  repeat case_decide; intros [= <-]; eauto 10.
Qed.

Lemma with_lock_fst {A} (l : lock) (body : M A) s :
  fst (with_lock l body s) = fst (body (set_trace (trace s ++ [Acquire l]) s)).
Proof.
  destruct (body (set_trace (trace s ++ [Acquire l]) s)) as [r s1] eqn:Hb.
  by rewrite (with_lock_run _ _ _ _ _ Hb).
Qed.

Lemma eeprom_read_cleared addr s pages page0 r :
  EEPROM_SLOTS !! addr = Some pages ->
  pages !! 0%nat = Some page0 ->
  write_pointers s !! addr = Some 1 ->
  eeprom_ttl s !! addr = Some r ->
  TTL_MS <= ticks_diff P (ticks_ms_at P (io s)) (timestamp r) ->
  read_cells (cells s) (page0 * PAGE_SIZE) 4 = [0; 0; 0; 0] ->
  fst (eeprom_read P addr s) = inr None.
Proof.
  intros Hslots H0 Hw Hr Hstale Hz.
  destruct (NAME_MAP_pages _ _ Hslots) as (name & page0' & Hname & H0' & Hcases).
  assert (page0' = page0) as -> by congruence.
  unfold eeprom_read. rewrite bool_decide_eq_true_2 by (by eexists).
  rewrite with_lock_fst.
  unfold eeprom_ttl_contains, eeprom_ttl_getitem, ticks_ms.
  erewrite (bind_ok (bind _ _)); cycle 1.
  { run_unfold. st_simpl. rewrite Hr. reflexivity. }
  cbn beta iota.
  erewrite (bind_ok (bind _ _)); cycle 1.
  { run_unfold. st_simpl. rewrite Hr. st_simpl.
    destruct (Z.ltb_spec (ticks_diff P (ticks_ms_at P (io s)) (timestamp r)) TTL_MS);
      [lia|reflexivity]. }
  cbn beta iota.
  erewrite bind_ok by (apply write_pointers_getitem_run; st_simpl; exact Hw).
  erewrite bind_ok by (apply const_getitem_run; exact Hname).
  cbn beta zeta. change ((1 - 1) mod 4) with 0.
  apply (read_last_value_zeros name page0); [exact Hcases|]. st_simpl. exact Hz.
Qed.

(** After [eeprom_write] has put 0.0 into slot 0 of a channel, a read that
    goes to the EEPROM returns [None]: the four bytes of 0.0 are the all-zero
    pattern that [read_last_value] takes for a cleared slot. *)
Lemma zero_in_slot_0_reads_absent addr s s1 pages :
  EEPROM_SLOTS !! addr = Some pages ->
  shadow_expired P addr (ticks_ms_at P (io s)) s = true
  \/ write_pointers s !! addr = Some 0 ->
  eeprom_write P addr (Some zero) s = (inr tt, s1) ->
  TTL_MS <= ticks_diff P (ticks_ms_at P (io s1)) (ticks_ms_at P (io s)) ->
  fst (eeprom_read P addr s1) = inr None.
Proof.
  intros Hslots Hslot Hrun Hstale.
  destruct (NAME_MAP_pages _ _ Hslots) as (name & page0 & _ & H0 & _).
  destruct (eeprom_write_returned P addr zero s s1 pages Hslots)
    as (slot & a & Hs & Ha & Hcells & Hwp & Httl); [|exact Hrun|].
  { intros Hexp. destruct Hslot as [?|Hw0]; [congruence|]. exists 0. split; [done|lia]. }
  assert (slot = 0) as ->.
  { destruct (shadow_expired P addr _ s); [done|].
    destruct Hslot as [?|Hw0]; congruence. }
  unfold write_address in Ha. change (Z.to_nat 0) with 0%nat in Ha.
  rewrite H0 in Ha. injection Ha as <-.
  eapply (eeprom_read_cleared addr s1 pages page0); [done..| | | |].
  - rewrite Hwp. rewrite lookup_insert_eq. by destruct (shadow_expired P addr _ s).
  - rewrite Httl. apply lookup_insert_eq.
  - exact Hstale.
  - rewrite Hcells. rewrite Z.add_0_r.
    apply (read_cells_program_cells (page0 * PAGE_SIZE) [0; 0; 0; 0]).
Qed.

End Cleared.

Lemma zero_in_slot_0_reads_absent_witness :
  EEPROM_SLOTS !! ADDR_MQ2 = Some [0; 1; 2; 3] /\
  (shadow_expired slow ADDR_MQ2 (ticks_ms_at slow (io (boot ∅))) (boot ∅) = true
   \/ write_pointers (boot ∅) !! ADDR_MQ2 = Some 0) /\
  eeprom_write slow ADDR_MQ2 (Some zero) (boot ∅)
    = (inr tt, snd (eeprom_write slow ADDR_MQ2 (Some zero) (boot ∅))) /\
  TTL_MS <= ticks_diff slow
              (ticks_ms_at slow (io (snd (eeprom_write slow ADDR_MQ2 (Some zero) (boot ∅)))))
              (ticks_ms_at slow (io (boot ∅))) /\
  fst (eeprom_read slow ADDR_MQ2 (snd (eeprom_write slow ADDR_MQ2 (Some zero) (boot ∅))))
    = inr None.
Proof.
  assert (H1 : EEPROM_SLOTS !! ADDR_MQ2 = Some [0; 1; 2; 3]) by reflexivity.
  assert (H2 : shadow_expired slow ADDR_MQ2 (ticks_ms_at slow (io (boot ∅))) (boot ∅) = true
               \/ write_pointers (boot ∅) !! ADDR_MQ2 = Some 0)
    by (right; reflexivity).
  assert (H3 : eeprom_write slow ADDR_MQ2 (Some zero) (boot ∅)
               = (inr tt, snd (eeprom_write slow ADDR_MQ2 (Some zero) (boot ∅))))
    by (vm_compute; reflexivity).
  assert (H4 : TTL_MS <= ticks_diff slow
                 (ticks_ms_at slow
                    (io (snd (eeprom_write slow ADDR_MQ2 (Some zero) (boot ∅)))))
                 (ticks_ms_at slow (io (boot ∅))))
    by (vm_compute; discriminate).
  repeat (split; [assumption|]).
  exact (zero_in_slot_0_reads_absent slow ADDR_MQ2 (boot ∅) _ [0; 1; 2; 3] H1 H2 H3 H4).
Defined.


(** ** The float codec *)

Lemma digits2_pos_bounds (p : positive) :
  2 ^ (Z.pos (digits2_pos p) - 1) <= Z.pos p < 2 ^ Z.pos (digits2_pos p).
Proof.
  induction p as [p IH|p IH|]; cbn [digits2_pos].
  - rewrite Pos2Z.inj_succ. replace (Z.succ (Z.pos (digits2_pos p)) - 1)
      with (Z.succ (Z.pos (digits2_pos p) - 1)) by lia.
    rewrite !Z.pow_succ_r by lia. lia.
  - rewrite Pos2Z.inj_succ. replace (Z.succ (Z.pos (digits2_pos p)) - 1)
      with (Z.succ (Z.pos (digits2_pos p) - 1)) by lia.
    rewrite !Z.pow_succ_r by lia. lia.
  - cbn. lia.
Qed.

Lemma b32_fields (s : bool) (E M : Z) :
  0 <= E < 256 -> 0 <= M < 2 ^ 23 ->
  Z.testbit (sign_bit s + E * 2 ^ 23 + M) 31 = s /\
  Z.land (Z.shiftr (sign_bit s + E * 2 ^ 23 + M) 23) 255 = E /\
  Z.land (sign_bit s + E * 2 ^ 23 + M) (2 ^ 23 - 1) = M.
Proof.
  intros HE HM.
  set (S := if s then 1 else 0).
  assert (Hb : sign_bit s + E * 2 ^ 23 + M = M + (E + 256 * S) * 2 ^ 23).
  { unfold sign_bit, S. destruct s; lia. }
  assert (HS : 0 <= S <= 1) by (unfold S; destruct s; lia).
  rewrite Hb. split; [|split].
  - rewrite Z.testbit_odd, Z.shiftr_div_pow2 by lia.
    replace (M + (E + 256 * S) * 2 ^ 23) with ((M + E * 2 ^ 23) + S * 2 ^ 31) by lia.
    rewrite Z.div_add by lia.
    rewrite Z.div_small by lia. unfold S. by destruct s.
  - rewrite Z.shiftr_div_pow2 by lia. rewrite Z.div_add by lia.
    rewrite Z.div_small by lia. change 255 with (Z.ones 8).
    rewrite Z.land_ones by lia.
    replace (0 + (E + 256 * S)) with (E + S * 2 ^ 8) by lia.
    rewrite Z.mod_add by lia. apply Z.mod_small. lia.
  - change (2 ^ 23 - 1) with (Z.ones 23). rewrite Z.land_ones by lia.
    rewrite Z.mod_add by lia. apply Z.mod_small. lia.
Qed.

Lemma bounded_b32 (m : positive) (e : Z) :
  bounded prec emax m e = true ->
  -149 <= e <= 104 /\ Z.pos m < 2 ^ 24 /\ (Z.pos m < 2 ^ 23 -> e = -149).
Proof.
  unfold bounded, canonical_mantissa, fexp, emin, prec, emax.
  intros H. apply andb_prop in H as [H1 H2].
  apply Z.eqb_eq in H1. apply Z.leb_le in H2.
  pose proof (digits2_pos_bounds m) as [Hlo Hhi].
  set (d := Z.pos (digits2_pos m)) in *.
  assert (Hd : d <= 24) by lia.
  split; [lia|]. split.
  - eapply Z.lt_le_trans; [exact Hhi|]. apply Z.pow_le_mono_r; lia.
  - intros Hsub.
    destruct (Z.le_gt_cases 24 d) as [Hge|Hlt]; [|lia].
    assert (d = 24) as Hd24 by lia. rewrite Hd24 in Hlo. cbn in Hlo. lia.
Qed.

Lemma b32_roundtrip (x : float) :
  valid_binary prec emax x = true -> b32_of_bits (bits_of_b32 x) = x.
Proof.
  destruct x as [s|s| |s m e]; intros Hv.
  - destruct (b32_fields s 0 0) as (H1 & H2 & H3); [lia..|].
    unfold b32_of_bits, bits_of_b32.
    replace (sign_bit s) with (sign_bit s + 0 * 2 ^ 23 + 0) by lia.
    rewrite H1, H2, H3. done.
  - destruct (b32_fields s 255 0) as (H1 & H2 & H3); [lia..|].
    unfold b32_of_bits, bits_of_b32.
    replace (sign_bit s + 255 * 2 ^ 23) with (sign_bit s + 255 * 2 ^ 23 + 0) by lia.
    rewrite H1, H2, H3. done.
  - reflexivity.
  - cbn [valid_binary] in Hv.
    destruct (bounded_b32 m e Hv) as (He & Hm & Hsub).
    unfold bits_of_b32.
    destruct (Z.leb_spec (2 ^ 23) (Z.pos m)) as [Hn|Hs].
    + destruct (b32_fields s (e + 150) (Z.pos m - 2 ^ 23)) as (H1 & H2 & H3); [lia..|].
      unfold b32_of_bits.
      rewrite Z.add_assoc, H1, H2, H3.
      destruct (Z.eqb_spec (e + 150) 0); [lia|].
      destruct (Z.eqb_spec (e + 150) 255); [lia|].
      replace (Z.pos m - 2 ^ 23 + 2 ^ 23) with (Z.pos m) by lia.
      f_equal. lia.
    + destruct (b32_fields s 0 (Z.pos m)) as (H1 & H2 & H3); [lia..|].
      unfold b32_of_bits.
      replace (sign_bit s + Z.pos m) with (sign_bit s + 0 * 2 ^ 23 + Z.pos m) by lia.
      rewrite H1, H2, H3. cbn [Z.eqb]. f_equal. symmetry. auto.
Qed.

Lemma le_bytes_roundtrip (w : Z) :
  0 <= w < 2 ^ 32 -> of_le_bytes (le_bytes w) = w.
Proof.
  intros Hw. unfold le_bytes, of_le_bytes. cbn [fold_right].
  change 255 with (Z.ones 8).
  rewrite !Z.land_ones, !Z.shiftr_div_pow2 by lia.
  change (2 ^ 8) with 256. change (2 ^ 16) with (256 * 256).
  change (2 ^ 24) with (256 * 256 * 256).
  rewrite <- !Z.div_div by lia.
  pose proof (Z.div_mod w 256).
  pose proof (Z.div_mod (w / 256) 256).
  pose proof (Z.div_mod (w / 256 / 256) 256).
  assert (Hq : w / 256 / 256 / 256 < 256).
  { repeat (apply Z.div_lt_upper_bound; [lia|]). lia. }
  assert (0 <= w / 256 / 256 / 256) by (repeat (apply Z.div_pos; [|lia]); lia).
  rewrite (Z.mod_small (w / 256 / 256 / 256) 256) by lia.
  lia.
Qed.

Lemma bits_of_b32_range (x : float) :
  valid_binary prec emax x = true -> 0 <= bits_of_b32 x < 2 ^ 32.
Proof.
  destruct x as [s|s| |s m e]; intros Hv; unfold bits_of_b32, sign_bit.
  - destruct s; lia.
  - destruct s; lia.
  - lia.
  - cbn [valid_binary] in Hv.
    destruct (bounded_b32 m e Hv) as (He & Hm & Hsub).
    destruct (Z.leb_spec (2 ^ 23) (Z.pos m)); destruct s; lia.
Qed.

Lemma struct_roundtrip (x : float) :
  valid_binary prec emax x = true ->
  struct_unpack_f (le_bytes (bits_of_b32 x)) = x.
Proof.
  intros Hv. unfold struct_unpack_f.
  rewrite le_bytes_roundtrip by (by apply bits_of_b32_range).
  by apply b32_roundtrip.
Qed.

Lemma packed_not_erased (x : float) :
  valid_binary prec emax x = true ->
  le_bytes (bits_of_b32 x) <> [255; 255; 255; 255].
Proof.
  intros Hv Hb. pose proof (struct_roundtrip x Hv) as Hr.
  rewrite Hb in Hr. vm_compute in Hr. subst x. vm_compute in Hb. discriminate.
Qed.

Lemma packed_cleared_zero (x : float) :
  valid_binary prec emax x = true ->
  le_bytes (bits_of_b32 x) = [0; 0; 0; 0] -> x = zero.
Proof.
  intros Hv Hb. pose proof (struct_roundtrip x Hv) as Hr.
  rewrite Hb in Hr. vm_compute in Hr. by subst x.
Qed.

Section PhysicalRead.
Variable P : platform.

Lemma read_last_value_slot name page0 i s :
  (name = "MQII"%string /\ page0 = 0 \/
   name = "MQIV"%string /\ page0 = 42 \/
   name = "TEMP"%string /\ page0 = 84) ->
  0 <= i -> page0 * PAGE_SIZE + i * 4 < 65536 ->
  fst (read_last_value P name i s)
  = inr (if i2c_read_fails_at P (io s) then None
         else decode_slot (read_cells (cells s) (page0 * PAGE_SIZE + i * 4) 4)).
Proof.
  intros Hname Hi Hhi.
  assert (Hrun : forall s1,
            cells s1 = cells s -> io s1 = io s ->
            cell_pointer s1 = page0 * PAGE_SIZE + i * 4 ->
            fst (try_except
                   (raw <- i2c_readfrom P EEPROM_ADDR 4 ;;
                    if bool_decide (raw ≠ [255; 255; 255; 255])
                       && bool_decide (raw ≠ [0; 0; 0; 0])
                    then ret (Some (struct_unpack_f raw))
                    else ret None)
                   (ret None) s1)
            = inr (if i2c_read_fails_at P (io s) then None
                   else decode_slot
                          (read_cells (cells s) (page0 * PAGE_SIZE + i * 4) 4))).
  { intros s1 Hc Hio Hp. unfold i2c_readfrom, decode_slot. run_unfold. st_simpl.
    rewrite Hio. destruct (i2c_read_fails_at P (io s)); [done|].
    st_simpl. rewrite Hc, Hp.
    by destruct (bool_decide _ && bool_decide _). }
  assert (Ha : forall a, 0 <= a < 65536 ->
            fst (try_except
                   (i2c_writeto P EEPROM_ADDR
                      [Z.land (Z.shiftr a 8) 0xFF; Z.land a 0xFF] ;;
                    raw <- i2c_readfrom P EEPROM_ADDR 4 ;;
                    if bool_decide (raw ≠ [255; 255; 255; 255])
                       && bool_decide (raw ≠ [0; 0; 0; 0])
                    then ret (Some (struct_unpack_f raw))
                    else ret None)
                   (ret None) s)
            = fst (try_except
                   (raw <- i2c_readfrom P EEPROM_ADDR 4 ;;
                    if bool_decide (raw ≠ [255; 255; 255; 255])
                       && bool_decide (raw ≠ [0; 0; 0; 0])
                    then ret (Some (struct_unpack_f raw))
                    else ret None)
                   (ret None)
                   (set_cells (cells s) a (set_trace (trace s ++ [Touch Store]) s)))).
  { intros a Hrange. unfold try_except at 1.
    erewrite bind_ok; cycle 1.
    { unfold i2c_writeto. run_unfold. rewrite decide_True by done.
      st_simpl. rewrite address_bytes by done. reflexivity. }
    reflexivity. }
  unfold PAGE_SIZE in *.
  destruct Hname as [[-> ->]|[[-> ->]|[-> ->]]];
    unfold read_last_value; cbn [String.eqb Ascii.eqb Bool.eqb];
    unfold PAGE_SIZE; rewrite Ha by lia; apply Hrun; reflexivity.
Qed.

Lemma eeprom_read_physical addr s pages name page0 w :
  EEPROM_SLOTS !! addr = Some pages ->
  NAME_MAP !! addr = Some name ->
  (name = "MQII"%string /\ page0 = 0 \/
   name = "MQIV"%string /\ page0 = 42 \/
   name = "TEMP"%string /\ page0 = 84) ->
  write_pointers s !! addr = Some w ->
  fst (eeprom_read P addr s)
  = match eeprom_ttl s !! addr with
    | Some r =>
        if ticks_diff P (ticks_ms_at P (io s)) (timestamp r) <? TTL_MS
        then inr (ttl_value r)
        else inr (if i2c_read_fails_at P (S (io s)) then None
                  else decode_slot
                         (read_cells (cells s)
                            (page0 * PAGE_SIZE + (w - 1) mod 4 * 4) 4))
    | None =>
        inr (if i2c_read_fails_at P (io s) then None
             else decode_slot
                    (read_cells (cells s)
                       (page0 * PAGE_SIZE + (w - 1) mod 4 * 4) 4))
    end.
Proof.
  intros Hslots Hname Hcases Hw.
  pose proof (Z.mod_pos_bound (w - 1) 4 ltac:(lia)) as Hi.
  assert (0 <= page0 <= 84) as Hpage
    by (destruct Hcases as [[_ ->]|[[_ ->]|[_ ->]]]; lia).
  unfold eeprom_read. rewrite bool_decide_eq_true_2 by (by eexists).
  rewrite with_lock_fst.
  unfold eeprom_ttl_contains, eeprom_ttl_getitem, ticks_ms.
  destruct (eeprom_ttl s !! addr) as [r|] eqn:Hr.
  - erewrite (bind_ok (bind _ _)); cycle 1.
    { run_unfold. st_simpl. rewrite Hr. reflexivity. }
    cbn beta iota.
    destruct (ticks_diff P (ticks_ms_at P (io s)) (timestamp r) <? TTL_MS) eqn:Hfresh.
    + erewrite (bind_ok (bind _ _)); cycle 1.
      { run_unfold. st_simpl. rewrite Hr. st_simpl. rewrite Hfresh. reflexivity. }
      reflexivity.
    + erewrite (bind_ok (bind _ _)); cycle 1.
      { run_unfold. st_simpl. rewrite Hr. st_simpl. rewrite Hfresh. reflexivity. }
      cbn beta iota.
      erewrite bind_ok by (apply write_pointers_getitem_run; st_simpl; exact Hw).
      erewrite bind_ok by (apply const_getitem_run; exact Hname).
      cbn beta zeta.
      rewrite (read_last_value_slot name page0) by (done || (unfold PAGE_SIZE; lia)).
      st_simpl. reflexivity.
  - erewrite (bind_ok (bind _ _)); cycle 1.
    { run_unfold. st_simpl. rewrite Hr. reflexivity. }
    cbn beta iota. bind_now.
    erewrite bind_ok by (apply write_pointers_getitem_run; st_simpl; exact Hw).
    erewrite bind_ok by (apply const_getitem_run; exact Hname).
    cbn beta zeta.
    rewrite (read_last_value_slot name page0) by (done || (unfold PAGE_SIZE; lia)).
    st_simpl. reflexivity.
Qed.

End PhysicalRead.

(** ** What a slot gives back *)

(** X3.  A value of the binary32 format other than 0.0 that [eeprom_write]
    has put into slot 0 of a channel comes back from [eeprom_read] once the
    ShadowRecord has become stale, provided the I2C read transfer succeeds:
    slot 0 is the slot whose write and read addresses coincide, and
    [struct.unpack] undoes [struct.pack]. *)
Theorem slot_0_round_trip (P : platform) (addr : Z) (s s1 : state) (pages : list Z)
    (x : float) :
  EEPROM_SLOTS !! addr = Some pages ->
  valid_binary prec emax x = true ->
  x <> zero ->
  shadow_expired P addr (ticks_ms_at P (io s)) s = true
  \/ write_pointers s !! addr = Some 0 ->
  eeprom_write P addr (Some x) s = (inr tt, s1) ->
  TTL_MS <= ticks_diff P (ticks_ms_at P (io s1)) (ticks_ms_at P (io s)) ->
  i2c_read_fails_at P (S (io s1)) = false ->
  fst (eeprom_read P addr s1) = inr (Some x).
Proof.
  intros Hslots Hvalid Hnz Hslot Hrun Hstale Hio.
  destruct (NAME_MAP_pages _ _ Hslots) as (name & page0 & Hname & H0 & Hcases).
  destruct (eeprom_write_returned P addr x s s1 pages Hslots)
    as (slot & a & Hs & Ha & Hcells & Hwp & Httl); [|exact Hrun|].
  { intros Hexp. destruct Hslot as [?|Hw0]; [congruence|]. exists 0. split; [done|lia]. }
  assert (slot = 0) as ->.
  { destruct (shadow_expired P addr _ s); [done|].
    destruct Hslot as [?|Hw0]; congruence. }
  unfold write_address in Ha. change (Z.to_nat 0) with 0%nat in Ha.
  rewrite H0 in Ha. injection Ha as <-.
  rewrite (eeprom_read_physical P addr s1 pages name page0 1 Hslots Hname Hcases).
  2:{ rewrite Hwp, lookup_insert_eq. by destruct (shadow_expired P addr _ s). }
  rewrite Httl, lookup_insert_eq. cbn [timestamp ttl_value].
  destruct (Z.ltb_spec (ticks_diff P (ticks_ms_at P (io s1)) (ticks_ms_at P (io s))) TTL_MS);
    [lia|].
  rewrite Hio, Hcells. change ((1 - 1) mod 4 * 4) with 0.
  rewrite (read_cells_program_cells (page0 * PAGE_SIZE + 0) (le_bytes (bits_of_b32 x))).
  unfold decode_slot.
  rewrite bool_decide_eq_true_2 by (by apply packed_not_erased).
  rewrite bool_decide_eq_true_2
    by (intros Hz; by apply Hnz, packed_cleared_zero).
  cbn [andb]. by rewrite struct_roundtrip.
Qed.

Lemma slot_0_round_trip_witness :
  EEPROM_SLOTS !! ADDR_MQ2 = Some [0; 1; 2; 3] /\
  valid_binary prec emax (decimal 2575 2) = true /\
  decimal 2575 2 <> zero /\
  (shadow_expired slow ADDR_MQ2 (ticks_ms_at slow (io (boot ∅))) (boot ∅) = true
   \/ write_pointers (boot ∅) !! ADDR_MQ2 = Some 0) /\
  eeprom_write slow ADDR_MQ2 (Some (decimal 2575 2)) (boot ∅)
    = (inr tt, snd (eeprom_write slow ADDR_MQ2 (Some (decimal 2575 2)) (boot ∅))) /\
  TTL_MS <= ticks_diff slow
              (ticks_ms_at slow
                 (io (snd (eeprom_write slow ADDR_MQ2 (Some (decimal 2575 2)) (boot ∅)))))
              (ticks_ms_at slow (io (boot ∅))) /\
  i2c_read_fails_at slow
    (S (io (snd (eeprom_write slow ADDR_MQ2 (Some (decimal 2575 2)) (boot ∅))))) = false /\
  fst (eeprom_read slow ADDR_MQ2
         (snd (eeprom_write slow ADDR_MQ2 (Some (decimal 2575 2)) (boot ∅))))
    = inr (Some (decimal 2575 2)).
Proof.
  assert (H1 : EEPROM_SLOTS !! ADDR_MQ2 = Some [0; 1; 2; 3]) by reflexivity.
  assert (H2 : valid_binary prec emax (decimal 2575 2) = true) by (vm_compute; reflexivity).
  assert (H3 : decimal 2575 2 <> zero) by (vm_compute; discriminate).
  assert (H4 : shadow_expired slow ADDR_MQ2 (ticks_ms_at slow (io (boot ∅))) (boot ∅) = true
               \/ write_pointers (boot ∅) !! ADDR_MQ2 = Some 0)
    by (right; reflexivity).
  assert (H5 : eeprom_write slow ADDR_MQ2 (Some (decimal 2575 2)) (boot ∅)
               = (inr tt, snd (eeprom_write slow ADDR_MQ2 (Some (decimal 2575 2)) (boot ∅))))
    by (vm_compute; reflexivity).
  assert (H6 : TTL_MS <= ticks_diff slow
                 (ticks_ms_at slow
                    (io (snd (eeprom_write slow ADDR_MQ2 (Some (decimal 2575 2)) (boot ∅)))))
                 (ticks_ms_at slow (io (boot ∅))))
    by (vm_compute; discriminate).
  assert (H7 : i2c_read_fails_at slow
                 (S (io (snd (eeprom_write slow ADDR_MQ2 (Some (decimal 2575 2)) (boot ∅)))))
               = false) by reflexivity.
  repeat (split; [assumption|]).
  exact (slot_0_round_trip slow ADDR_MQ2 (boot ∅) _ [0; 1; 2; 3] _ H1 H2 H3 H4 H5 H6 H7).
Defined.

(** ** The thermometer *)

Lemma forallb_below (f : Z -> bool) (n : nat) :
  forallb f (map Z.of_nat (seq 0 n)) = true ->
  forall z, 0 <= z < Z.of_nat n -> f z = true.
Proof.
  intros H z Hz. rewrite forallb_forall in H. apply H.
  apply in_map_iff. exists (Z.to_nat z). split; [lia|].
  apply in_seq. lia.
Qed.

(** The arithmetic of [read_temp] on two bytes, checked on all of them. *)
Lemma temp_bits (b0 b1 : Z) :
  0 <= b0 < 256 -> 0 <= b1 < 256 ->
  (let temp := if b1 =? 0 then b0 else Z.lor (Z.shiftl b1 8) b0 in
   if Z.land temp 0x8000 =? 0 then temp else - (Z.lxor temp 0xffff + 1))
  = int16_le b0 b1.
Proof.
  intros H0 H1.
  assert (H : forallb (fun b1 => forallb (fun b0 =>
                (let temp := if b1 =? 0 then b0 else Z.lor (Z.shiftl b1 8) b0 in
                 if Z.land temp 0x8000 =? 0 then temp else - (Z.lxor temp 0xffff + 1))
                =? int16_le b0 b1) (map Z.of_nat (seq 0 256)))
              (map Z.of_nat (seq 0 256)) = true) by (vm_compute; reflexivity).
  pose proof (forallb_below _ _ H b1 H1) as Hb1. cbv beta in Hb1.
  pose proof (forallb_below _ _ Hb1 b0 H0) as Hb0. cbv beta in Hb0.
  by apply Z.eqb_eq.
Qed.

Lemma int16_le_signed (b0 b1 : Z) :
  0 <= b0 < 256 -> 0 <= b1 < 256 ->
  - 2 ^ 15 <= int16_le b0 b1 < 2 ^ 15 /\
  (int16_le b0 b1 - (b1 * 256 + b0)) mod 2 ^ 16 = 0.
Proof.
  intros H0 H1. unfold int16_le. cbv zeta.
  destruct (Z.ltb_spec (b1 * 256 + b0) (2 ^ 15)).
  - split; [lia|]. by rewrite Z.sub_diag.
  - split; [lia|].
    replace (b1 * 256 + b0 - 2 ^ 16 - (b1 * 256 + b0)) with ((-1) * 2 ^ 16) by lia.
    by rewrite Z.mod_mul.
Qed.

Section Thermometer.
Variable P : platform.

Lemma read_temp_run rom s :
  two_bytes (scratchpad_at P (io s)) ->
  read_temp P rom s = (inr (celsius (scratchpad_at P (io s))), set_io (S (io s)) s).
Proof.
  intros [H0 H1]. unfold read_temp, read_scratch.
  erewrite bind_ok by reflexivity. cbv beta zeta.
  pose proof (temp_bits _ _ H0 H1) as Hbits. cbv zeta in Hbits.
  rewrite Hbits. reflexivity.
Qed.

End Thermometer.

(** X4.  [read_temp] takes the first two bytes of the scratchpad as a
    16-bit two's-complement number, low byte first, and returns a sixteenth
    of it: the number [t] it divides is within [-32768, 32767] and differs
    from [256 * buf[1] + buf[0]] by a multiple of 65536.  It reads the
    scratchpad once and does not raise. *)
Theorem read_temp_decodes (P : platform) (rom : Z) (s : state) :
  two_bytes (scratchpad_at P (io s)) ->
  exists t,
    - 2 ^ 15 <= t < 2 ^ 15 /\
    (t - (nth 1 (scratchpad_at P (io s)) 0 * 256 + nth 0 (scratchpad_at P (io s)) 0))
      mod 2 ^ 16 = 0 /\
    read_temp P rom s = (inr (div (of_int t) (of_int 16)), set_io (S (io s)) s).
Proof.
  intros Hbytes.
  exists (int16_le (nth 0 (scratchpad_at P (io s)) 0) (nth 1 (scratchpad_at P (io s)) 0)).
  destruct Hbytes as [H0 H1].
  destruct (int16_le_signed _ _ H0 H1) as [Hrange Hmod].
  split; [exact Hrange|]. split; [exact Hmod|].
  by apply read_temp_run.
Qed.

Lemma read_temp_decodes_witness :
  two_bytes (scratchpad_at frost (io (set_io 1 (boot ∅)))) /\
  exists t,
    - 2 ^ 15 <= t < 2 ^ 15 /\
    (t - (nth 1 (scratchpad_at frost (io (set_io 1 (boot ∅)))) 0 * 256
          + nth 0 (scratchpad_at frost (io (set_io 1 (boot ∅)))) 0))
      mod 2 ^ 16 = 0 /\
    read_temp frost 0x28 (set_io 1 (boot ∅))
      = (inr (div (of_int t) (of_int 16)), set_io (S (io (set_io 1 (boot ∅)))) (set_io 1 (boot ∅))).
Proof.
  assert (H : two_bytes (scratchpad_at frost (io (set_io 1 (boot ∅)))))
    by (unfold two_bytes; simpl; lia).
  split; [exact H|].
  exact (read_temp_decodes frost 0x28 (set_io 1 (boot ∅)) H).
Defined.

(** X5.  [read_temperature] reads the sensor twice: the first reading is
    compared with 0 and discarded, the second is what it returns.  A reading
    that is not above 0 when tested gives [None] after one read; otherwise
    the value returned is the second reading, whatever it is. *)
Theorem read_temperature_two_readings (P : platform) (rom : Z) (s : state) :
  py_list_index (ds_roms P) 0 = inr rom ->
  two_bytes (scratchpad_at P (io s)) ->
  two_bytes (scratchpad_at P (S (io s))) ->
  read_temperature P s
  = if ltb (of_int 0) (celsius (scratchpad_at P (io s)))
    then (inr (Some (celsius (scratchpad_at P (S (io s))))), set_io (S (S (io s))) s)
    else (inr None, set_io (S (io s)) s).
Proof.
  intros Hrom Hfirst Hsecond. unfold read_temperature, convert_temp, sleep_ms.
  do 2 (erewrite bind_ok by reflexivity).
  rewrite Hrom. erewrite bind_ok by reflexivity.
  rewrite (bind_ok _ _ _ _ _ (read_temp_run P rom s Hfirst)).
  destruct (ltb (of_int 0) (celsius (scratchpad_at P (io s)))); [|reflexivity].
  erewrite bind_ok by reflexivity.
  erewrite bind_ok by (apply read_temp_run; exact Hsecond).
  reflexivity.
Qed.

Lemma read_temperature_two_readings_witness :
  py_list_index (ds_roms frost) 0 = inr 0x28 /\
  two_bytes (scratchpad_at frost (io (boot ∅))) /\
  two_bytes (scratchpad_at frost (S (io (boot ∅)))) /\
  ltb (of_int 0) (celsius (scratchpad_at frost (io (boot ∅)))) = true /\
  celsius (scratchpad_at frost (S (io (boot ∅)))) = neg (of_int 1) /\
  read_temperature frost (boot ∅)
  = if ltb (of_int 0) (celsius (scratchpad_at frost (io (boot ∅))))
    then (inr (Some (celsius (scratchpad_at frost (S (io (boot ∅)))))),
          set_io (S (S (io (boot ∅)))) (boot ∅))
    else (inr None, set_io (S (io (boot ∅))) (boot ∅)).
Proof.
  assert (H1 : py_list_index (ds_roms frost) 0 = inr 0x28) by reflexivity.
  assert (H2 : two_bytes (scratchpad_at frost (io (boot ∅))))
    by (unfold two_bytes; simpl; lia).
  assert (H3 : two_bytes (scratchpad_at frost (S (io (boot ∅)))))
    by (unfold two_bytes; simpl; lia).
  split; [exact H1|]. split; [exact H2|]. split; [exact H3|].
  split; [vm_compute; reflexivity|]. split; [vm_compute; reflexivity|].
  exact (read_temperature_two_readings frost 0x28 (boot ∅) H1 H2 H3).
Defined.

(** ** Temperatures that are not above zero *)

Lemma ltb_not_positive (x : float) :
  not_positive x = true -> ltb (of_int 0) x = false.
Proof. by destruct x as [[]|[]| |[] m e]. Qed.

Lemma binary_round_aux_negative (m e : Z) (l : location) :
  not_positive (binary_round_aux prec emax true m e l) = true.
Proof.
  unfold binary_round_aux.
  destruct (shr_fexp prec emax m e l) as [mrs' e'].
  destruct (shr_fexp prec emax _ e' loc_Exact) as [mrs'' e''].
  destruct (shr_m mrs''); [done| |done].
  by destruct (e'' <=? emax - prec).
Qed.

Lemma of_int_not_positive (t : Z) : t <= 0 -> not_positive (of_int t) = true.
Proof.
  intros Ht. unfold of_int, binary_normalize.
  destruct t as [|p|p]; [done|lia|].
  unfold binary_round. destruct (shl_align _ _ _) as [mz ez].
  apply binary_round_aux_negative.
Qed.

Lemma div_16_not_positive (x : float) :
  not_positive x = true -> not_positive (div x (of_int 16)) = true.
Proof.
  change (of_int 16) with (S754_finite false 8388608 (-19)).
  destruct x as [sx|sx| |sx m e]; [by destruct sx..|done|].
  cbn [not_positive]. intros ->. unfold div, SFdiv. cbn [xorb].
  destruct (SFdiv_core_binary _ _ _ _ _ _) as [[mz ez] lz].
  apply binary_round_aux_negative.
Qed.

(** X6.  Whenever the scratchpad holds a temperature that is not above
    0 degrees, negative ones included, [read_sensor] gives [None] for the
    temperature channel after a single read of the sensor. *)
Theorem temperature_not_above_zero (P : platform) (rom : Z) (s : state) :
  py_list_index (ds_roms P) 0 = inr rom ->
  two_bytes (scratchpad_at P (io s)) ->
  int16_le (nth 0 (scratchpad_at P (io s)) 0) (nth 1 (scratchpad_at P (io s)) 0) <= 0 ->
  read_sensor P ADDR_TEMP s = (inr None, set_io (S (io s)) s).
Proof.
  intros Hrom Hbytes Hcold.
  apply (read_temperature_not_positive P rom (celsius (scratchpad_at P (io s)))).
  - exact Hrom.
  - by apply read_temp_run.
  - apply ltb_not_positive, div_16_not_positive, of_int_not_positive, Hcold.
Qed.

Lemma temperature_not_above_zero_witness :
  py_list_index (ds_roms frost) 0 = inr 0x28 /\
  two_bytes (scratchpad_at frost (io (set_io 1 (boot ∅)))) /\
  int16_le (nth 0 (scratchpad_at frost (io (set_io 1 (boot ∅)))) 0)
           (nth 1 (scratchpad_at frost (io (set_io 1 (boot ∅)))) 0) <= 0 /\
  read_sensor frost ADDR_TEMP (set_io 1 (boot ∅))
  = (inr None, set_io (S (io (set_io 1 (boot ∅)))) (set_io 1 (boot ∅))).
Proof.
  assert (H1 : py_list_index (ds_roms frost) 0 = inr 0x28) by reflexivity.
  assert (H2 : two_bytes (scratchpad_at frost (io (set_io 1 (boot ∅)))))
    by (unfold two_bytes; simpl; lia).
  assert (H3 : int16_le (nth 0 (scratchpad_at frost (io (set_io 1 (boot ∅)))) 0)
                        (nth 1 (scratchpad_at frost (io (set_io 1 (boot ∅)))) 0) <= 0)
    by (vm_compute; discriminate).
  split; [exact H1|]. split; [exact H2|]. split; [exact H3|].
  exact (temperature_not_above_zero frost 0x28 (set_io 1 (boot ∅)) H1 H2 H3).
Defined.

(** ** Properties kept along a run *)

Section Keeps.
Context (I : state -> Prop).

Lemma keeps_ret {B} (b : B) : keeps I (ret b).
Proof. by intros s. Qed.

Lemma keeps_raise {B} (e : exn) : keeps I (@raise B e).
Proof. by intros s. Qed.

Lemma keeps_lift {B} (r : exn + B) : keeps I (lift r).
Proof. by destruct r; intros s. Qed.

Lemma keeps_get {B} (g : state -> B) : keeps I (get g).
Proof. by intros s. Qed.

Lemma keeps_modify (g : state -> state) :
  (forall s, I s -> I (g s)) -> keeps I (modify g).
Proof. intros H s. apply H. Qed.

Lemma keeps_emit (e : event) :
  (forall t s, I s -> I (set_trace t s)) -> keeps I (emit e).
Proof. intros H s. apply H. Qed.

Lemma keeps_next_io :
  (forall s, I s -> I (set_io (S (io s)) s)) -> keeps I next_io.
Proof. intros H s. apply H. Qed.

Lemma keeps_bind {B C} (m : M B) (k : B -> M C) :
  keeps I m -> (forall b, keeps I (k b)) -> keeps I (bind m k).
Proof.
  intros Hm Hk s Hs. unfold bind. specialize (Hm s Hs).
  destruct (m s) as [[e|b] s1]; simpl in *; [done|].
  by apply Hk.
Qed.

Lemma keeps_with_lock {B} (l : lock) (body : M B) :
  (forall t s, I s -> I (set_trace t s)) ->
  keeps I body -> keeps I (with_lock l body).
Proof.
  intros Ht Hb s Hs. unfold with_lock.
  pose proof (keeps_bind (emit (Acquire l)) (fun _ => body)
                (keeps_emit _ Ht) (fun _ => Hb) s Hs) as H.
  destruct ((emit (Acquire l) ;; body) s) as [r s1]. simpl in *.
  by apply Ht.
Qed.

Lemma keeps_try_except {B} (body handler : M B) :
  keeps I body -> keeps I handler -> keeps I (try_except body handler).
Proof.
  intros Hb Hh s Hs. unfold try_except. specialize (Hb s Hs).
  destruct (body s) as [[e|b] s1]; simpl in *; [|done].
  by apply Hh.
Qed.

Lemma keeps_for_each {B} (l : list B) (body : B -> M unit) :
  (forall x, keeps I (body x)) -> keeps I (for_each l body).
Proof.
  intros Hb. induction l as [|x r IH]; cbn [for_each].
  - apply keeps_ret.
  - apply keeps_bind; [apply Hb|intros; apply IH].
Qed.

(** A computation that leaves alone what [I] depends on keeps [I]. *)
Lemma keeps_preserves {A B} (f : state -> A) (m : M B) :
  (forall s s', f s' = f s -> I s -> I s') ->
  preserves f m -> keeps I m.
Proof. intros Hf Hm s Hs. eapply Hf; [apply Hm|done]. Qed.

End Keeps.

Ltac keeps_step :=
  lazymatch goal with
  | |- keeps _ (ret _) => apply keeps_ret
  | |- keeps _ (raise _) => apply keeps_raise
  | |- keeps _ (lift _) => apply keeps_lift
  | |- keeps _ (get _) => apply keeps_get
  | |- keeps _ (modify _) =>
      apply keeps_modify; intros ? ?; first [assumption | cbn in *; lia | idtac]
  | |- keeps _ (emit _) => apply keeps_emit; intros ? ? ?; assumption
  | |- keeps _ next_io =>
      apply keeps_next_io; intros ? ?; first [assumption | cbn in *; lia]
  | |- keeps _ (with_lock _ _) =>
      apply keeps_with_lock; [intros ? ? ?; assumption|]
  | |- keeps _ (try_except _ _) => apply keeps_try_except
  | |- keeps _ (bind _ _) => apply keeps_bind; [|intros]
  | |- keeps _ (if ?b then _ else _) => destruct b
  | |- keeps _ (match ?x with _ => _ end) => destruct x
  | |- keeps _ (let x := _ in _) => cbv zeta
  | |- keeps _ (for_each _ _) => apply keeps_for_each; intros
  | |- keeps _ _ => solve [auto with keeps]
  end.

Create HintDb keeps.

Lemma length_dict_set_present {V} k (v e : V) d :
  dict_get k d = Some e -> length (dict_set k v d) = length d.
Proof.
  induction d as [|[k' v'] d IH]; simpl; [done|].
  case_decide; simpl; [done|]. intros Hget. by rewrite IH.
Qed.

Section Capacity.
Variable P : platform.

Lemma update_cache_capacity addr val : keeps within_capacity (update_cache P addr val).
Proof.
  intros s Hs. unfold within_capacity in *.
  destruct (update_cache_run P addr val s) as (s' & -> & Hc & _).
  cbn [snd]. rewrite Hc.
  pose proof (length_make_room (cache s) Hs).
  pose proof (length_dict_set addr (CacheEntry val (ticks_ms_at P (io s)))
                (make_room (cache s))).
  lia.
Qed.

Lemma check_ttl_capacity addr : keeps within_capacity (check_ttl P addr).
Proof.
  intros s Hs. unfold within_capacity in *.
  destruct (check_ttl_run P addr s) as (s' & -> & _ & _ & Hc & _).
  cbn [snd]. rewrite Hc.
  destruct (dict_get addr (cache s)); [|done].
  destruct (TTL_MS <? _); [|done].
  pose proof (length_dict_del_le addr (cache s)). lia.
Qed.

Lemma request_cache_tier_capacity addr :
  keeps within_capacity (request_cache_tier P addr).
Proof.
  intros s Hs. unfold within_capacity in *.
  destruct (dict_get addr (cache s)) as [e|] eqn:He.
  - assert (Hrun : exists s', request_cache_tier P addr s = (inr (Some (value e, "Cache"%string, ticks_ms_at P (io s))), s')
        /\ cache s' = dict_set addr (CacheEntry (value e) (ticks_ms_at P (io s))) (cache s)).
    { eexists. split.
      - unfold request_cache_tier. erewrite with_lock_run; [reflexivity|].
        unfold cache_contains, cache_set_last_used, cache_getitem, cache_get, ticks_ms.
        run_unfold.
        do 6 (st_simpl; rewrite ?He, ?dict_get_set, ?decide_True by done).
        reflexivity.
      - done. }
    destruct Hrun as (s' & -> & Hc). cbn [snd]. rewrite Hc.
    by rewrite (length_dict_set_present _ _ _ _ He).
  - destruct (request_cache_tier_miss P addr s He) as (s' & -> & Hd & _).
    cbn [snd]. unfold data_of in Hd. by injection Hd as ->.
Qed.

Lemma request_data_capacity addr : keeps within_capacity (request_data P addr).
Proof.
  assert (Hc : forall s s' : state, cache s' = cache s ->
            within_capacity s -> within_capacity s').
  { unfold within_capacity. by intros s s' ->. }
  assert (H1 : forall a, keeps within_capacity (eeprom_read P a)).
  { intros a. apply (keeps_preserves _ data_of); [|apply eeprom_read_frame].
    intros s s' [= Heq _]. by apply Hc. }
  assert (H2 : forall a, keeps within_capacity (read_sensor P a)).
  { intros a. apply (keeps_preserves _ data_of); [|apply read_sensor_frame].
    intros s s' [= Heq _]. by apply Hc. }
  assert (H3 : forall a v, keeps within_capacity (eeprom_write P a v)).
  { intros a v. eapply keeps_preserves; [|apply eeprom_write_frame].
    intros s s' [= Heq _]. by apply Hc. }
  pose proof update_cache_capacity. pose proof check_ttl_capacity.
  pose proof request_cache_tier_capacity.
  unfold request_data, request_lookup, request_store_tier, request_sensor_tier,
    eeprom_ttl_getitem, ticks_ms.
  repeat keeps_step.
Qed.

Lemma sensor_loop_step_capacity addr :
  keeps within_capacity (sensor_loop_step P addr).
Proof.
  assert (Hc : forall s s' : state, cache s' = cache s ->
            within_capacity s -> within_capacity s').
  { unfold within_capacity. by intros s s' ->. }
  assert (H2 : forall a, keeps within_capacity (read_sensor P a)).
  { intros a. apply (keeps_preserves _ data_of); [|apply read_sensor_frame].
    intros s s' [= Heq _]. by apply Hc. }
  assert (H3 : forall a v, keeps within_capacity (eeprom_write P a v)).
  { intros a v. eapply keeps_preserves; [|apply eeprom_write_frame].
    intros s s' [= Heq _]. by apply Hc. }
  pose proof update_cache_capacity.
  unfold sensor_loop_step. repeat keeps_step.
Qed.

End Capacity.

Lemma keeps_run_script (I : state -> Prop) (P : platform) :
  (forall addr, keeps I (request_data P addr)) ->
  (forall addr, keeps I (sensor_loop_step P addr)) ->
  forall ops s, I s -> I (snd (run_script P ops s)).
Proof.
  intros Hreq Href ops. induction ops as [|[addr|addr] rest IH]; intros s Hs.
  - done.
  - cbn [run_script]. specialize (Hreq addr s Hs).
    destruct (request_data P addr s) as [o s1]. cbn [snd] in Hreq.
    specialize (IH s1 Hreq). by destruct (run_script P rest s1).
  - cbn [run_script]. apply IH, Href, Hs.
Qed.

(** X7.  Requests and refreshes in any order, and the rounds of
    [sensor_loop], keep the cache within [CACHE_SIZE] entries: the expiry of
    [check_ttl], the hit of the cache tier and every [update_cache] of the
    two flows leave a cache that was within capacity within capacity. *)
Theorem capacity_kept (P : platform) (ops : list op) (rounds : nat) (s : state) :
  within_capacity s ->
  within_capacity (snd (run_script P ops s)) /\
  within_capacity (snd (sensor_loop P rounds s)).
Proof.
  intros Hs. split.
  - apply keeps_run_script; [apply request_data_capacity|apply sensor_loop_step_capacity|done].
  - revert s Hs. change (keeps within_capacity (sensor_loop P rounds)).
    induction rounds as [|n IH]; cbn [sensor_loop]; [apply keeps_ret|].
    pose proof (sensor_loop_step_capacity P). unfold sleep_ms.
    repeat keeps_step.
Qed.


Lemma capacity_kept_witness :
  within_capacity (boot ∅) /\
  within_capacity (snd (run_script lab demo_script (boot ∅))) /\
  within_capacity (snd (sensor_loop lab 2 (boot ∅))).
Proof.
  assert (H : within_capacity (boot ∅))
    by (unfold within_capacity, CACHE_SIZE; simpl; lia).
  split; [exact H|].
  exact (capacity_kept lab demo_script 2 (boot ∅) H).
Defined.

Section Pointers.
Variable P : platform.

Lemma pointers_of (s s' : state) :
  write_pointers s' = write_pointers s -> pointers_in_range s -> pointers_in_range s'.
Proof. unfold pointers_in_range. by intros ->. Qed.

Lemma write_pointers_setitem_range addr p :
  0 <= p < 4 -> keeps pointers_in_range (write_pointers_setitem addr p).
Proof.
  intros Hp s Hs a Ha. unfold write_pointers_setitem. run_unfold. st_simpl.
  destruct (decide (a = addr)) as [->|Hne].
  - exists p. by rewrite lookup_insert_eq.
  - rewrite lookup_insert_ne by done. by apply Hs.
Qed.

Lemma write_to_eeprom_range page i val :
  keeps pointers_in_range (write_to_eeprom P page i val).
Proof.
  apply (keeps_preserves _ besides_cells); [|apply write_to_eeprom_frame].
  intros s s' [= _ Heq _]. by apply pointers_of.
Qed.

Lemma eeprom_write_scan_range addr val now slots :
  keeps pointers_in_range (eeprom_write_scan P addr val now slots).
Proof.
  pose proof write_to_eeprom_range.
  assert (Hset : forall i, keeps pointers_in_range
                             (write_pointers_setitem addr ((i + 1) mod 4))).
  { intros i. apply write_pointers_setitem_range. apply Z.mod_pos_bound. lia. }
  induction slots as [|[i page] rest IH]; cbn [eeprom_write_scan].
  - apply keeps_ret.
  - unfold eeprom_ttl_contains, eeprom_ttl_getitem. repeat keeps_step.
Qed.

Lemma eeprom_write_range addr val : keeps pointers_in_range (eeprom_write P addr val).
Proof.
  pose proof write_to_eeprom_range. pose proof eeprom_write_scan_range.
  assert (Hset : forall i, keeps pointers_in_range
                             (write_pointers_setitem addr ((i + 1) mod 4))).
  { intros i. apply write_pointers_setitem_range. apply Z.mod_pos_bound. lia. }
  unfold eeprom_write, ticks_ms, const_getitem, write_pointers_getitem,
    eeprom_ttl_setitem.
  repeat keeps_step.
Qed.

Lemma request_data_range addr : keeps pointers_in_range (request_data P addr).
Proof.
  assert (H1 : forall a, keeps pointers_in_range (eeprom_read P a)).
  { intros a. apply (keeps_preserves _ data_of); [|apply eeprom_read_frame].
    intros s s' [= _ Heq _]. by apply pointers_of. }
  assert (H2 : forall a, keeps pointers_in_range (read_sensor P a)).
  { intros a. apply (keeps_preserves _ data_of); [|apply read_sensor_frame].
    intros s s' [= _ Heq _]. by apply pointers_of. }
  assert (H3 : forall a v, keeps pointers_in_range (update_cache P a v)).
  { intros a v. apply (keeps_preserves _ store_of); [|apply update_cache_store].
    intros s s' [= Heq _]. by apply pointers_of. }
  assert (H4 : forall a, keeps pointers_in_range (check_ttl P a)).
  { intros a. eapply keeps_preserves; [|apply check_ttl_frame].
    intros s s' [= Heq _]. by apply pointers_of. }
  assert (H5 : forall a, keeps pointers_in_range (request_cache_tier P a)).
  { intros a s Hs. eapply pointers_of; [|done].
    destruct (dict_get a (cache s)) as [e|] eqn:He.
    - destruct (request_cache_tier_hit P a e s He) as (s' & -> & [= Heq _] & _). done.
    - destruct (request_cache_tier_miss P a s He) as (s' & -> & [= _ Heq _] & _). done. }
  pose proof eeprom_write_range.
  unfold request_data, request_lookup, request_store_tier, request_sensor_tier,
    eeprom_ttl_getitem, ticks_ms.
  repeat keeps_step.
Qed.

Lemma sensor_loop_step_range addr : keeps pointers_in_range (sensor_loop_step P addr).
Proof.
  assert (H2 : forall a, keeps pointers_in_range (read_sensor P a)).
  { intros a. apply (keeps_preserves _ data_of); [|apply read_sensor_frame].
    intros s s' [= _ Heq _]. by apply pointers_of. }
  assert (H3 : forall a v, keeps pointers_in_range (update_cache P a v)).
  { intros a v. apply (keeps_preserves _ store_of); [|apply update_cache_store].
    intros s s' [= Heq _]. by apply pointers_of. }
  pose proof eeprom_write_range.
  unfold sensor_loop_step. repeat keeps_step.
Qed.

End Pointers.

(** The write pointers at start-up. *)
Lemma boot_pointers (m : gmap Z Z) : pointers_in_range (boot m).
Proof.
  intros addr [pages Hslots]. cbn [write_pointers boot].
  unfold EEPROM_SLOTS in Hslots. revert Hslots.
  rewrite !lookup_insert, !lookup_empty.
  repeat case_decide; intros [= <-]; subst; (exists 0; split; [reflexivity|lia]).
Qed.

(** X8.  Requests and refreshes in any order, and the rounds of
    [sensor_loop], keep the write pointer of every configured channel a slot
    index from 0 to 3, whether they return or raise: [eeprom_write] only
    ever assigns a remainder modulo 4, and nothing else assigns a write
    pointer. *)
Theorem pointers_kept (P : platform) (ops : list op) (rounds : nat) (s : state) :
  pointers_in_range s ->
  pointers_in_range (snd (run_script P ops s)) /\
  pointers_in_range (snd (sensor_loop P rounds s)).
Proof.
  intros Hs. split.
  - apply keeps_run_script; [apply request_data_range|apply sensor_loop_step_range|done].
  - revert s Hs. change (keeps pointers_in_range (sensor_loop P rounds)).
    induction rounds as [|n IH]; cbn [sensor_loop]; [apply keeps_ret|].
    pose proof (sensor_loop_step_range P). unfold sleep_ms.
    repeat keeps_step.
Qed.

Lemma pointers_kept_witness :
  pointers_in_range (boot ∅) /\
  pointers_in_range (snd (run_script lab demo_script (boot ∅))) /\
  pointers_in_range (snd (sensor_loop lab 2 (boot ∅))).
Proof.
  split; [exact (boot_pointers ∅)|].
  exact (pointers_kept lab demo_script 2 (boot ∅) (boot_pointers ∅)).
Defined.

(** ** The runs of a request, tier by tier *)

Section Cases.
Variable P : platform.

(** The runs of [request_data], tier by tier. *)
Lemma request_data_cases addr s :
  exists sb,
    check_ttl P addr (set_total_access (total_access s + 1) s) = (inr tt, sb) /\
    store_of sb = store_of s /\
    counters_of sb = (total_access s + 1, cache_hits s, eeprom_hits s) /\
    ((exists e s',
        dict_get addr (cache sb) = Some e /\
        request_data P addr s
          = (inr (value e, "Cache"%string, ticks_ms_at P (io sb)), s') /\
        cache s'
          = dict_set addr (CacheEntry (value e) (ticks_ms_at P (io sb))) (cache sb) /\
        store_of s' = store_of s /\
        counters_of s' = (total_access s + 1, cache_hits s + 1, eeprom_hits s))
     \/
     (dict_get addr (cache sb) = None /\
      exists sc,
        data_of sc = data_of sb /\ io sc = io sb /\
        ((exists e sd,
            eeprom_read P addr sc = (inl e, sd) /\
            data_of sd = data_of sb /\
            request_data P addr s = (inl e, sd))
         \/
         (exists val sd s',
            eeprom_read P addr sc = (inr val, sd) /\ usable val = true /\
            request_data P addr s
              = (match eeprom_ttl sd !! addr with
                 | Some r => inr (val, "EEPROM"%string, timestamp r)
                 | None => inl KeyError
                 end, s') /\
            cache s'
              = dict_set addr (CacheEntry val (ticks_ms_at P (io sd)))
                  (make_room (cache sb)) /\
            store_of s' = store_of s /\
            counters_of s' = (total_access s + 1, cache_hits s, eeprom_hits s + 1))
         \/
         (exists val sd,
            eeprom_read P addr sc = (inr val, sd) /\ usable val = false /\
            data_of sd = data_of sb /\
            request_data P addr s = request_sensor_tier P addr sd)))).
Proof.
  set (sa := set_total_access (total_access s + 1) s).
  destruct (check_ttl_run P addr sa) as (sb & Hb & Hsb & Hnb & _).
  exists sb. split; [exact Hb|]. split; [exact Hsb|].
  split; [rewrite Hnb; reflexivity|].
  assert (Hlook : forall r sc,
            (hit <- request_cache_tier P addr ;;
             match hit with
             | Some r => ret (Some r)
             | None => request_store_tier P addr
             end) sb = (r, sc) ->
            request_lookup P addr s = (r, sc)).
  { intros r sc Hrun. unfold request_lookup. bind_now. fold sa.
    rewrite (bind_ok _ _ _ _ _ Hb). exact Hrun. }
  subst sa. unfold counters_of in Hnb. st_simpl.
  injection Hnb as Hn1 Hn2 Hn3.
  destruct (dict_get addr (cache sb)) as [e|] eqn:He.
  - (* served from the cache *)
    left. exists e.
    assert (Hrun : exists s', request_cache_tier P addr sb
                = (inr (Some (value e, "Cache"%string, ticks_ms_at P (io sb))), s') /\
              cache s' = dict_set addr (CacheEntry (value e) (ticks_ms_at P (io sb)))
                           (cache sb) /\
              store_of s' = store_of sb /\
              counters_of s' = (total_access sb, cache_hits sb + 1, eeprom_hits sb)).
    { eexists. split.
      - unfold request_cache_tier. erewrite with_lock_run; [reflexivity|].
        unfold cache_contains, cache_set_last_used, cache_getitem, cache_get, ticks_ms.
        run_unfold.
        do 6 (st_simpl; rewrite ?He, ?dict_get_set, ?decide_True by done).
        reflexivity.
      - done. }
    destruct Hrun as (sc & Hc & Hcache & Hstore & Hnc).
    exists sc. split; [done|]. split; [|split; [done|split]].
    + unfold request_data.
      erewrite (bind_ok (request_lookup P addr)); cycle 1.
      { apply Hlook. rewrite (bind_ok _ _ _ _ _ Hc). reflexivity. }
      reflexivity.
    + by rewrite Hstore.
    + rewrite Hnc. by rewrite Hn1, Hn2, Hn3.
  - right. split; [done|].
    destruct (request_cache_tier_miss P addr sb He) as (sc & Hc & Hdc & Hio).
    exists sc. split; [done|]. split; [done|].
    destruct (eeprom_read P addr sc) as [[e|val] sd] eqn:Hread;
      pose proof (preserved _ _ _ _ _ (eeprom_read_frame P addr) Hread) as Hdd.
    + (* the store raises *)
      left. exists e, sd. split; [done|]. split; [congruence|].
      unfold request_data.
      erewrite (bind_err (request_lookup P addr)); cycle 1.
      { apply Hlook. rewrite (bind_ok _ _ _ _ _ Hc).
        unfold request_store_tier. rewrite (bind_err _ _ _ _ _ Hread). reflexivity. }
      reflexivity.
    + destruct (usable val) eqn:Huse.
      * (* served from the store *)
        right. left.
        destruct (update_cache_run P addr val
                    (set_trace (trace sd ++ [Acquire cache_lock]) sd))
          as (se & Hu & Hce & _).
        pose proof (preserved _ _ _ _ _ (update_cache_counters P addr val) Hu) as Hne.
        pose proof (preserved _ _ _ _ _ (update_cache_store P addr val) Hu) as Hse.
        set (sf := set_eeprom_hits (eeprom_hits se + 1)
                     (set_trace (trace se ++ [Release cache_lock]) se)).
        assert (Hstore : forall r sg,
                  (r0 <- eeprom_ttl_getitem addr ;;
                   ret (Some (val, "EEPROM"%string, timestamp r0))) sf = (r, sg) ->
                  request_lookup P addr s = (r, sg)).
        { intros r sg Hrun. apply Hlook. rewrite (bind_ok _ _ _ _ _ Hc).
          unfold request_store_tier. rewrite (bind_ok _ _ _ _ _ Hread).
          rewrite Huse.
          erewrite bind_ok by (apply with_lock_run; exact Hu).
          bind_now. exact Hrun. }
        unfold eeprom_ttl_getitem in Hstore.
        assert (Httl : eeprom_ttl sf = eeprom_ttl sd).
        { subst sf. st_simpl. unfold store_of in Hse. st_simpl. congruence. }
        exists val, sd, (set_trace (trace sf ++ [Touch Store]) sf).
        split; [done|]. split; [done|]. split; [|split; [|split]].
        -- unfold request_data. rewrite <- Httl.
           destruct (eeprom_ttl sf !! addr) as [r|] eqn:Hr.
           ++ erewrite (bind_ok (request_lookup P addr)); cycle 1.
              { apply Hstore. run_unfold. st_simpl. rewrite Hr. reflexivity. }
              reflexivity.
           ++ erewrite (bind_err (request_lookup P addr)); cycle 1.
              { apply Hstore. run_unfold. st_simpl. rewrite Hr. reflexivity. }
              reflexivity.
        -- subst sf. st_simpl. rewrite Hce. st_simpl.
           unfold data_of in Hdd, Hdc. congruence.
        -- subst sf. unfold data_of, store_of in *. st_simpl. congruence.
        -- subst sf. unfold data_of, counters_of in *. st_simpl. congruence.
      * (* the sensor is asked *)
        right. right. exists val, sd. split; [done|]. split; [done|].
        split; [congruence|].
        unfold request_data.
        erewrite (bind_ok (request_lookup P addr)); cycle 1.
        { apply Hlook. rewrite (bind_ok _ _ _ _ _ Hc).
          unfold request_store_tier. rewrite (bind_ok _ _ _ _ _ Hread).
          rewrite Huse. reflexivity. }
        reflexivity.
Qed.

(** The runs of the sensor tier of [request_data]. *)
Lemma request_sensor_tier_cases addr sd :
  (exists e s1,
     read_sensor P addr sd = (inl e, s1) /\
     request_sensor_tier P addr sd = (inl e, s1) /\
     data_of s1 = data_of sd)
  \/
  (exists s1 e s',
     read_sensor P addr sd = (inr None, s1) /\
     request_sensor_tier P addr sd = (inl e, s') /\
     data_of s' = data_of sd)
  \/
  (exists x s1,
     read_sensor P addr sd = (inr (Some x), s1) /\
     data_of s1 = data_of sd /\
     ((exists e s2,
         eeprom_write P addr (Some x) (set_io (S (io s1)) s1) = (inl e, s2) /\
         request_sensor_tier P addr sd = (inl e, s2) /\
         cache s2 = cache sd /\ counters_of s2 = counters_of sd)
      \/
      (exists s2 s',
         eeprom_write P addr (Some x) (set_io (S (io s1)) s1) = (inr tt, s2) /\
         request_sensor_tier P addr sd
           = (inr (Some x, "Sensor"%string, ticks_ms_at P (io s1)), s') /\
         cache s'
           = dict_set addr (CacheEntry (Some x) (ticks_ms_at P (io s2)))
               (make_room (cache sd)) /\
         store_of s' = store_of s2 /\
         counters_of s' = counters_of sd))).
Proof.
  unfold request_sensor_tier.
  destruct (read_sensor P addr sd) as [[e|[x|]] s1] eqn:Hsensor;
    pose proof (preserved _ _ _ _ _ (read_sensor_frame P addr) Hsensor) as Hd1.
  - left. exists e, s1. split; [done|]. by rewrite (bind_err _ _ _ _ _ Hsensor).
  - right. right. exists x, s1. split; [done|]. split; [done|].
    rewrite (bind_ok _ _ _ _ _ Hsensor).
    rewrite (bind_ok _ _ _ _ _ (ticks_ms_run P s1)).
    destruct (eeprom_write P addr (Some x) (set_io (S (io s1)) s1))
      as [[e|[]] s2] eqn:Hw;
      pose proof (preserved _ _ _ _ _ (eeprom_write_frame P addr (Some x)) Hw) as Hd2;
      cbn beta in Hd2; st_simpl; injection Hd2 as Hc2 Hn2.
    + left. exists e, s2. split; [done|]. rewrite (bind_err _ _ _ _ _ Hw).
      unfold data_of, counters_of in *. st_simpl. split; [done|]. split; congruence.
    + right.
      destruct (update_cache_run P addr (Some x)
                  (set_trace (trace s2 ++ [Acquire cache_lock]) s2))
        as (s3 & Hu & Hc3 & _).
      pose proof (preserved _ _ _ _ _ (update_cache_counters P addr (Some x)) Hu) as Hn3.
      pose proof (preserved _ _ _ _ _ (update_cache_store P addr (Some x)) Hu) as Hs3.
      exists s2, (set_trace (trace s3 ++ [Release cache_lock]) s3).
      split; [done|]. rewrite (bind_ok _ _ _ _ _ Hw).
      erewrite bind_ok by (apply with_lock_run; exact Hu).
      split; [done|]. unfold data_of, counters_of in *. st_simpl.
      split; [|split]; [| done |]; congruence.
  - right. left.
    destruct (eeprom_write_None P addr (set_io (S (io s1)) s1)) as (e & s2 & Hw & Hd2).
    exists s1, e, s2. split; [done|].
    rewrite (bind_ok _ _ _ _ _ Hsensor).
    rewrite (bind_ok _ _ _ _ _ (ticks_ms_run P s1)).
    rewrite (bind_err _ _ _ _ _ Hw). split; [done|].
    rewrite Hd2. exact Hd1.
Qed.

(** The runs of the body of the loop of [sensor_loop]. *)
Lemma sensor_loop_step_cases addr s :
  (exists e s1,
     read_sensor P addr s = (inl e, s1) /\
     sensor_loop_step P addr s = (inl e, s1) /\ data_of s1 = data_of s)
  \/
  (exists s1,
     read_sensor P addr s = (inr None, s1) /\
     sensor_loop_step P addr s = (inr tt, s1) /\ data_of s1 = data_of s)
  \/
  (exists x s1,
     read_sensor P addr s = (inr (Some x), s1) /\
     data_of s1 = data_of s /\
     ((exists e s2,
         eeprom_write P addr (Some x) s1 = (inl e, s2) /\
         sensor_loop_step P addr s = (inl e, s2) /\
         cache s2 = cache s /\ counters_of s2 = counters_of s)
      \/
      (exists s2 s',
         eeprom_write P addr (Some x) s1 = (inr tt, s2) /\
         sensor_loop_step P addr s = (inr tt, s') /\
         cache s'
           = dict_set addr (CacheEntry (Some x) (ticks_ms_at P (io s2)))
               (make_room (cache s)) /\
         store_of s' = store_of s2 /\
         counters_of s' = counters_of s /\
         io s' = S (io s2)))).
Proof.
  unfold sensor_loop_step.
  destruct (read_sensor P addr s) as [[e|[x|]] s1] eqn:Hsensor;
    pose proof (preserved _ _ _ _ _ (read_sensor_frame P addr) Hsensor) as Hd1.
  - left. exists e, s1. split; [done|]. by rewrite (bind_err _ _ _ _ _ Hsensor).
  - right. right. exists x, s1. split; [done|]. split; [done|].
    rewrite (bind_ok _ _ _ _ _ Hsensor).
    destruct (eeprom_write P addr (Some x) s1) as [[e|[]] s2] eqn:Hw;
      pose proof (preserved _ _ _ _ _ (eeprom_write_frame P addr (Some x)) Hw) as Hd2;
      cbn beta in Hd2; injection Hd2 as Hc2 Hn2.
    + left. exists e, s2. split; [done|]. rewrite (bind_err _ _ _ _ _ Hw).
      unfold data_of, counters_of in *. st_simpl. split; [done|]. split; congruence.
    + right.
      destruct (update_cache_run P addr (Some x) s2) as (s3 & Hu & Hc3 & Hio3).
      pose proof (preserved _ _ _ _ _ (update_cache_counters P addr (Some x)) Hu) as Hn3.
      pose proof (preserved _ _ _ _ _ (update_cache_store P addr (Some x)) Hu) as Hs3.
      exists s2, s3.
      split; [done|]. rewrite (bind_ok _ _ _ _ _ Hw).
      split; [done|]. unfold data_of, counters_of in *. st_simpl.
      split; [|split; [|split]]; [| done | | done]; congruence.
  - right. left. exists s1. split; [done|].
    by rewrite (bind_ok _ _ _ _ _ Hsensor).
Qed.

End Cases.

(** ** Which tier answers *)

Section Served.
Variable P : platform.

Lemma sensor_tier_not_cache addr s :
  served_by "Cache" (fst (request_sensor_tier P addr s)) = false.
Proof.
  destruct (request_sensor_tier P addr s) as [[e|[[v l] t]] s'] eqn:Hs; [done|].
  by destruct (sensor_tier_inv P _ _ _ _ _ _ Hs) as (-> & _).
Qed.

Lemma request_data_miss addr s sb :
  check_ttl P addr (set_total_access (total_access s + 1) s) = (inr tt, sb) ->
  dict_get addr (cache sb) = None ->
  served_by "Cache" (fst (request_data P addr s)) = false.
Proof.
  intros Hb Hmiss.
  destruct (request_data_cases P addr s) as (sb' & Hb' & _ & _ & Hcases).
  assert (sb' = sb) as -> by congruence.
  destruct Hcases as [(e & s' & He & _)|(_ & sc & _ & _ & Hcases)]; [congruence|].
  destruct Hcases as [(e & sd & _ & _ & ->)|[(val & sd & s' & _ & _ & -> & _)|
                      (val & sd & _ & _ & _ & ->)]].
  - done.
  - by destruct (eeprom_ttl sd !! addr).
  - apply sensor_tier_not_cache.
Qed.

End Served.

(** X9.  [request_data] answers from the cache exactly when the channel has
    an entry whose age on the clock does not exceed [TTL_MS]; the answer is
    the value of the entry, stamped with the time of the request. *)
Theorem cache_tier_serves (P : platform) (addr : Z) (s : state) :
  match dict_get addr (cache s) with
  | Some e =>
      if TTL_MS <? ticks_diff P (ticks_ms_at P (io s)) (last_used e)
      then served_by "Cache" (fst (request_data P addr s)) = false
      else fst (request_data P addr s)
           = inr (value e, "Cache"%string, ticks_ms_at P (S (io s)))
  | None => served_by "Cache" (fst (request_data P addr s)) = false
  end.
Proof.
  destruct (check_ttl_run P addr (set_total_access (total_access s + 1) s))
    as (sb & Hb & _ & _ & Hcache & Hio).
  st_simpl.
  destruct (dict_get addr (cache s)) as [e|] eqn:He.
  - destruct (TTL_MS <? ticks_diff P (ticks_ms_at P (io s)) (last_used e)).
    + apply (request_data_miss P addr s sb Hb).
      rewrite Hcache, dict_get_del. by rewrite decide_True.
    + destruct (request_data_cases P addr s) as (sb' & Hb' & _ & _ & Hcases).
      assert (sb' = sb) as -> by congruence.
      destruct Hcases as [(e' & s' & He' & -> & _)|(Hmiss & _)].
      * rewrite Hcache, He in He'. injection He' as <-. by rewrite Hio.
      * rewrite Hcache in Hmiss. congruence.
  - apply (request_data_miss P addr s sb Hb). by rewrite Hcache.
Qed.

(** X10.  When the cache has no entry for a configured channel and the
    ShadowRecord of the channel is younger than [TTL_MS] and holds a number
    that is not NaN, [request_data] returns that number at level "EEPROM"
    with the time of the ShadowRecord, puts it into the cache, counts an
    EEPROM hit and leaves the write pointers, the ShadowRecords and the cells
    of the EEPROM as they were. *)
Theorem store_tier_serves (P : platform) (addr : Z) (s : state) (t : Z) (x : float) :
  dict_get addr (cache s) = None ->
  is_Some (NAME_MAP !! addr) ->
  eeprom_ttl s !! addr = Some (TtlRecord t (Some x)) ->
  isnan x = false ->
  ticks_diff P (ticks_ms_at P (io s)) t < TTL_MS ->
  exists s' t',
    request_data P addr s = (inr (Some x, "EEPROM"%string, t), s') /\
    dict_get addr (cache s') = Some (CacheEntry (Some x) t') /\
    store_of s' = store_of s /\
    counters_of s' = (total_access s + 1, cache_hits s, eeprom_hits s + 1).
Proof.
  intros Hmiss Hname Hr Hnan Hfresh.
  destruct (check_ttl_run P addr (set_total_access (total_access s + 1) s))
    as (sb0 & Hb0 & _ & _ & Hcache & Hio).
  st_simpl. rewrite Hmiss in Hcache, Hio.
  destruct (request_data_cases P addr s) as (sb & Hb & Hsb & Hnb & Hcases).
  assert (sb0 = sb) as -> by congruence.
  destruct Hcases as [(e & s' & He & _)|(_ & sc & Hsc & Hiosc & Hcases)];
    [congruence|].
  apply data_of_inv in Hsc as (_ & Hsc & _).
  apply store_of_inv in Hsc as (_ & Httl & _).
  apply store_of_inv in Hsb as (_ & Httl' & _).
  destruct (eeprom_read_fresh P addr (TtlRecord t (Some x)) sc Hname) as (sd' & Hread).
  { congruence. }
  { cbn [timestamp]. congruence. }
  cbn [ttl_value] in Hread.
  assert (Hsd : eeprom_ttl sd' !! addr = Some (TtlRecord t (Some x))).
  { pose proof (preserved _ _ _ _ _ (eeprom_read_frame P addr) Hread) as Hd.
    apply data_of_inv in Hd as (_ & Hd & _).
    apply store_of_inv in Hd as (_ & Hd & _). congruence. }
  destruct Hcases as [(e & sd & Hread' & _)|[(val & sd & s' & Hread' & _ & Hrun & Hc & Hs & Hn)|
                      (val & sd & Hread' & Huse & _)]].
  - congruence.
  - assert (val = Some x /\ sd = sd') as [-> ->] by (split; congruence).
    rewrite Hsd in Hrun. cbn [timestamp] in Hrun.
    exists s', (ticks_ms_at P (io sd')). split; [done|]. split; [|done].
    rewrite Hc, dict_get_set. by rewrite decide_True.
  - assert (val = Some x) as -> by congruence.
    cbn in Huse. by rewrite Hnan in Huse.
Qed.

Lemma store_tier_serves_witness :
  dict_get ADDR_TEMP (cache (set_cache [] after_first_request)) = None /\
  is_Some (NAME_MAP !! ADDR_TEMP) /\
  eeprom_ttl (set_cache [] after_first_request) !! ADDR_TEMP
    = Some (TtlRecord 40 (Some (of_int 25))) /\
  isnan (of_int 25) = false /\
  ticks_diff lab (ticks_ms_at lab (io (set_cache [] after_first_request))) 40 < TTL_MS /\
  exists s' t',
    request_data lab ADDR_TEMP (set_cache [] after_first_request)
      = (inr (Some (of_int 25), "EEPROM"%string, 40), s') /\
    dict_get ADDR_TEMP (cache s') = Some (CacheEntry (Some (of_int 25)) t') /\
    store_of s' = store_of (set_cache [] after_first_request) /\
    counters_of s'
      = (total_access (set_cache [] after_first_request) + 1,
         cache_hits (set_cache [] after_first_request),
         eeprom_hits (set_cache [] after_first_request) + 1).
Proof.
  assert (H1 : dict_get ADDR_TEMP (cache (set_cache [] after_first_request)) = None)
    by reflexivity.
  assert (H2 : is_Some (NAME_MAP !! ADDR_TEMP)) by (by eexists).
  assert (H3 : eeprom_ttl (set_cache [] after_first_request) !! ADDR_TEMP
               = Some (TtlRecord 40 (Some (of_int 25)))) by (vm_compute; reflexivity).
  assert (H4 : isnan (of_int 25) = false) by reflexivity.
  assert (H5 : ticks_diff lab (ticks_ms_at lab (io (set_cache [] after_first_request))) 40
               < TTL_MS) by (vm_compute; reflexivity).
  repeat (split; [assumption|]).
  exact (store_tier_serves lab ADDR_TEMP _ 40 (of_int 25) H1 H2 H3 H4 H5).
Defined.

(** ** Counters and values along a run *)

Section Invariants.
Variable P : platform.

Lemma request_data_counters addr : keeps counters_consistent (request_data P addr).
Proof.
  intros s (H1 & H2 & H3). unfold counters_consistent.
  destruct (request_data_cases P addr s) as (sb & Hb & Hsb & Hnb & Hcases).
  destruct Hcases as [(e & s' & _ & -> & _ & _ & Hn)|(_ & sc & Hsc & _ & Hcases)].
  - cbn [snd]. apply counters_of_inv in Hn as (-> & -> & ->). lia.
  - apply data_of_inv in Hsc as (_ & _ & Hnc). rewrite Hnb in Hnc.
    destruct Hcases as [(e & sd & _ & Hd & ->)|[(val & sd & s' & _ & _ & -> & _ & _ & Hn)|
                        (val & sd & _ & _ & Hd & ->)]].
    + cbn [snd]. apply data_of_inv in Hd as (_ & _ & Hd).
      rewrite Hnb in Hd. apply counters_of_inv in Hd as (-> & -> & ->). lia.
    + cbn [snd]. apply counters_of_inv in Hn as (-> & -> & ->). lia.
    + pose proof (sensor_tier_counters P addr sd) as Hs.
      apply data_of_inv in Hd as (_ & _ & Hd).
      rewrite Hd, Hnb in Hs. apply counters_of_inv in Hs as (-> & -> & ->). lia.
Qed.

Lemma sensor_loop_step_consistent addr :
  keeps counters_consistent (sensor_loop_step P addr).
Proof.
  intros s Hs. unfold counters_consistent in *.
  pose proof (sensor_loop_step_counters P addr s) as Hn.
  unfold counters_of at 2 in Hn.
  apply counters_of_inv in Hn as (-> & -> & ->). done.
Qed.

Lemma holds_values_set addr x t c :
  (forall k e, dict_get k c = Some e -> value e <> None) ->
  forall k e, dict_get k (dict_set addr (CacheEntry (Some x) t) (make_room c)) = Some e ->
              value e <> None.
Proof.
  intros Hc k e. rewrite dict_get_set. case_decide.
  - by intros [= <-].
  - unfold make_room. destruct c as [|y r]; [done|].
    destruct (CACHE_SIZE <=? _); [|apply Hc].
    rewrite dict_get_del. case_decide; [done|apply Hc].
Qed.

Lemma check_ttl_values addr s sb :
  check_ttl P addr s = (inr tt, sb) -> holds_values s -> holds_values sb.
Proof.
  intros Hb Hs k e.
  destruct (check_ttl_run P addr s) as (sb' & Hb' & _ & _ & Hcache & _).
  assert (sb' = sb) as -> by congruence.
  rewrite Hcache. destruct (dict_get addr (cache s)); [|apply Hs].
  destruct (TTL_MS <? _); [|apply Hs].
  rewrite dict_get_del. case_decide; [done|apply Hs].
Qed.

(** What [request_data] returns and leaves when no entry of the cache holds
    [None]. *)
Lemma request_data_values addr s :
  holds_values s ->
  returned_none (fst (request_data P addr s)) = false /\
  holds_values (snd (request_data P addr s)).
Proof.
  intros Hs.
  destruct (request_data_cases P addr s) as (sb & Hb & Hsb & Hnb & Hcases).
  assert (Hvb : holds_values sb) by (by apply (check_ttl_values addr _ sb Hb)).
  destruct Hcases as [(e & s' & He & -> & Hc & _)|(_ & sc & Hsc & _ & Hcases)].
  - cbn [fst snd]. split.
    + specialize (Hvb _ _ He). by destruct (value e).
    + intros k e'. rewrite Hc, dict_get_set. case_decide; [|apply Hvb].
      intros [= <-]. cbn. by apply (Hvb addr).
  - destruct Hcases as [(e & sd & _ & Hd & ->)|[(val & sd & s' & _ & Huse & -> & Hc & _)|
                        (val & sd & _ & _ & Hd & ->)]].
    + cbn [fst snd]. split; [done|].
      apply data_of_inv in Hd as (Hd & _). unfold holds_values. by rewrite Hd.
    + cbn [fst snd]. destruct val as [x|]; [|done]. split.
      * by destruct (eeprom_ttl sd !! addr).
      * unfold holds_values. rewrite Hc. by apply holds_values_set.
    + apply data_of_inv in Hd as (Hd & _).
      destruct (request_sensor_tier_cases P addr sd)
        as [(e & s1 & _ & -> & Hd1)|[(s1 & e & s' & _ & -> & Hd1)|
            (x & s1 & _ & Hd1 & [(e & s2 & _ & -> & Hc2 & _)|(s2 & s' & _ & -> & Hc2 & _)])]];
        cbn [fst snd]; (split; [done|]); unfold holds_values.
      * apply data_of_inv in Hd1 as (-> & _). by rewrite Hd.
      * apply data_of_inv in Hd1 as (-> & _). by rewrite Hd.
      * by rewrite Hc2, Hd.
      * rewrite Hc2, Hd. by apply holds_values_set.
Qed.

Lemma sensor_loop_step_values addr : keeps holds_values (sensor_loop_step P addr).
Proof.
  intros s Hs.
  destruct (sensor_loop_step_cases P addr s)
    as [(e & s1 & _ & -> & Hd1)|[(s1 & _ & -> & Hd1)|
        (x & s1 & _ & Hd1 & [(e & s2 & _ & -> & Hc2 & _)|(s2 & s' & _ & -> & Hc2 & _)])]];
    cbn [snd]; unfold holds_values.
  - by apply data_of_inv in Hd1 as (-> & _).
  - by apply data_of_inv in Hd1 as (-> & _).
  - by rewrite Hc2.
  - rewrite Hc2. by apply holds_values_set.
Qed.

End Invariants.

(** X11.  Over a script of requests and refreshes, and over the rounds of
    [sensor_loop], the two hit counters stay non-negative and their sum
    never exceeds [total_access]: the hit rate of the main loop is at most
    100 percent. *)
Theorem counters_kept (P : platform) (ops : list op) (rounds : nat) (s : state) :
  counters_consistent s ->
  counters_consistent (snd (run_script P ops s)) /\
  counters_consistent (snd (sensor_loop P rounds s)).
Proof.
  intros Hs. split.
  - apply keeps_run_script;
      [apply request_data_counters|apply sensor_loop_step_consistent|done].
  - revert s Hs. change (keeps counters_consistent (sensor_loop P rounds)).
    induction rounds as [|n IH]; cbn [sensor_loop]; [apply keeps_ret|].
    pose proof (sensor_loop_step_consistent P). unfold sleep_ms.
    repeat keeps_step.
Qed.

Lemma counters_kept_witness :
  counters_consistent (boot ∅) /\
  counters_consistent (snd (run_script lab demo_script (boot ∅))) /\
  counters_consistent (snd (sensor_loop lab 2 (boot ∅))).
Proof.
  assert (H : counters_consistent (boot ∅))
    by (unfold counters_consistent; simpl; lia).
  split; [exact H|].
  exact (counters_kept lab demo_script 2 (boot ∅) H).
Defined.

(** X12.  As long as no entry of the cache holds [None], which is so at
    start-up, no request of a script returns [None] as its value, whatever
    tier answers: a request either raises or returns a number.  Refreshes
    and requests leave the cache without [None]. *)
Theorem requests_return_numbers (P : platform) (ops : list op) (s : state) :
  holds_values s ->
  Forall (fun o => returned_none o = false) (fst (run_script P ops s)) /\
  holds_values (snd (run_script P ops s)).
Proof.
  revert s. induction ops as [|[addr|addr] rest IH]; intros s Hs.
  - by split.
  - cbn [run_script].
    destruct (request_data_values P addr s Hs) as [Ho Hs1].
    destruct (request_data P addr s) as [o s1]. cbn [fst snd] in *.
    destruct (IH s1 Hs1) as [Hos Hs2].
    destruct (run_script P rest s1) as [os s2]. cbn [fst snd] in *.
    split; [by apply Forall_cons|done].
  - cbn [run_script]. apply IH. by apply sensor_loop_step_values.
Qed.

Lemma requests_return_numbers_witness :
  holds_values (boot ∅) /\
  Forall (fun o => returned_none o = false) (fst (run_script lab demo_script (boot ∅))) /\
  holds_values (snd (run_script lab demo_script (boot ∅))).
Proof.
  assert (H : holds_values (boot ∅)) by (intros k e; discriminate).
  split; [exact H|].
  exact (requests_return_numbers lab demo_script (boot ∅) H).
Defined.

(** ** The lock of the store *)

Section Appends.
Context (ok : event -> Prop).

Lemma appends_ret {B} (b : B) : appends ok (ret b).
Proof. intros s. exists []. by rewrite app_nil_r. Qed.

Lemma appends_raise {B} (e : exn) : appends ok (@raise B e).
Proof. intros s. exists []. by rewrite app_nil_r. Qed.

Lemma appends_lift {B} (r : exn + B) : appends ok (lift r).
Proof. destruct r; [apply appends_raise|apply appends_ret]. Qed.

Lemma appends_get {B} (g : state -> B) : appends ok (get g).
Proof. intros s. exists []. by rewrite app_nil_r. Qed.

Lemma appends_modify (g : state -> state) :
  (forall s, trace (g s) = trace s) -> appends ok (modify g).
Proof. intros H s. exists []. cbn. by rewrite H, app_nil_r. Qed.

Lemma appends_emit (e : event) : ok e -> appends ok (emit e).
Proof. intros H s. exists [e]. split; [done|]. by apply Forall_singleton. Qed.

Lemma appends_next_io : appends ok next_io.
Proof. intros s. exists []. by rewrite app_nil_r. Qed.

Lemma appends_bind {B C} (m : M B) (k : B -> M C) :
  appends ok m -> (forall b, appends ok (k b)) -> appends ok (bind m k).
Proof.
  intros Hm Hk s. unfold bind. destruct (Hm s) as (t & Ht & Hok).
  destruct (m s) as [[e|b] s1]; cbn [snd] in *; [by exists t|].
  destruct (Hk b s1) as (t' & Ht' & Hok').
  exists (t ++ t'). split; [|by apply Forall_app].
  by rewrite Ht', Ht, app_assoc.
Qed.

Lemma appends_try_except {B} (body handler : M B) :
  appends ok body -> appends ok handler -> appends ok (try_except body handler).
Proof.
  intros Hb Hh s. unfold try_except. destruct (Hb s) as (t & Ht & Hok).
  destruct (body s) as [[e|b] s1]; cbn [snd] in *; [|by exists t].
  destruct (Hh s1) as (t' & Ht' & Hok').
  exists (t ++ t'). split; [|by apply Forall_app].
  by rewrite Ht', Ht, app_assoc.
Qed.

End Appends.

Create HintDb appends.

Ltac appends_step :=
  lazymatch goal with
  | |- appends _ (ret _) => apply appends_ret
  | |- appends _ (raise _) => apply appends_raise
  | |- appends _ (lift _) => apply appends_lift
  | |- appends _ (get _) => apply appends_get
  | |- appends _ (emit _) => apply appends_emit; reflexivity
  | |- appends _ next_io => apply appends_next_io
  | |- appends _ (modify _) => apply appends_modify; reflexivity
  | |- appends _ (try_except _ _) => apply appends_try_except
  | |- appends _ (bind _ _) => apply appends_bind; [|intros]
  | |- appends _ (if ?b then _ else _) => destruct b
  | |- appends _ (match ?x with _ => _ end) => destruct x
  | |- appends _ (let x := _ in _) => cbv zeta
  | |- appends _ _ => solve [auto with appends]
  end.

(** The log of a [with] block whose body appends [t]. *)
Lemma with_lock_trace {B} (l : lock) (body : M B) (ok : event -> Prop) :
  appends ok body ->
  forall s, exists t,
    trace (snd (with_lock l body s)) = trace s ++ Acquire l :: t ++ [Release l] /\
    Forall ok t.
Proof.
  intros Hb s. destruct (Hb (set_trace (trace s ++ [Acquire l]) s)) as (t & Ht & Hok).
  exists t. split; [|done].
  destruct (body (set_trace (trace s ++ [Acquire l]) s)) as [r s1] eqn:Hrun.
  rewrite (with_lock_run _ _ _ _ _ Hrun). cbn [snd] in *. st_simpl.
  rewrite Ht. st_simpl. by rewrite <- !app_assoc.
Qed.

(** Accesses made while their lock is held are disciplined. *)
Lemma disciplined_touches (r : resource) (held : list lock) (t rest : list event) :
  lock_of r ∈ held ->
  Forall (fun e => e = Touch r) t ->
  disciplined held (t ++ rest) = disciplined held rest.
Proof.
  intros Hheld Ht. induction Ht as [|e t -> _ IH]; [done|].
  cbn [app disciplined]. by rewrite bool_decide_eq_true_2.
Qed.

Section StoreLocked.
Variable P : platform.

Lemma i2c_writeto_appends dev payload :
  appends (fun e => e = Touch Store) (i2c_writeto P dev payload).
Proof.
  unfold i2c_writeto. appends_step; [appends_step|]. intros.
  case_decide; [|appends_step].
  destruct payload as [|h [|l [|d [|? ?]]]]; repeat appends_step.
Qed.

Lemma eeprom_write_bytes_from_appends addr i data :
  appends (fun e => e = Touch Store) (eeprom_write_bytes_from P addr i data).
Proof.
  revert i. induction data as [|b rest IH]; intros i; cbn [eeprom_write_bytes_from].
  - appends_step.
  - pose proof i2c_writeto_appends. unfold sleep_ms. repeat appends_step.
Qed.

Lemma write_to_eeprom_appends page i val :
  appends (fun e => e = Touch Store) (write_to_eeprom P page i val).
Proof.
  pose proof eeprom_write_bytes_from_appends.
  unfold write_to_eeprom, eeprom_write_bytes. repeat appends_step.
Qed.

Lemma eeprom_write_scan_appends addr val now slots :
  appends (fun e => e = Touch Store) (eeprom_write_scan P addr val now slots).
Proof.
  pose proof write_to_eeprom_appends.
  induction slots as [|[i page] rest IH]; cbn [eeprom_write_scan].
  - appends_step.
  - unfold eeprom_ttl_contains, eeprom_ttl_getitem, write_pointers_setitem.
    repeat appends_step.
Qed.

Lemma read_last_value_appends name offset :
  appends (fun e => e = Touch Store) (read_last_value P name offset).
Proof.
  pose proof i2c_writeto_appends.
  unfold read_last_value, i2c_readfrom. repeat appends_step.
Qed.

End StoreLocked.

(** X13.  Whatever its arguments and whether it returns or raises,
    [eeprom_write] first takes [eeprom_lock], last releases it, and in
    between touches nothing but the store; so does [eeprom_read] for a
    channel of [NAME_MAP], and for any other address it logs nothing.  The
    events both append are therefore disciplined. *)
Theorem store_accesses_locked (P : platform) (addr : Z) (val : pyval) (s : state) :
  (exists t,
     trace (snd (eeprom_write P addr val s))
       = trace s ++ Acquire eeprom_lock :: t ++ [Release eeprom_lock] /\
     Forall (fun e => e = Touch Store) t /\
     disciplined [] (Acquire eeprom_lock :: t ++ [Release eeprom_lock]) = true) /\
  (exists t,
     trace (snd (eeprom_read P addr s))
       = (if bool_decide (is_Some (NAME_MAP !! addr))
          then trace s ++ Acquire eeprom_lock :: t ++ [Release eeprom_lock]
          else trace s) /\
     Forall (fun e => e = Touch Store) t /\
     disciplined [] (Acquire eeprom_lock :: t ++ [Release eeprom_lock]) = true).
Proof.
  assert (Hd : forall t, Forall (fun e => e = Touch Store) t ->
            disciplined [] (Acquire eeprom_lock :: t ++ [Release eeprom_lock]) = true).
  { intros t Ht. cbn [disciplined].
    rewrite (disciplined_touches Store) by (done || set_solver). done. }
  split.
  - unfold eeprom_write.
    match goal with
    | |- context [with_lock eeprom_lock ?b s] =>
        assert (Hb : appends (fun e => e = Touch Store) b)
    end.
    { pose proof (eeprom_write_scan_appends P). pose proof write_to_eeprom_appends.
      unfold ticks_ms, const_getitem, write_pointers_getitem, write_pointers_setitem,
        eeprom_ttl_setitem.
      repeat appends_step. }
    destruct (with_lock_trace eeprom_lock _ _ Hb s) as (t & Ht & Hok). exists t. eauto.
  - unfold eeprom_read. case_bool_decide.
    + match goal with
      | |- context [with_lock eeprom_lock ?b s] =>
          assert (Hb : appends (fun e => e = Touch Store) b)
      end.
      { pose proof (read_last_value_appends P).
        unfold eeprom_ttl_contains, eeprom_ttl_getitem, ticks_ms, const_getitem,
          write_pointers_getitem.
        repeat appends_step. }
      destruct (with_lock_trace eeprom_lock _ _ Hb s) as (t & Ht & Hok). exists t. eauto.
    + exists []. by split.
Qed.

(** ** What a write leaves for the reads *)

Lemma program_cells_after a a' data m :
  a + Z.of_nat (length data) <= a' -> program_cells a data m !! a' = m !! a'.
Proof.
  revert a m. induction data as [|b rest IH]; intros a m Hle; [done|].
  cbn [program_cells length] in *. rewrite IH by lia. apply lookup_insert_ne. lia.
Qed.

Lemma read_cells_outside a data m a' n :
  a' + Z.of_nat n <= a \/ a + Z.of_nat (length data) <= a' ->
  read_cells (program_cells a data m) a' n = read_cells m a' n.
Proof.
  revert a'. induction n as [|n IH]; intros a' Hout; [done|].
  cbn [read_cells]. rewrite IH by lia. f_equal. unfold cell.
  destruct Hout as [Hout|Hout].
  - by rewrite program_cells_before by lia.
  - by rewrite program_cells_after by lia.
Qed.

Lemma le_bytes_length (w : Z) : length (le_bytes w) = 4%nat.
Proof. done. Qed.

Lemma EEPROM_SLOTS_cases addr pages :
  EEPROM_SLOTS !! addr = Some pages ->
  addr = ADDR_TEMP /\ pages = [84; 85; 86; 87] \/
  addr = ADDR_MQ2 /\ pages = [0; 1; 2; 3] \/
  addr = ADDR_MQ7 /\ pages = [42; 43; 44; 45].
Proof.
  unfold EEPROM_SLOTS. rewrite !lookup_insert, !lookup_empty.
  repeat case_decide; intros [= <-]; eauto 10.
Qed.

Lemma write_address_cases pages slot a :
  0 <= slot < 4 ->
  write_address pages slot = Some a ->
  exists page, pages !! Z.to_nat slot = Some page /\ a = page * PAGE_SIZE + slot.
Proof.
  unfold write_address. intros Hslot Ha.
  destruct (pages !! Z.to_nat slot) as [page|]; [|done].
  injection Ha as <-. eauto.
Qed.

(** X14.  Of the cells [eeprom_read] can read, that is the sixteen cells from
    the first page of a channel on, a successful [eeprom_write] changes none
    unless it writes slot 0 of that same channel: a write for another
    channel, and a write to slot 1, 2 or 3 of the channel itself, leave them
    as they were. *)
Theorem writes_seen_by_reads (P : platform) (addr other : Z) (x : float)
    (s s' : state) (pages pages' : list Z) (page0 j : Z) :
  EEPROM_SLOTS !! addr = Some pages ->
  EEPROM_SLOTS !! other = Some pages' ->
  pages' !! 0%nat = Some page0 ->
  0 <= j < 4 ->
  (exists p, write_pointers s !! addr = Some p /\ 0 <= p < 4 /\
             (other = addr -> p <> 0)) ->
  (other = addr -> shadow_expired P addr (ticks_ms_at P (io s)) s = false) ->
  eeprom_write P addr (Some x) s = (inr tt, s') ->
  read_cells (cells s') (read_address page0 j) 4
  = read_cells (cells s) (read_address page0 j) 4.
Proof.
  intros Hslots Hslots' H0 Hj (p & Hp & Hrange & Hsame) Hfresh Hrun.
  destruct (eeprom_write_returned P addr x s s' pages Hslots)
    as (slot & a & Hslot & Ha & Hcells & _); [|exact Hrun|].
  { intros _. eauto. }
  assert (Hslot' : 0 <= slot < 4 /\ (other = addr -> slot <> 0)).
  { destruct (shadow_expired P addr _ s) eqn:Hexp.
    - subst slot. split; [lia|]. intros Heq. by specialize (Hfresh Heq).
    - rewrite Hp in Hslot. injection Hslot as <-. done. }
  destruct Hslot' as [Hslot4 Hslot0].
  destruct (write_address_cases _ _ _ Hslot4 Ha) as (page & Hpage & ->).
  rewrite Hcells. apply read_cells_outside. rewrite le_bytes_length.
  unfold read_address, PAGE_SIZE.
  assert (slot = 0 \/ slot = 1 \/ slot = 2 \/ slot = 3) as Hs by lia.
  destruct (EEPROM_SLOTS_cases _ _ Hslots) as [[-> ->]|[[-> ->]|[-> ->]]];
    destruct (EEPROM_SLOTS_cases _ _ Hslots') as [[-> ->]|[[-> ->]|[-> ->]]];
    injection H0 as <-;
    destruct Hs as [-> | [-> | [-> | ->]]]; cbn in Hpage; injection Hpage as <-;
    try lia; exfalso; by apply Hslot0.
Qed.

Lemma writes_seen_by_reads_witness :
  EEPROM_SLOTS !! ADDR_MQ2 = Some [0; 1; 2; 3] /\
  EEPROM_SLOTS !! ADDR_MQ2 = Some [0; 1; 2; 3] /\
  [0; 1; 2; 3] !! 0%nat = Some 0 /\
  0 <= 1 < 4 /\
  (exists p, write_pointers (snd (eeprom_write later ADDR_MQ2 (Some (of_int 2)) (boot ∅)))
               !! ADDR_MQ2 = Some p /\ 0 <= p < 4 /\ (ADDR_MQ2 = ADDR_MQ2 -> p <> 0)) /\
  (ADDR_MQ2 = ADDR_MQ2 ->
   shadow_expired later ADDR_MQ2
     (ticks_ms_at later (io (snd (eeprom_write later ADDR_MQ2 (Some (of_int 2)) (boot ∅)))))
     (snd (eeprom_write later ADDR_MQ2 (Some (of_int 2)) (boot ∅))) = false) /\
  eeprom_write later ADDR_MQ2 (Some (of_int 3))
    (snd (eeprom_write later ADDR_MQ2 (Some (of_int 2)) (boot ∅)))
    = (inr tt, two_writes ∅ (of_int 2) (of_int 3)) /\
  read_cells (cells (two_writes ∅ (of_int 2) (of_int 3))) (read_address 0 1) 4
  = read_cells (cells (snd (eeprom_write later ADDR_MQ2 (Some (of_int 2)) (boot ∅))))
      (read_address 0 1) 4.
Proof.
  assert (H1 : EEPROM_SLOTS !! ADDR_MQ2 = Some [0; 1; 2; 3]) by reflexivity.
  assert (H3 : [0; 1; 2; 3] !! 0%nat = Some 0) by reflexivity.
  assert (H4 : 0 <= 1 < 4) by lia.
  assert (H5 : exists p,
             write_pointers (snd (eeprom_write later ADDR_MQ2 (Some (of_int 2)) (boot ∅)))
               !! ADDR_MQ2 = Some p /\ 0 <= p < 4 /\ (ADDR_MQ2 = ADDR_MQ2 -> p <> 0)).
  { exists 1. split; [vm_compute; reflexivity|]. split; [lia|]. intros _. lia. }
  assert (H6 : ADDR_MQ2 = ADDR_MQ2 ->
               shadow_expired later ADDR_MQ2
                 (ticks_ms_at later
                    (io (snd (eeprom_write later ADDR_MQ2 (Some (of_int 2)) (boot ∅)))))
                 (snd (eeprom_write later ADDR_MQ2 (Some (of_int 2)) (boot ∅))) = false).
  { intros _. vm_compute. reflexivity. }
  assert (H7 : eeprom_write later ADDR_MQ2 (Some (of_int 3))
                 (snd (eeprom_write later ADDR_MQ2 (Some (of_int 2)) (boot ∅)))
               = (inr tt, two_writes ∅ (of_int 2) (of_int 3))).
  { vm_compute. reflexivity. }
  split; [exact H1|]. split; [exact H1|]. split; [exact H3|]. split; [exact H4|].
  split; [exact H5|]. split; [exact H6|]. split; [exact H7|].
  exact (writes_seen_by_reads later ADDR_MQ2 ADDR_MQ2 (of_int 3) _ _ _ _ 0 1
           H1 H1 H3 H4 H5 H6 H7).
Defined.

(** ** Saving values one after the other *)

Section SaveRun.
Variable P : platform.

Lemma write_to_eeprom_next page off x s pc s' :
  aligned (page, off) -> page * PAGE_SIZE + off + 4 <= 65536 ->
  write_to_eeprom P page off (Some x) s = (inr pc, s') ->
  cells s' = program_cells (page * PAGE_SIZE + off) (le_bytes (bits_of_b32 x)) (cells s) /\
  io s' = io s /\
  aligned pc /\ cursor_address pc = page * PAGE_SIZE + off + 4.
Proof.
  unfold aligned, cursor_address. cbn [fst snd].
  intros (Hp & Ho & Hm) Hhi Hrun.
  destruct (write_to_eeprom_outcome P page off x s) as (s1 & Hrun1 & Hcells).
  { unfold PAGE_SIZE in *. lia. } { unfold PAGE_SIZE in *. lia. }
  pose proof (preserved _ _ _ _ _ (write_to_eeprom_frame P page off (Some x)) Hrun) as Hf.
  unfold programmed in Hcells. cbn [length le_bytes] in Hcells.
  rewrite Hrun in Hrun1.
  destruct (first_failure P (io s) (page * PAGE_SIZE + off) 4); [discriminate|].
  injection Hrun1 as -> ->.
  split; [done|]. split; [unfold besides_cells in Hf; congruence|].
  unfold next_cursor, PAGE_SIZE in *.
  pose proof (Z.div_mod off 4 ltac:(lia)) as Hdiv. rewrite Hm in Hdiv.
  destruct (Z.leb_spec 32 (off + 4)); cbn [fst snd].
  - change (0 mod 4) with 0. lia.
  - replace ((off + 4) mod 4) with 0; [lia|].
    replace (off + 4) with (off + 1 * 4) by lia. by rewrite Z.mod_add by lia.
Qed.

Lemma save_data_next sensor_type name page0 x c s c' s' :
  sensor_region sensor_type name page0 ->
  aligned (cursor_of sensor_type c) ->
  cursor_address (cursor_of sensor_type c) + 4 <= 65536 ->
  save_data P (Some x) sensor_type c s = (inr c', s') ->
  cells s'
    = program_cells (cursor_address (cursor_of sensor_type c))
        (le_bytes (bits_of_b32 x)) (cells s) /\
  io s' = io s /\
  aligned (cursor_of sensor_type c') /\
  cursor_address (cursor_of sensor_type c')
    = cursor_address (cursor_of sensor_type c) + 4.
Proof.
  intros Hregion Hal Hhi Hrun.
  destruct Hregion as [(-> & _)|[(-> & _)|(-> & _)]];
    unfold save_data, cursor_of in *; cbn [String.eqb Ascii.eqb Bool.eqb] in *;
    unfold cursor_address in Hhi at 1; cbn [fst snd] in Hhi;
    apply bind_inv in Hrun as ([p' o'] & s1 & Hw & Hret);
    injection Hret as <- <-;
    destruct (write_to_eeprom_next _ _ _ _ _ _ Hal Hhi Hw)
      as (Hcells & Hio & Hal' & Haddr);
    cbn [mq2_page mq2_offset mq7_page mq7_offset therm_page therm_offset fst snd];
    unfold cursor_address at 1 2; cbn [fst snd]; done.
Qed.

Lemma program_values_before a a' n values m :
  a' + Z.of_nat n <= a ->
  read_cells (program_values a values m) a' n = read_cells m a' n.
Proof.
  revert a m. induction values as [|v rest IH]; intros a m Hle; [done|].
  cbn [program_values]. rewrite IH by lia.
  apply read_cells_outside. lia.
Qed.

Lemma program_values_lookup a values m k v :
  values !! k = Some v ->
  read_cells (program_values a values m) (a + 4 * Z.of_nat k) 4
  = le_bytes (bits_of_b32 v).
Proof.
  revert a m k. induction values as [|v0 rest IH]; intros a m k Hk; [done|].
  cbn [program_values]. destruct k as [|k].
  - injection Hk as ->. rewrite Z.add_0_r.
    rewrite program_values_before by (cbn; lia).
    apply (read_cells_program_cells a (le_bytes (bits_of_b32 v))).
  - cbn in Hk. replace (a + 4 * Z.of_nat (S k)) with (a + 4 + 4 * Z.of_nat k) by lia.
    by apply IH.
Qed.

Lemma save_all_next sensor_type name page0 values c s c' s' :
  sensor_region sensor_type name page0 ->
  aligned (cursor_of sensor_type c) ->
  cursor_address (cursor_of sensor_type c) + 4 * Z.of_nat (length values) <= 65536 ->
  save_all P values sensor_type c s = (inr c', s') ->
  cells s' = program_values (cursor_address (cursor_of sensor_type c)) values (cells s) /\
  io s' = io s /\
  aligned (cursor_of sensor_type c') /\
  cursor_address (cursor_of sensor_type c')
    = cursor_address (cursor_of sensor_type c) + 4 * Z.of_nat (length values).
Proof.
  intros Hregion. revert c s.
  induction values as [|v rest IH]; intros c s Hal Hhi Hrun.
  - cbn in Hrun. injection Hrun as <- <-. cbn.
    split; [done|]. split; [done|]. split; [done|lia].
  - cbn [length] in Hhi. cbn [save_all program_values] in *.
    apply bind_inv in Hrun as (c1 & s1 & Hrun1 & Hrun).
    destruct (save_data_next sensor_type name page0 v c s c1 s1 Hregion Hal)
      as (Hcells & Hio & Hal1 & Haddr1); [lia|done|].
    destruct (IH c1 s1 Hal1) as (Hcells' & Hio' & Hal' & Haddr'); [lia|done|].
    rewrite Hcells', Hcells, Haddr1. split; [done|]. split; [congruence|].
    split; [done|]. cbn [length]. lia.
Qed.

End SaveRun.

(** X15.  Values of the binary32 format other than 0.0 that [save_data] has
    stored for a sensor type, one call after the other with every call
    having returned, starting from the cursors the module is imported with
    and staying within the 4096 bytes of the AT24C32, are what
    [read_last_value] returns for that sensor: the value saved as number [k]
    comes back at [offset=k], when the I2C read transfer succeeds.  The
    cursor of the sensor type then stands [4 * n] bytes after the start of
    its region; no bound on it is checked. *)
Theorem saved_values_read_back (P : platform) (sensor_type name : string) (page0 : Z)
    (values : list float) (s s' : state) (c' : cursors) :
  sensor_region sensor_type name page0 ->
  page0 * PAGE_SIZE + 4 * Z.of_nat (length values) <= 4096 ->
  Forall (fun v => valid_binary prec emax v = true /\ v <> zero) values ->
  save_all P values sensor_type initial_cursors s = (inr c', s') ->
  cursor_address (cursor_of sensor_type c')
    = page0 * PAGE_SIZE + 4 * Z.of_nat (length values) /\
  forall k v, values !! k = Some v ->
    fst (read_last_value P name (Z.of_nat k) s')
    = inr (if i2c_read_fails_at P (io s') then None else Some v).
Proof.
  intros Hregion Hroom Hvalues Hrun.
  assert (Hstart : aligned (cursor_of sensor_type initial_cursors) /\
                   cursor_address (cursor_of sensor_type initial_cursors)
                   = page0 * PAGE_SIZE).
  { destruct Hregion as [(-> & _ & ->)|[(-> & _ & ->)|(-> & _ & ->)]];
      by vm_compute. }
  destruct Hstart as [Hal Haddr].
  destruct (save_all_next P sensor_type name page0 values initial_cursors s c' s'
              Hregion Hal)
    as (Hcells & Hio & _ & Haddr'); [lia|done|].
  split; [lia|].
  intros k v Hk.
  pose proof (lookup_lt_Some _ _ _ Hk) as Hlt.
  rewrite (read_last_value_slot P name page0).
  - destruct (i2c_read_fails_at P (io s')); [done|]. f_equal.
    rewrite Hcells, Haddr.
    replace (Z.of_nat k * 4) with (4 * Z.of_nat k) by lia.
    rewrite (program_values_lookup _ _ _ _ _ Hk).
    rewrite Forall_lookup in Hvalues. destruct (Hvalues _ _ Hk) as [Hvalid Hnz].
    unfold decode_slot.
    rewrite bool_decide_eq_true_2 by (by apply packed_not_erased).
    rewrite bool_decide_eq_true_2 by (intros Hz; by apply Hnz, packed_cleared_zero).
    cbn [andb]. by rewrite struct_roundtrip.
  - destruct Hregion as [(_ & -> & ->)|[(_ & -> & ->)|(_ & -> & ->)]]; auto.
  - lia.
  - lia.
Qed.

Lemma saved_values_read_back_witness :
  sensor_region "MQ7" "MQIV" 42 /\
  42 * PAGE_SIZE
    + 4 * Z.of_nat (length (map of_int [21; 22; 23; 24; 25; 26; 27; 28; 29])) <= 4096 /\
  Forall (fun v => valid_binary prec emax v = true /\ v <> zero)
    (map of_int [21; 22; 23; 24; 25; 26; 27; 28; 29]) /\
  save_all lab (map of_int [21; 22; 23; 24; 25; 26; 27; 28; 29]) "MQ7"
    initial_cursors (boot ∅)
    = (inr (Cursors 0 0 43 4 84 0),
       snd (save_all lab (map of_int [21; 22; 23; 24; 25; 26; 27; 28; 29]) "MQ7"
              initial_cursors (boot ∅))) /\
  cursor_address (cursor_of "MQ7" (Cursors 0 0 43 4 84 0))
    = 42 * PAGE_SIZE
      + 4 * Z.of_nat (length (map of_int [21; 22; 23; 24; 25; 26; 27; 28; 29])) /\
  forall k v, map of_int [21; 22; 23; 24; 25; 26; 27; 28; 29] !! k = Some v ->
    fst (read_last_value lab "MQIV" (Z.of_nat k)
           (snd (save_all lab (map of_int [21; 22; 23; 24; 25; 26; 27; 28; 29]) "MQ7"
                   initial_cursors (boot ∅))))
    = inr (if i2c_read_fails_at lab
                (io (snd (save_all lab (map of_int [21; 22; 23; 24; 25; 26; 27; 28; 29])
                            "MQ7" initial_cursors (boot ∅))))
           then None else Some v).
Proof.
  assert (H1 : sensor_region "MQ7" "MQIV" 42) by (right; left; done).
  assert (H2 : 42 * PAGE_SIZE
               + 4 * Z.of_nat (length (map of_int [21; 22; 23; 24; 25; 26; 27; 28; 29]))
               <= 4096) by (vm_compute; discriminate).
  assert (H3 : Forall (fun v => valid_binary prec emax v = true /\ v <> zero)
                 (map of_int [21; 22; 23; 24; 25; 26; 27; 28; 29])).
  { repeat (apply Forall_cons; split; [split; [vm_compute; reflexivity|vm_compute; discriminate]|]).
    apply Forall_nil_2. }
  assert (H4 : save_all lab (map of_int [21; 22; 23; 24; 25; 26; 27; 28; 29]) "MQ7"
                 initial_cursors (boot ∅)
               = (inr (Cursors 0 0 43 4 84 0),
                  snd (save_all lab (map of_int [21; 22; 23; 24; 25; 26; 27; 28; 29])
                         "MQ7" initial_cursors (boot ∅))))
    by (vm_compute; reflexivity).
  split; [exact H1|]. split; [exact H2|]. split; [exact H3|]. split; [exact H4|].
  exact (saved_values_read_back lab "MQ7" "MQIV" 42 _ (boot ∅) _ _ H1 H2 H3 H4).
Defined.

(** ** Addresses outside the configuration *)

Section Unknown.
Variable P : platform.

Lemma NAME_MAP_None addr :
  NAME_MAP !! addr = None ->
  addr <> ADDR_TEMP /\ addr <> ADDR_MQ2 /\ addr <> ADDR_MQ7 /\
  EEPROM_SLOTS !! addr = None.
Proof.
  intros Hnone. repeat split; try (intros ->; discriminate).
  destruct (EEPROM_SLOTS !! addr) eqn:Hs; [|done].
  assert (is_Some (NAME_MAP !! addr)) as [n Hn] by (apply NAME_MAP_SLOTS; eauto).
  congruence.
Qed.

Lemma eeprom_write_unknown addr val s :
  EEPROM_SLOTS !! addr = None ->
  exists s', eeprom_write P addr val s = (inl KeyError, s') /\ data_of s' = data_of s.
Proof.
  intros Hnone. eexists. split.
  - unfold eeprom_write. apply with_lock_run.
    rewrite (bind_ok _ _ _ _ _ (ticks_ms_run P _)).
    unfold const_getitem at 1. rewrite Hnone. reflexivity.
  - done.
Qed.

End Unknown.

(** X16.  For an address that is not a channel of [NAME_MAP] and has no entry
    in the cache, [request_data] raises [KeyError], from [EEPROM_SLOTS[addr]]
    in [eeprom_write]; by then it has counted the access, and it leaves the
    cache, the store and the hit counters as they were. *)
Theorem unknown_channel (P : platform) (addr : Z) (s : state) :
  NAME_MAP !! addr = None ->
  dict_get addr (cache s) = None ->
  exists s',
    request_data P addr s = (inl KeyError, s') /\
    cache s' = cache s /\ store_of s' = store_of s /\
    counters_of s' = (total_access s + 1, cache_hits s, eeprom_hits s).
Proof.
  intros Hname Hmiss.
  destruct (NAME_MAP_None addr Hname) as (Ht & H2 & H7 & Hslots).
  destruct (check_ttl_run P addr (set_total_access (total_access s + 1) s))
    as (sb0 & Hb0 & _ & _ & Hcache & _).
  st_simpl. rewrite Hmiss in Hcache.
  destruct (request_data_cases P addr s) as (sb & Hb & Hsb & Hnb & Hcases).
  assert (sb0 = sb) as -> by congruence.
  destruct Hcases as [(e & s' & He & _)|(_ & sc & Hsc & _ & Hcases)]; [congruence|].
  assert (Hread : eeprom_read P addr sc = (inr None, sc)).
  { unfold eeprom_read. rewrite bool_decide_eq_false_2; [done|].
    rewrite Hname. by intros [? ?]. }
  destruct Hcases as [(e & sd & Hread' & _)|[(val & sd & s' & Hread' & Huse & _)|
                      (val & sd & Hread' & _ & Hsd & ->)]].
  - congruence.
  - assert (val = None) as -> by congruence. done.
  - assert (sd = sc) as -> by congruence.
    assert (Hsensor : read_sensor P addr sc = (inr None, sc)).
    { unfold read_sensor. by rewrite !decide_False. }
    destruct (eeprom_write_unknown P addr None (set_io (S (io sc)) sc) Hslots)
      as (s' & Hw & Hd).
    exists s'. split.
    + unfold request_sensor_tier. rewrite (bind_ok _ _ _ _ _ Hsensor).
      rewrite (bind_ok _ _ _ _ _ (ticks_ms_run P sc)).
      by rewrite (bind_err _ _ _ _ _ Hw).
    + apply data_of_inv in Hd as (Hd1 & Hd2 & Hd3).
      apply data_of_inv in Hsc as (Hc1 & Hc2 & Hc3).
      st_simpl. unfold store_of, counters_of in *. st_simpl.
      split; [congruence|]. split; congruence.
Qed.

Lemma unknown_channel_witness :
  NAME_MAP !! 0x13 = None /\
  dict_get 0x13 (cache (boot ∅)) = None /\
  exists s',
    request_data lab 0x13 (boot ∅) = (inl KeyError, s') /\
    cache s' = cache (boot ∅) /\ store_of s' = store_of (boot ∅) /\
    counters_of s'
      = (total_access (boot ∅) + 1, cache_hits (boot ∅), eeprom_hits (boot ∅)).
Proof.
  assert (H1 : NAME_MAP !! 0x13 = None) by reflexivity.
  assert (H2 : dict_get 0x13 (cache (boot ∅)) = None) by reflexivity.
  split; [exact H1|]. split; [exact H2|].
  exact (unknown_channel lab 0x13 (boot ∅) H1 H2).
Defined.

(** ** Reads that do not raise *)

(** X17.  While the write pointers are slot indices, which they stay from
    start-up on, [eeprom_read] returns for every address and changes neither
    the cache nor the store nor the counters.  For a channel without a
    ShadowRecord whose I2C read transfer fails it returns [None]: the failure
    is swallowed by [read_last_value]. *)
Theorem eeprom_read_returns (P : platform) (addr : Z) (s : state) :
  pointers_in_range s ->
  exists v s',
    eeprom_read P addr s = (inr v, s') /\
    data_of s' = data_of s /\
    (eeprom_ttl s !! addr = None -> i2c_read_fails_at P (io s) = true -> v = None).
Proof.
  intros Hptr.
  destruct (eeprom_read P addr s) as [r s'] eqn:Hrun.
  pose proof (preserved _ _ _ _ _ (eeprom_read_frame P addr) Hrun) as Hd.
  destruct (NAME_MAP !! addr) as [name|] eqn:Hname.
  - assert (is_Some (EEPROM_SLOTS !! addr)) as [pages Hslots]
      by (apply NAME_MAP_SLOTS; eauto).
    destruct (NAME_MAP_pages _ _ Hslots) as (name' & page0 & Hname' & _ & Hcases).
    destruct (Hptr addr) as (w & Hw & _); [eauto|].
    pose proof (eeprom_read_physical P addr s pages name' page0 w Hslots Hname' Hcases Hw)
      as Hfst.
    rewrite Hrun in Hfst. cbn [fst] in Hfst.
    destruct (eeprom_ttl s !! addr) as [rec|] eqn:Hrec.
    + destruct (ticks_diff P _ _ <? TTL_MS); subst r;
        (eexists _, s'; split; [done|]; split; [done|]; intros [=]).
    + subst r. eexists _, s'. split; [done|]. split; [done|].
      intros _ Hfail. by rewrite Hfail.
  - unfold eeprom_read in Hrun. rewrite bool_decide_eq_false_2 in Hrun.
    + injection Hrun as <- <-. exists None, s. done.
    + rewrite Hname. by intros [? ?].
Qed.

Lemma eeprom_read_returns_witness :
  pointers_in_range (boot ∅) /\
  exists v s',
    eeprom_read lab ADDR_MQ7 (boot ∅) = (inr v, s') /\
    data_of s' = data_of (boot ∅) /\
    (eeprom_ttl (boot ∅) !! ADDR_MQ7 = None ->
     i2c_read_fails_at lab (io (boot ∅)) = true -> v = None).
Proof.
  split; [exact (boot_pointers ∅)|].
  exact (eeprom_read_returns lab ADDR_MQ7 (boot ∅) (boot_pointers ∅)).
Defined.

(** ** Refreshes *)

(** X18.  The body of the loop of [sensor_loop] skips a channel whose sensor
    gives [None]: it returns and the cache, the store and the counters are
    as they were.  For a reading [x] whose [eeprom_write] returns, which it
    does unless a write transfer raises, the body returns, while the write
    pointers are slot indices, with the ShadowRecord of the channel holding
    [x] at the time of the write and the cache holding [x] for the channel;
    the counters are as they were. *)
Theorem refresh_outcome (P : platform) (addr : Z) (s s1 : state) (val : pyval) :
  read_sensor P addr s = (inr val, s1) ->
  pointers_in_range s ->
  val = None \/ (exists s2, eeprom_write P addr val s1 = (inr tt, s2)) ->
  exists s',
    sensor_loop_step P addr s = (inr tt, s') /\
    counters_of s' = counters_of s /\
    match val with
    | None => data_of s' = data_of s
    | Some x =>
        eeprom_ttl s' !! addr = Some (TtlRecord (ticks_ms_at P (io s1)) (Some x)) /\
        exists t, dict_get addr (cache s') = Some (CacheEntry (Some x) t)
    end.
Proof.
  intros Hsensor Hptr Hwritten.
  pose proof (sensor_loop_step_counters P addr s) as Hn.
  destruct (sensor_loop_step_cases P addr s)
    as [(e & s2 & Hsensor' & _)|[(s2 & Hsensor' & Hrun & Hd)|
        (x & s2 & Hsensor' & Hd & Hw)]].
  - congruence.
  - assert (val = None /\ s2 = s1) as [-> ->] by (split; congruence).
    exists s1. rewrite Hrun in Hn. done.
  - assert (val = Some x /\ s2 = s1) as [-> ->] by (split; congruence).
    destruct Hwritten as [?|(s2 & Hwrite)]; [discriminate|].
    destruct (read_sensor_configured P _ _ _ _ Hsensor) as [pages Hslots].
    destruct (eeprom_write_returned P addr x s1 s2 pages Hslots)
      as (slot & a & _ & _ & _ & _ & Httl); [|exact Hwrite|].
    { intros _. apply data_of_inv in Hd as (_ & Hd & _).
      apply store_of_inv in Hd as (Hd & _). rewrite Hd. apply Hptr. eauto. }
    destruct Hw as [(e & s2' & Hwrite' & _)|(s2' & s' & Hwrite' & Hrun & Hc & Hs & _)];
      [congruence|].
    assert (s2' = s2) as -> by congruence.
    exists s'. rewrite Hrun in Hn. split; [done|]. split; [done|]. split.
    + apply store_of_inv in Hs as (_ & -> & _). rewrite Httl. apply lookup_insert_eq.
    + eexists. rewrite Hc, dict_get_set. by rewrite decide_True.
Qed.

Lemma refresh_outcome_witness :
  read_sensor lab ADDR_TEMP (boot ∅)
    = (inr (Some (of_int 25)), snd (read_sensor lab ADDR_TEMP (boot ∅))) /\
  pointers_in_range (boot ∅) /\
  eeprom_write lab ADDR_TEMP (Some (of_int 25)) (snd (read_sensor lab ADDR_TEMP (boot ∅)))
    = (inr tt,
       snd (eeprom_write lab ADDR_TEMP (Some (of_int 25))
              (snd (read_sensor lab ADDR_TEMP (boot ∅))))) /\
  exists s',
    sensor_loop_step lab ADDR_TEMP (boot ∅) = (inr tt, s') /\
    counters_of s' = counters_of (boot ∅) /\
    eeprom_ttl s' !! ADDR_TEMP
      = Some (TtlRecord (ticks_ms_at lab (io (snd (read_sensor lab ADDR_TEMP (boot ∅)))))
                (Some (of_int 25))) /\
    exists t, dict_get ADDR_TEMP (cache s') = Some (CacheEntry (Some (of_int 25)) t).
Proof.
  assert (H1 : read_sensor lab ADDR_TEMP (boot ∅)
               = (inr (Some (of_int 25)), snd (read_sensor lab ADDR_TEMP (boot ∅))))
    by (vm_compute; reflexivity).
  assert (H3 : eeprom_write lab ADDR_TEMP (Some (of_int 25))
                 (snd (read_sensor lab ADDR_TEMP (boot ∅)))
               = (inr tt,
                  snd (eeprom_write lab ADDR_TEMP (Some (of_int 25))
                         (snd (read_sensor lab ADDR_TEMP (boot ∅))))))
    by (vm_compute; reflexivity).
  split; [exact H1|]. split; [exact (boot_pointers ∅)|]. split; [exact H3|].
  exact (refresh_outcome lab ADDR_TEMP (boot ∅) _ _ H1 (boot_pointers ∅)
           (or_intror (ex_intro _ _ H3))).
Defined.

(** ** A round of the background loop *)

Ltac room :=
  cbv [make_room length CACHE_SIZE Z.of_nat Pos.of_succ_nat Pos.succ Z.leb Z.compare
       Pos.compare Pos.compare_cont py_min_from];
  cbn [dict_del dict_set fst snd last_used].

(** A put into a cache of at most two entries that were used before leaves
    the new entry alone or behind one older entry of another channel. *)
Lemma first_put (c : list (Z * cache_entry)) (k : Z) (v : pyval) (t : Z) :
  (length c <= 2)%nat -> used_before t c ->
  dict_set k (CacheEntry v t) (make_room c) = [(k, CacheEntry v t)] \/
  exists y ey,
    y <> k /\ last_used ey < t /\
    dict_set k (CacheEntry v t) (make_room c) = [(y, ey); (k, CacheEntry v t)].
Proof.
  intros Hlen Hused.
  destruct c as [|[ka [va ta]] [|[kb [vb tb]] [|? ?]]]; cbn [length] in Hlen; [| | |lia].
  - left. reflexivity.
  - apply Forall_cons in Hused as [Ha _]. cbn in Ha. room.
    destruct (decide (ka = k)); [by left|]. right. by exists ka, (CacheEntry va ta).
  - apply Forall_cons in Hused as [Ha Hused]. apply Forall_cons in Hused as [Hb _].
    cbn in Ha, Hb. room.
    destruct (tb <? ta); cbn [fst snd dict_del dict_set];
      repeat (case_decide; subst; cbn [dict_set dict_del]); try congruence;
      first [by left
            | match goal with
              | |- _ \/ (exists y ey, _ /\ _ /\ [(?y0, ?e0); _] = _) =>
                  right; exists y0, e0; by cbn
              end].
Qed.

(** A second put, of another channel and later, leaves exactly the two. *)
Lemma second_put (c : list (Z * cache_entry)) (k1 k2 : Z) (v1 v2 : pyval) (t1 t2 : Z) :
  k1 <> k2 -> t1 < t2 ->
  (length c <= 2)%nat -> used_before t1 c ->
  dict_set k2 (CacheEntry v2 t2) (make_room (dict_set k1 (CacheEntry v1 t1) (make_room c)))
  = [(k1, CacheEntry v1 t1); (k2, CacheEntry v2 t2)].
Proof.
  intros H12 Ht Hlen Hused.
  destruct (first_put c k1 v1 t1 Hlen Hused) as [->|(y & [vy ty] & Hy & Hey & ->)];
    cbn [last_used] in *; room.
  - by rewrite decide_False.
  - destruct (Z.ltb_spec t1 ty); [lia|]. cbn [fst].
    rewrite decide_True by done. rewrite decide_False by done.
    cbn [dict_set]. by rewrite decide_False.
Qed.

(** Three distinct channels put one after the other, at increasing times,
    into a cache of at most two entries that were used before: the first
    one is evicted by the third. *)
Lemma three_puts (c : list (Z * cache_entry)) (k1 k2 k3 : Z) (v1 v2 v3 : pyval)
    (t1 t2 t3 : Z) :
  k1 <> k2 -> k1 <> k3 -> k2 <> k3 ->
  t1 < t2 -> t2 < t3 ->
  (length c <= 2)%nat -> used_before t1 c ->
  dict_set k3 (CacheEntry v3 t3)
    (make_room (dict_set k2 (CacheEntry v2 t2)
       (make_room (dict_set k1 (CacheEntry v1 t1) (make_room c)))))
  = [(k2, CacheEntry v2 t2); (k3, CacheEntry v3 t3)].
Proof.
  intros H12 H13 H23 Ht12 Ht23 Hlen Hused.
  rewrite (second_put c k1 k2 v1 v2 t1 t2) by done. room.
  destruct (Z.ltb_spec t2 t1); [lia|]. cbn [fst].
  rewrite decide_True by done. rewrite decide_False by done.
  cbn [dict_set]. by rewrite decide_False.
Qed.

Section Rounds.
Variable P : platform.

Lemma write_to_eeprom_io (n : nat) page i val :
  keeps (fun s => (n <= io s)%nat) (write_to_eeprom P page i val).
Proof.
  apply (keeps_preserves _ besides_cells); [|apply write_to_eeprom_frame].
  intros s s' Heq Hs. unfold besides_cells in Heq.
  assert (io s' = io s) as -> by congruence. exact Hs.
Qed.

Lemma eeprom_write_scan_io (n : nat) addr val now slots :
  keeps (fun s => (n <= io s)%nat) (eeprom_write_scan P addr val now slots).
Proof.
  pose proof (write_to_eeprom_io n).
  induction slots as [|[i page] rest IH]; cbn [eeprom_write_scan].
  - apply keeps_ret.
  - unfold eeprom_ttl_contains, eeprom_ttl_getitem, write_pointers_setitem.
    repeat keeps_step.
Qed.

Lemma eeprom_write_io (n : nat) addr val :
  keeps (fun s => (n <= io s)%nat) (eeprom_write P addr val).
Proof.
  pose proof (write_to_eeprom_io n). pose proof (eeprom_write_scan_io n).
  unfold eeprom_write, ticks_ms, const_getitem, write_pointers_getitem,
    write_pointers_setitem, eeprom_ttl_setitem.
  repeat keeps_step.
Qed.

Lemma read_sensor_io (n : nat) addr :
  keeps (fun s => (n <= io s)%nat) (read_sensor P addr).
Proof.
  unfold read_sensor, read_temperature, read_temp, read_scratch, read_voltage_mq2,
    read_voltage_mq7, calculate_ppm, ppm_curve, convert_temp, sleep_ms.
  repeat keeps_step.
Qed.

(** A refresh of a readable channel: what it puts into the cache and when. *)
Lemma refresh_put addr s :
  sensors_readable P -> writes_succeed P -> addr ∈ ADDR_LIST -> pointers_in_range s ->
  exists x s' n,
    sensor_loop_step P addr s = (inr tt, s') /\
    (io s <= n)%nat /\ io s' = S n /\
    cache s'
      = dict_set addr (CacheEntry (Some x) (ticks_ms_at P n)) (make_room (cache s)) /\
    pointers_in_range s'.
Proof.
  intros Hread Hwrites Haddr Hptr.
  destruct (Hread addr s Haddr) as (x & s1 & Hsensor).
  pose proof (sensor_loop_step_range P addr s Hptr) as Hptr'.
  pose proof (read_sensor_io (io s) addr s (le_n _)) as Hio1.
  rewrite Hsensor in Hio1. cbn [snd] in Hio1.
  destruct (sensor_loop_step_cases P addr s)
    as [(e & s2 & Hsensor' & _)|[(s2 & Hsensor' & _)|
        (x' & s2 & Hsensor' & Hd & Hw)]]; [congruence..|].
  assert (x' = x /\ s2 = s1) as [-> ->] by (split; congruence).
  destruct (read_sensor_configured P _ _ _ _ Hsensor) as [pages Hslots].
  destruct (eeprom_write_run P addr x s1 pages Hslots)
    as (s2 & slot & a & Hwrite & _); [|apply Hwrites|].
  { intros _. apply data_of_inv in Hd as (_ & Hd & _).
    apply store_of_inv in Hd as (Hd & _). rewrite Hd. apply Hptr. eauto. }
  pose proof (eeprom_write_io (io s1) addr (Some x) s1 (le_n _)) as Hio2.
  rewrite Hwrite in Hio2. cbn [snd] in Hio2.
  destruct Hw as [(e & s2' & Hwrite' & _)|(s2' & s' & Hwrite' & Hrun & Hc & _ & _ & Hio)];
    [congruence|].
  assert (s2' = s2) as -> by congruence.
  exists x, s', (io s2). rewrite Hrun in Hptr'.
  split; [done|]. split; [lia|]. done.
Qed.

(** A round of the loop over the three channels. *)
Lemma round_run s :
  clock_increases P -> sensors_readable P -> writes_succeed P ->
  pointers_in_range s -> within_capacity s ->
  used_before (ticks_ms_at P (io s)) (cache s) ->
  exists s' e2 e7,
    for_each ADDR_LIST (sensor_loop_step P) s = (inr tt, s') /\
    cache s' = [(ADDR_MQ2, e2); (ADDR_MQ7, e7)] /\
    pointers_in_range s' /\ within_capacity s' /\
    used_before (ticks_ms_at P (io s')) (cache s').
Proof.
  intros Hclock Hread Hwrites Hptr Hcap Hused.
  destruct (refresh_put ADDR_TEMP s Hread Hwrites)
    as (x1 & s1 & n1 & Hr1 & Hn1 & Hio1 & Hc1 & Hp1); [set_solver|done|].
  destruct (refresh_put ADDR_MQ2 s1 Hread Hwrites)
    as (x2 & s2 & n2 & Hr2 & Hn2 & Hio2 & Hc2 & Hp2); [set_solver|done|].
  destruct (refresh_put ADDR_MQ7 s2 Hread Hwrites)
    as (x3 & s3 & n3 & Hr3 & Hn3 & Hio3 & Hc3 & Hp3); [set_solver|done|].
  assert (Ht12 : ticks_ms_at P n1 < ticks_ms_at P n2) by (apply Hclock; lia).
  assert (Ht23 : ticks_ms_at P n2 < ticks_ms_at P n3) by (apply Hclock; lia).
  assert (Hused1 : used_before (ticks_ms_at P n1) (cache s)).
  { unfold used_before in *. eapply Forall_impl; [exact Hused|].
    intros kv Hkv. cbn beta in *.
    destruct (decide (n1 = io s)) as [->|Hne]; [done|].
    assert (ticks_ms_at P (io s) < ticks_ms_at P n1) by (apply Hclock; lia). lia. }
  assert (Hcache : cache s3 = [(ADDR_MQ2, CacheEntry (Some x2) (ticks_ms_at P n2));
                              (ADDR_MQ7, CacheEntry (Some x3) (ticks_ms_at P n3))]).
  { rewrite Hc3, Hc2, Hc1. apply three_puts; try done.
    unfold within_capacity, CACHE_SIZE in Hcap. lia. }
  exists s3, (CacheEntry (Some x2) (ticks_ms_at P n2)),
    (CacheEntry (Some x3) (ticks_ms_at P n3)).
  split; [|split; [done|split; [done|split]]].
  - cbn [for_each ADDR_LIST].
    rewrite (bind_ok _ _ _ _ _ Hr1), (bind_ok _ _ _ _ _ Hr2), (bind_ok _ _ _ _ _ Hr3).
    reflexivity.
  - unfold within_capacity, CACHE_SIZE. rewrite Hcache. cbn. lia.
  - rewrite Hcache, Hio3. unfold used_before.
    assert (ticks_ms_at P n3 < ticks_ms_at P (S n3)) by (apply Hclock; lia).
    repeat constructor; cbn; lia.
Qed.

End Rounds.

(** X19.  On a platform whose clock strictly increases, whose three sensors
    give a value whenever they are read and whose write transfers never
    raise, every positive number of rounds of [sensor_loop], started with
    write pointers that are slot indices and a cache of at most [CACHE_SIZE]
    entries used in the past, returns with the cache holding an entry for
    each of the two gas channels and nothing else: the temperature,
    refreshed first in a round, is evicted when the third channel of the
    round is put into the cache of two entries. *)
Theorem rounds_evict_temperature (P : platform) (rounds : nat) (s : state) :
  clock_increases P -> sensors_readable P -> writes_succeed P ->
  pointers_in_range s -> within_capacity s ->
  used_before (ticks_ms_at P (io s)) (cache s) ->
  exists s',
    sensor_loop P (S rounds) s = (inr tt, s') /\
    dict_get ADDR_TEMP (cache s') = None /\
    is_Some (dict_get ADDR_MQ2 (cache s')) /\
    is_Some (dict_get ADDR_MQ7 (cache s')) /\
    length (cache s') = 2%nat.
Proof.
  intros Hclock Hread Hwrites.
  assert (Hgen : forall n s, pointers_in_range s -> within_capacity s ->
            used_before (ticks_ms_at P (io s)) (cache s) ->
            exists s' e2 e7,
              sensor_loop P (S n) s = (inr tt, s') /\
              cache s' = [(ADDR_MQ2, e2); (ADDR_MQ7, e7)] /\
              pointers_in_range s' /\ within_capacity s' /\
              used_before (ticks_ms_at P (io s')) (cache s')).
  { induction n as [|n IH]; intros s0 Hptr Hcap Hused.
    - destruct (round_run P s0 Hclock Hread Hwrites Hptr Hcap Hused)
        as (s' & e2 & e7 & Hrun & Hrest).
      exists s', e2, e7. split; [|done].
      cbn [sensor_loop]. rewrite (bind_ok _ _ _ _ _ Hrun). reflexivity.
    - destruct (round_run P s0 Hclock Hread Hwrites Hptr Hcap Hused)
        as (s1 & e2 & e7 & Hrun & _ & Hptr1 & Hcap1 & Hused1).
      destruct (IH s1 Hptr1 Hcap1 Hused1) as (s' & e2' & e7' & Hrun' & Hrest).
      exists s', e2', e7'. split; [|done].
      change (sensor_loop P (S (S n)))
        with (for_each ADDR_LIST (sensor_loop_step P) ;; sleep_ms 800 ;; sensor_loop P (S n)).
      rewrite (bind_ok _ _ _ _ _ Hrun). unfold sleep_ms at 1.
      erewrite bind_ok by reflexivity. exact Hrun'. }
  intros Hptr Hcap Hused.
  destruct (Hgen rounds s Hptr Hcap Hused) as (s' & e2 & e7 & Hrun & Hcache & _).
  exists s'. split; [done|]. rewrite Hcache.
  split; [done|]. split; [by eexists|]. split; [by eexists|done].
Qed.

(** The bench platform with a steady clock and a warm sensor qualifies. *)
Lemma lab_clock_increases : clock_increases lab.
Proof. intros n m Hlt. cbn. unfold steady. lia. Qed.

Lemma lab_sensors_readable : sensors_readable lab.
Proof.
  intros addr s Haddr. unfold ADDR_LIST in Haddr.
  assert (addr = ADDR_TEMP \/ addr = ADDR_MQ2 \/ addr = ADDR_MQ7) as [-> | [-> | ->]].
  { rewrite !elem_of_cons in Haddr. rewrite elem_of_nil in Haddr. tauto. }
  - destruct (read_sensor lab ADDR_TEMP s) as [[e|[x|]] s1] eqn:Hrun; [| by eauto |];
      vm_compute in Hrun; discriminate.
  - destruct (read_sensor lab ADDR_MQ2 s) as [[e|[x|]] s1] eqn:Hrun; [| by eauto |];
      vm_compute in Hrun; discriminate.
  - destruct (read_sensor lab ADDR_MQ7 s) as [[e|[x|]] s1] eqn:Hrun; [| by eauto |];
      vm_compute in Hrun; discriminate.
Qed.

Lemma lab_writes_succeed : writes_succeed lab.
Proof. intros n a. reflexivity. Qed.

Lemma rounds_evict_temperature_witness :
  clock_increases lab /\ sensors_readable lab /\ writes_succeed lab /\
  pointers_in_range after_first_request /\ within_capacity after_first_request /\
  used_before (ticks_ms_at lab (io after_first_request)) (cache after_first_request) /\
  exists s',
    sensor_loop lab (S 1) after_first_request = (inr tt, s') /\
    dict_get ADDR_TEMP (cache s') = None /\
    is_Some (dict_get ADDR_MQ2 (cache s')) /\
    is_Some (dict_get ADDR_MQ7 (cache s')) /\
    length (cache s') = 2%nat.
Proof.
  assert (H3 : pointers_in_range after_first_request)
    by exact (request_data_range lab ADDR_TEMP (boot ∅) (boot_pointers ∅)).
  assert (H4 : within_capacity after_first_request)
    by (unfold within_capacity, CACHE_SIZE; vm_compute; discriminate).
  assert (H5 : used_before (ticks_ms_at lab (io after_first_request))
                 (cache after_first_request)).
  { unfold used_before. vm_compute. repeat constructor. }
  split; [exact lab_clock_increases|]. split; [exact lab_sensors_readable|].
  split; [exact lab_writes_succeed|].
  split; [exact H3|]. split; [exact H4|]. split; [exact H5|].
  exact (rounds_evict_temperature lab 1 after_first_request
           lab_clock_increases lab_sensors_readable lab_writes_succeed H3 H4 H5).
Defined.

(** ** Writes that fail *)

(** X20.  What a call of [eeprom_write] leaves behind, while the write
    pointers are slot indices.  The cache and the counters are what they
    were, whatever the outcome.  It returns only for a channel of
    [EEPROM_SLOTS] and a number, which the ShadowRecord of the channel then
    holds.  When it raises, the write pointers and the ShadowRecords are
    what they were; for a number and a channel of [EEPROM_SLOTS] the
    exception is the [OSError] of a write transfer, and the slot holds the
    bytes of the number that were programmed before that transfer, fewer
    than four; for [None] or an address that is not configured no cell of
    the EEPROM has changed. *)
Theorem eeprom_write_effects (P : platform) (addr : Z) (val : pyval)
    (s s' : state) (r : exn + unit) :
  pointers_in_range s ->
  eeprom_write P addr val s = (r, s') ->
  cache s' = cache s /\ counters_of s' = counters_of s /\
  match r with
  | inr _ =>
      exists x,
        val = Some x /\ is_Some (EEPROM_SLOTS !! addr) /\
        eeprom_ttl s' !! addr = Some (TtlRecord (ticks_ms_at P (io s)) (Some x))
  | inl e =>
      write_pointers s' = write_pointers s /\ eeprom_ttl s' = eeprom_ttl s /\
      match val, EEPROM_SLOTS !! addr with
      | Some x, Some pages =>
          e = OSError /\
          exists slot a k,
            write_address pages slot = Some a /\
            first_failure P (S (io s)) a 4 = Some k /\ (k < 4)%nat /\
            cells s' = program_cells a (take k (le_bytes (bits_of_b32 x))) (cells s)
      | _, _ => cells s' = cells s
      end
  end.
Proof.
  intros Hptr Hrun.
  pose proof (preserved _ _ _ _ _ (eeprom_write_frame P addr val) Hrun) as Hf.
  cbn beta in Hf.
  split; [congruence|]. split; [congruence|].
  assert (Hraised : forall e s1,
            eeprom_write P addr val s = (inl e, s1) -> data_of s1 = data_of s ->
            match r with
            | inr _ => False
            | inl _ =>
                write_pointers s' = write_pointers s /\
                eeprom_ttl s' = eeprom_ttl s /\ cells s' = cells s
            end).
  { intros e s1 Hrun1 Hd. rewrite Hrun in Hrun1. injection Hrun1 as -> ->.
    destruct (data_of_inv _ _ Hd) as (_ & Hst & _).
    by destruct (store_of_inv _ _ Hst) as (? & ? & ?). }
  destruct val as [x|].
  - destruct (EEPROM_SLOTS !! addr) as [pages|] eqn:Hslots.
    + destruct (eeprom_write_outcome P addr x s pages Hslots)
        as (s1 & slot & a & _ & Ha & Hcells & Hout).
      { intros _. apply Hptr. eauto. }
      unfold programmed in Hcells. cbn [length le_bytes] in Hcells.
      destruct (first_failure P (S (io s)) a 4) as [k|] eqn:Hff;
        destruct Hout as (Hrun1 & Hwp & Httl);
        rewrite Hrun in Hrun1; injection Hrun1 as -> ->.
      * split; [done|]. split; [done|]. split; [done|].
        exists slot, a, k. split; [done|]. split; [done|].
        split; [exact (proj1 (first_failure_lt P _ _ _ _ Hff))|done].
      * exists x. split; [done|]. split; [by eexists|].
        rewrite Httl. apply lookup_insert_eq.
    + destruct (eeprom_write_unknown P addr (Some x) s Hslots) as (s1 & Hrun1 & Hd).
      specialize (Hraised _ _ Hrun1 Hd). destruct r as [e|[]]; [|done].
      by destruct Hraised as (? & ? & ?).
  - destruct (eeprom_write_None P addr s) as (e & s1 & Hrun1 & Hd).
    specialize (Hraised _ _ Hrun1 Hd). destruct r as [e'|[]]; [|done].
    destruct Hraised as (? & ? & ?). by destruct (EEPROM_SLOTS !! addr).
Qed.

Lemma eeprom_write_effects_witness :
  pointers_in_range (boot ∅) /\
  (* a write transfer raises *)
  (eeprom_write worn ADDR_MQ2 (Some (of_int 3)) (boot ∅)
     = (inl OSError, snd (eeprom_write worn ADDR_MQ2 (Some (of_int 3)) (boot ∅))) /\
   cache (snd (eeprom_write worn ADDR_MQ2 (Some (of_int 3)) (boot ∅))) = cache (boot ∅) /\
   counters_of (snd (eeprom_write worn ADDR_MQ2 (Some (of_int 3)) (boot ∅)))
     = counters_of (boot ∅) /\
   write_pointers (snd (eeprom_write worn ADDR_MQ2 (Some (of_int 3)) (boot ∅)))
     = write_pointers (boot ∅) /\
   eeprom_ttl (snd (eeprom_write worn ADDR_MQ2 (Some (of_int 3)) (boot ∅)))
     = eeprom_ttl (boot ∅) /\
   OSError = OSError /\
   exists slot a k,
     write_address [0; 1; 2; 3] slot = Some a /\
     first_failure worn 1 a 4 = Some k /\ (k < 4)%nat /\
     cells (snd (eeprom_write worn ADDR_MQ2 (Some (of_int 3)) (boot ∅)))
     = program_cells a (take k (le_bytes (bits_of_b32 (of_int 3)))) (cells (boot ∅))) /\
  (* the value is [None] *)
  (eeprom_write lab ADDR_MQ7 None (boot ∅)
     = (inl TypeError, snd (eeprom_write lab ADDR_MQ7 None (boot ∅))) /\
   cache (snd (eeprom_write lab ADDR_MQ7 None (boot ∅))) = cache (boot ∅) /\
   counters_of (snd (eeprom_write lab ADDR_MQ7 None (boot ∅))) = counters_of (boot ∅) /\
   write_pointers (snd (eeprom_write lab ADDR_MQ7 None (boot ∅)))
     = write_pointers (boot ∅) /\
   eeprom_ttl (snd (eeprom_write lab ADDR_MQ7 None (boot ∅))) = eeprom_ttl (boot ∅) /\
   cells (snd (eeprom_write lab ADDR_MQ7 None (boot ∅))) = cells (boot ∅)) /\
  (* the call returns *)
  (eeprom_write lab ADDR_MQ7 (Some (of_int 7)) (boot ∅)
     = (inr tt, snd (eeprom_write lab ADDR_MQ7 (Some (of_int 7)) (boot ∅))) /\
   cache (snd (eeprom_write lab ADDR_MQ7 (Some (of_int 7)) (boot ∅))) = cache (boot ∅) /\
   counters_of (snd (eeprom_write lab ADDR_MQ7 (Some (of_int 7)) (boot ∅)))
     = counters_of (boot ∅) /\
   exists x,
     Some (of_int 7) = Some x /\ is_Some (EEPROM_SLOTS !! ADDR_MQ7) /\
     eeprom_ttl (snd (eeprom_write lab ADDR_MQ7 (Some (of_int 7)) (boot ∅))) !! ADDR_MQ7
     = Some (TtlRecord (ticks_ms_at lab (io (boot ∅))) (Some x))).
Proof.
  assert (H1 : eeprom_write worn ADDR_MQ2 (Some (of_int 3)) (boot ∅)
               = (inl OSError, snd (eeprom_write worn ADDR_MQ2 (Some (of_int 3)) (boot ∅))))
    by (vm_compute; reflexivity).
  assert (H2 : eeprom_write lab ADDR_MQ7 None (boot ∅)
               = (inl TypeError, snd (eeprom_write lab ADDR_MQ7 None (boot ∅))))
    by (vm_compute; reflexivity).
  assert (H3 : eeprom_write lab ADDR_MQ7 (Some (of_int 7)) (boot ∅)
               = (inr tt, snd (eeprom_write lab ADDR_MQ7 (Some (of_int 7)) (boot ∅))))
    by (vm_compute; reflexivity).
  split; [exact (boot_pointers ∅)|]. split; [|split].
  - split; [exact H1|].
    exact (eeprom_write_effects worn ADDR_MQ2 (Some (of_int 3)) (boot ∅) _ _
             (boot_pointers ∅) H1).
  - split; [exact H2|].
    exact (eeprom_write_effects lab ADDR_MQ7 None (boot ∅) _ _ (boot_pointers ∅) H2).
  - split; [exact H3|].
    exact (eeprom_write_effects lab ADDR_MQ7 (Some (of_int 7)) (boot ∅) _ _
             (boot_pointers ∅) H3).
Defined.
